(** * C deadlock detector ([deadlock_detector.py]): model and properties

    The program asks gdb for the backtrace of every thread, classifies the
    frames, resolves for each blocked thread the LWP that owns the mutex it
    waits for, and reports the threads that wait for one another.

    The model follows the source class by class: [Frame], [Thread], [GDB].
    Python byte strings are [string]s, Python [int]s are [Z], [None]-able
    attributes are [option]s.  What the program prints and the exceptions it
    can raise are kept in the small monad [M]; the debugger is a function from
    the list of batch commands to the text gdb answers. *)

From Stdlib Require Import List ZArith Lia Bool Ascii String.
From Stdlib Require Import Numbers.DecimalString Relations.Relation_Operators.
Import ListNotations.

Open Scope string_scope.
Open Scope Z_scope.

(** ** Python primitives on byte strings *)

Module Py.

Definition nl : ascii := "010"%char.
Definition dquote : ascii := "034"%char.

Definition between (lo hi c : ascii) : bool :=
  ((N_of_ascii lo <=? N_of_ascii c) && (N_of_ascii c <=? N_of_ascii hi))%N.

Definition is_digit (c : ascii) : bool := between "0" "9" c.
Definition is_lower (c : ascii) : bool := between "a" "z" c.
Definition is_upper (c : ascii) : bool := between "A" "Z" c.

(** [str.isspace] of one byte in the C locale: space, \t, \n, \v, \f, \r. *)
Definition is_space (c : ascii) : bool :=
  (c =? " ")%char || between "009" "013" c.

(** [s.find(sub)]: the lowest index at which [sub] occurs in [s], or -1. *)
Definition find (s sub : string) : Z :=
  match String.index 0 sub s with
  | Some n => Z.of_nat n
  | None => -1
  end.

(** [sub in s] on strings. *)
Definition contains (sub s : string) : bool := 0 <=? find s sub.

(** [s.split(sep)] for a one-character separator: never drops empty fields. *)
Fixpoint split_on (sep : ascii) (s : string) : list string :=
  match s with
  | EmptyString => [EmptyString]
  | String c s' =>
      if (c =? sep)%char then EmptyString :: split_on sep s'
      else match split_on sep s' with
           | w :: ws => String c w :: ws
           | [] => [String c EmptyString]
           end
  end.

(** [s.split()]: fields separated by runs of white space, no empty field. *)
Fixpoint split_ws_aux (cur : string) (s : string) : list string :=
  match s with
  | EmptyString => if (cur =? "")%string then [] else [cur]
  | String c s' =>
      if is_space c
      then (if (cur =? "")%string then split_ws_aux "" s'
            else cur :: split_ws_aux "" s')
      else split_ws_aux (cur ++ String c "") s'
  end.

Definition split (s : string) : list string := split_ws_aux "" s.

(** Truth value of a string-or-None attribute: [None] and [''] are false. *)
Definition truthy (o : option string) : bool :=
  match o with
  | Some s => negb (s =? "")%string
  | None => false
  end.

Fixpoint lstrip (s : string) : string :=
  match s with
  | String c s' => if is_space c then lstrip s' else s
  | EmptyString => EmptyString
  end.

Fixpoint rstrip (s : string) : string :=
  match s with
  | String c s' =>
      match rstrip s' with
      | EmptyString => if is_space c then EmptyString else String c EmptyString
      | r => String c r
      end
  | EmptyString => EmptyString
  end.

Fixpoint digits_value (acc : Z) (s : string) : option Z :=
  match s with
  | EmptyString => Some acc
  | String c s' =>
      if is_digit c
      then digits_value (10 * acc + Z.of_N (N_of_ascii c - 48)) s'
      else None
  end.

Definition unsigned10 (s : string) : option Z :=
  match s with
  | EmptyString => None
  | _ => digits_value 0 s
  end.

(** [int(s, 10)]: surrounding white space, an optional sign and at least one
    decimal digit; [None] stands for [ValueError].  Every string the program
    converts either consists of digits only (a capture of [[0-9]*]) or is a
    command-line word. *)
Definition int10 (s : string) : option Z :=
  match rstrip (lstrip s) with
  | String "+" r => unsigned10 r
  | String "-" r => option_map Z.opp (unsigned10 r)
  | r => unsigned10 r
  end.

(** ["{}".format(n)] for an integer. *)
Definition str_of_int (n : Z) : string := NilZero.string_of_int (Z.to_int n).

End Py.

(** ** The fragment of [re] the program uses

    Every pattern of the source is a sequence of literal text, starred
    character classes (a run of spaces, a run of any characters) and groups
    that hold an optional literal followed by a starred class.  [rmatch] is
    [re.match]: anchored at the start, greedy, backtracking from the longest
    repetition down, and answering with the tuple of groups. *)

Module Re.

Inductive cls : Type :=
| digit      (* [0-9] *)
| blank      (* the space of the starred space in the frame pattern *)
| word       (* [a-zA-Z0-9_-] *)
| func       (* [\?a-zA-Z0-9_-] *)
| file       (* [,/.:_\-a-zA-Z0-9] *)
| hexlower   (* [a-f0-9] *)
| anychar.   (* . : anything but a newline *)

Definition alnum (c : ascii) : bool :=
  Py.is_lower c || Py.is_upper c || Py.is_digit c.

Definition in_cls (k : cls) (c : ascii) : bool :=
  match k with
  | digit => Py.is_digit c
  | blank => (c =? " ")%char
  | word => alnum c || (c =? "_")%char || (c =? "-")%char
  | func => (c =? "?")%char || alnum c || (c =? "_")%char || (c =? "-")%char
  | file => (c =? ",")%char || (c =? "/")%char || (c =? ".")%char
            || (c =? ":")%char || (c =? "_")%char || (c =? "-")%char
            || alnum c
  | hexlower => Py.between "a" "f" c || Py.is_digit c
  | anychar => negb (c =? Py.nl)%char
  end.

Inductive item : Type :=
| Lit (s : string)                (* literal text *)
| Star (k : cls)                  (* a starred class outside a group *)
| Group (pre : string) (k : cls). (* a group: pre, then a starred class *)

Definition regex := list item.

Fixpoint strip_prefix (p s : string) : option string :=
  match p, s with
  | EmptyString, _ => Some s
  | String a p', String b s' =>
      if (a =? b)%char then strip_prefix p' s' else None
  | String _ _, EmptyString => None
  end.

Fixpoint rmatch (r : regex) (s : string) {struct r} : option (list string) :=
  match r with
  | [] => Some []
  | Lit l :: r' =>
      match strip_prefix l s with
      | Some s' => rmatch r' s'
      | None => None
      end
  | Star k :: r' =>
      (fix star (s : string) : option (list string) :=
         match s with
         | String c s' =>
             if in_cls k c
             then match star s' with
                  | Some gs => Some gs
                  | None => rmatch r' s
                  end
             else rmatch r' s
         | EmptyString => rmatch r' s
         end) s
  | Group pre k :: r' =>
      match strip_prefix pre s with
      | None => None
      | Some s0 =>
          (fix star (acc s : string) : option (list string) :=
             let stop := option_map (cons (pre ++ acc)) (rmatch r' s) in
             match s with
             | String c s' =>
                 if in_cls k c
                 then match star (acc ++ String c "") s' with
                      | Some gs => Some gs
                      | None => stop
                      end
                 else stop
             | EmptyString => stop
             end) "" s0
      end
  end.

(** [re.search]: the match at the leftmost position that has one. *)
Fixpoint rsearch (r : regex) (s : string) : option (list string) :=
  match rmatch r s with
  | Some gs => Some gs
  | None =>
      match s with
      | String _ s' => rsearch r s'
      | EmptyString => None
      end
  end.

End Re.

(** ** Printing and exceptions *)

Inductive lock_kind : Type := pthread_mutex_t | pthread_rwlock_t.

(** One constructor per [print] call of the source, carrying the values that
    are formatted into the message. *)
Inductive output : Type :=
| Skipping_invalid_frame (line : string)
| No_match_for_thread (line : string)
| No_thread_found_with_lwp (lwp : string)
| Threads_are (lwps : list string)
| Did_not_find (lwp : option string) (lwps : list string)
| Did_not_match_the_pattern (raw : string) (pattern : Re.regex)
| No_match_found_for (thread_index frame_index : Z)
| Unable_to_handle_type (kind : option lock_kind)
| There_are_no_locked_threads
| No_owner_for (who : string)
| Rule_of_80
| Is_waiting_for_a_lock (who : string) (lock_func : option string)
                        (owner : string)
| Backtrace_of (who : string)
| Raw_frame (raw : string)
| Deadlock_between (a b : string).

Inductive exn : Type := ValueError | IndexError | TypeError.

Inductive outcome (A : Type) : Type :=
| Returns (a : A)
| Raises (e : exn).
Arguments Returns {A} a.
Arguments Raises {A} e.

(** A computation: what it printed, in order, and how it ended. *)
Definition M (A : Type) : Type := list output * outcome A.

Definition ret {A} (a : A) : M A := ([], Returns a).
Definition raise {A} (e : exn) : M A := ([], Raises e).
Definition print (o : output) : M unit := ([o], Returns tt).

Definition bind {A B} (m : M A) (f : A -> M B) : M B :=
  match m with
  | (o1, Returns a) => let (o2, r) := f a in ((o1 ++ o2)%list, r)
  | (o1, Raises e) => (o1, Raises e)
  end.

Notation "x <- m ;; k" := (bind m (fun x => k))
  (at level 61, m at next level, right associativity).
Notation "m ;;; k" := (bind m (fun _ => k))
  (at level 61, right associativity).

(** [t[i]] on a tuple or list. *)
Definition getitem {A} (t : list A) (i : nat) : M A :=
  match nth_error t i with
  | Some a => ret a
  | None => raise IndexError
  end.

(** [int(s, 10)] *)
Definition int (s : string) : M Z :=
  match Py.int10 s with
  | Some n => ret n
  | None => raise ValueError
  end.

Definition printed {A} (m : M A) : list output := fst m.
Definition result {A} (m : M A) : outcome A := snd m.

(** The gdb session: [get_output] applied to the list of commands of one
    batch.  The text it answers is whatever the debugger prints. *)
Definition session : Type := list string -> string.

(** ** class Frame *)

Module Frame.

Record t : Type := mk {
  raw : string;
  index : Z;
  addr : option string;
  in_func : option string;
  args : option string;
  from_file : option string;
  at_file : option string;
  locked : bool;
  lock_type : option lock_kind
}.

(** [Frame.__init__] before it calls [parse]. *)
Definition init (data : string) : t :=
  {| raw := data; index := -1; addr := None; in_func := None; args := None;
     from_file := None; at_file := None; locked := false;
     lock_type := None |}.

Definition base_pattern : Re.regex :=
  [Re.Lit "#"; Re.Group "" Re.digit; Re.Star Re.blank; Re.Group "" Re.word;
   Re.Star Re.anychar].
Definition in_pattern : Re.regex :=
  [Re.Lit "in "; Re.Group "" Re.func; Re.Lit " ("; Re.Star Re.anychar;
   Re.Lit ")"].
Definition file_pattern : Re.regex := [Re.Group "" Re.file].
Definition at_pattern : Re.regex := Re.Lit "at " :: file_pattern.
Definition from_pattern : Re.regex := Re.Lit "from " :: file_pattern.

Definition owner_pattern : Re.regex :=
  [Re.Lit "__owner = "; Re.Group "" Re.digit].

Definition sep : string := "=======".

Definition is_anchor (mem_addr val : string) : bool :=
  (mem_addr =? "0x80")%string && (val =? "128")%string.

(** The [for line in lines] loop of [parse_locked_state].  The loop leaves at
    its [break], which ends the branch [if found_special]; the answer is the
    [mem_addr] of the line at which that happens, or [None] when the lines
    run out first. *)
Fixpoint scan_registers (found_sep found_special : bool)
  (lines : list string) : option string :=
  match lines with
  | [] => None
  | line :: rest =>
      if negb found_sep then
        if Py.find line sep =? 0
        then scan_registers true found_special rest
        else scan_registers found_sep found_special rest
      else
        match Py.split line with
        | [register; mem_addr; val] =>
            if is_anchor mem_addr val
            then scan_registers found_sep true rest
            else if found_special
                 then Some mem_addr
                 else scan_registers found_sep found_special rest
        | _ => scan_registers found_sep found_special rest
        end
  end.

(** The batch that dumps the registers of a frame. *)
Definition registers_query (thread_index frame_index : Z) : list string :=
  ["thread " ++ Py.str_of_int thread_index;
   "frame " ++ Py.str_of_int frame_index;
   "echo " ++ sep ++ String Py.nl "";
   "info reg"].

(** The batch that prints the mutex at an address; [get_output] makes a
    one-element list of a command given as a string. *)
Definition mutex_query (mem_addr : string) : list string :=
  ["p *(pthread_mutex_t*)" ++ mem_addr].

Section WithSession.
Variable get_output : session.

(** The body of [if found_special:] in [parse_locked_state], up to its
    [break]: answers the value assigned to [self.thread.lock_owner_lwp], if
    the assignment is reached. *)
Definition read_owner (thread_index : Z) (f : t) (mem_addr : string)
  : M (option string) :=
  match lock_type f with
  | Some pthread_mutex_t =>
      let info := get_output (mutex_query mem_addr) in
      match Re.rsearch owner_pattern info with
      | Some groups => owner <- getitem groups 0 ;; ret (Some owner)
      | None =>
          print (No_match_found_for thread_index (index f)) ;;;
          ret None
      end
  | k => print (Unable_to_handle_type k) ;;; ret None
  end.

(** [parse_locked_state] *)
Definition parse_locked_state (thread_index : Z) (f : t)
  : M (option string) :=
  let lines :=
    Py.split_on Py.nl
      (get_output (registers_query thread_index (index f))) in
  match scan_registers false false lines with
  | None => ret None
  | Some mem_addr => read_owner thread_index f mem_addr
  end.

(** The [found] list and the pattern built from the keywords of the line. *)
Definition keywords (raw : string) : list string * Re.regex :=
  let s0 := (@nil string, base_pattern) in
  let s1 := if 0 <=? Py.find raw " in "
            then ((fst s0 ++ ["in"])%list,
                  (snd s0 ++ Re.Lit " " :: in_pattern)%list)
            else s0 in
  let s2 := if 0 <=? Py.find raw " from "
            then ((fst s1 ++ ["from"])%list,
                  (snd s1 ++ Re.Lit " " :: from_pattern)%list)
            else s1 in
  if 0 <=? Py.find raw " at "
  then ((fst s2 ++ ["at"])%list, (snd s2 ++ Re.Lit " " :: at_pattern)%list)
  else s2.

Definition mem (x : string) (l : list string) : bool :=
  existsb (String.eqb x) l.

(** The assignments of [parse] after a successful match, up to the locators.
    The last branch is the source's [elif 'at':], whose condition is a
    non-empty string literal and so always holds. *)
Definition assign_fields (f : t) (found : list string) (data : list string)
  : M t :=
  d0 <- getitem data 0 ;;
  i <- int d0 ;;
  d1 <- getitem data 1 ;;
  let f := {| raw := raw f; index := i; addr := Some d1;
              in_func := in_func f; args := args f;
              from_file := from_file f; at_file := at_file f;
              locked := locked f; lock_type := lock_type f |} in
  if mem "in" found then
    d2 <- getitem data 2 ;;
    let f := {| raw := raw f; index := index f; addr := addr f;
                in_func := Some d2; args := args f;
                from_file := from_file f; at_file := at_file f;
                locked := locked f; lock_type := lock_type f |} in
    if mem "from" found then
      d3 <- getitem data 3 ;;
      ret {| raw := raw f; index := index f; addr := addr f;
             in_func := in_func f; args := args f;
             from_file := Some d3; at_file := at_file f;
             locked := locked f; lock_type := lock_type f |}
    else if mem "at" found then
      d3 <- getitem data 3 ;;
      ret {| raw := raw f; index := index f; addr := addr f;
             in_func := in_func f; args := args f;
             from_file := from_file f; at_file := Some d3;
             locked := locked f; lock_type := lock_type f |}
    else ret f
  else
    d2 <- getitem data 2 ;;
    ret {| raw := raw f; index := index f; addr := addr f;
           in_func := in_func f; args := args f;
           from_file := from_file f; at_file := Some d2;
           locked := locked f; lock_type := lock_type f |}.

(** The classification at the end of [parse]. *)
Definition classify (f : t) : t :=
  if Py.truthy (in_func f) then
    match in_func f with
    | Some fn =>
        let mark k :=
          {| raw := raw f; index := index f; addr := addr f;
             in_func := in_func f; args := args f;
             from_file := from_file f; at_file := at_file f;
             locked := true; lock_type := Some k |} in
        if Py.contains "pthread_mutex_lock" fn then mark pthread_mutex_t
        else if Py.contains "pthread_rwlock" fn then mark pthread_rwlock_t
        else f
    | None => f
    end
  else f.

(** [Frame(thread, data)]: the frame, and the value [parse_locked_state]
    stored in the thread's [lock_owner_lwp] if it stored one. *)
Definition parse (thread_index : Z) (data : string)
  : M (t * option string) :=
  let f := init data in
  let (found, pattern) := keywords data in
  match Re.rmatch pattern data with
  | None =>
      print (Did_not_match_the_pattern data pattern) ;;;
      ret (f, None)
  | Some groups =>
      f <- assign_fields f found groups ;;
      let f := classify f in
      if locked f then
        o <- parse_locked_state thread_index f ;;
        ret (f, o)
      else ret (f, None)
  end.

End WithSession.
End Frame.

(** ** class Thread *)

Module Thread.

Record t : Type := mk {
  name : option string;
  index : Z;
  addr : string;
  lwp : string;
  frames : list Frame.t;
  locked : bool;
  locked_index : option Z;
  lock_func : option string;
  lock_owner_lwp : option string
}.

Definition set_name (n : string) (th : t) : t :=
  {| name := Some n; index := index th; addr := addr th; lwp := lwp th;
     frames := frames th; locked := locked th;
     locked_index := locked_index th; lock_func := lock_func th;
     lock_owner_lwp := lock_owner_lwp th |}.

Definition set_lock_owner_lwp (o : string) (th : t) : t :=
  {| name := name th; index := index th; addr := addr th; lwp := lwp th;
     frames := frames th; locked := locked th;
     locked_index := locked_index th; lock_func := lock_func th;
     lock_owner_lwp := Some o |}.

Definition set_lock_func (fn : option string) (th : t) : t :=
  {| name := name th; index := index th; addr := addr th; lwp := lwp th;
     frames := frames th; locked := locked th;
     locked_index := locked_index th; lock_func := fn;
     lock_owner_lwp := lock_owner_lwp th |}.

Definition set_locked (i : Z) (th : t) : t :=
  {| name := name th; index := index th; addr := addr th; lwp := lwp th;
     frames := frames th; locked := true;
     locked_index := Some i; lock_func := lock_func th;
     lock_owner_lwp := lock_owner_lwp th |}.

Definition append_frame (f : Frame.t) (th : t) : t :=
  {| name := name th; index := index th; addr := addr th; lwp := lwp th;
     frames := (frames th ++ [f])%list; locked := locked th;
     locked_index := locked_index th; lock_func := lock_func th;
     lock_owner_lwp := lock_owner_lwp th |}.

(** [Thread.__init__] *)
Definition init (index addr lwp : string) : M t :=
  i <- int index ;;
  ret {| name := None; index := i; addr := addr; lwp := lwp; frames := [];
         locked := false; locked_index := None; lock_func := None;
         lock_owner_lwp := None |}.

(** [readable] *)
Definition readable (th : t) : string :=
  let data := "Thread #" ++ Py.str_of_int (index th) in
  match name th with
  | Some n => if Py.truthy (Some n) then data ++ " " ++ n else data
  | None => data
  end.

(** [print_backtrace] *)
Definition print_backtrace (th : t) : M unit :=
  (Backtrace_of (readable th) :: map (fun f => Raw_frame (Frame.raw f))
                                     (frames th),
   Returns tt).

(** [add_frame]: the thread after the call, and the [num_locked] counter of
    the [GDB] object, which the method increments. *)
Definition add_frame (get_output : session) (self : t) (num_locked : Z)
  (line : string) : M (t * Z) :=
  fo <- Frame.parse get_output (index self) line ;;
  let frame := fst fo in
  let self := match snd fo with
              | Some o => set_lock_owner_lwp o self
              | None => self
              end in
  (if Frame.index frame =? -1
   then print (Skipping_invalid_frame line) else ret tt) ;;;
  let sn := if Frame.locked frame
            then (set_locked (Frame.index frame) self, num_locked + 1)
            else (self, num_locked) in
  ret (append_frame frame (fst sn), snd sn).

End Thread.

(** ** class GDB *)

Module GDB.

(** [binary] and [pid] only serve to build the gdb command line, which is
    behind [get_output].  An entry of [deadlock_threads] holds the two
    threads as they are when [find_deadlock] runs; no attribute of a thread
    is assigned after that. *)
Record t : Type := mk {
  threads : list Thread.t;
  num_locked : Z;
  deadlock_threads : list (Thread.t * Thread.t)
}.

Definition init : t :=
  {| threads := []; num_locked := 0; deadlock_threads := [] |}.

Definition with_threads (ths : list Thread.t) (g : t) : t :=
  {| threads := ths; num_locked := num_locked g;
     deadlock_threads := deadlock_threads g |}.

Definition has_lwp (l : option string) (th : Thread.t) : bool :=
  match l with
  | Some l => (Thread.lwp th =? l)%string
  | None => false
  end.

(** The loop of [thread_by_lwp]: the first thread whose [lwp] is equal to
    the argument.  The argument may be [None], which no [lwp] equals. *)
Definition lookup (ths : list Thread.t) (l : option string)
  : option Thread.t := List.find (has_lwp l) ths.

Definition thread_by_lwp (g : t) (l : option string) : M (option Thread.t) :=
  match lookup (threads g) l with
  | Some th => ret (Some th)
  | None =>
      print (Did_not_find l (map Thread.lwp (threads g))) ;;;
      ret None
  end.

(** Assignment to an attribute of the object [thread_by_lwp] answered: the
    first thread of the list with that [lwp] changes, in place. *)
Fixpoint update_first (p : Thread.t -> bool) (f : Thread.t -> Thread.t)
  (ths : list Thread.t) : list Thread.t :=
  match ths with
  | [] => []
  | th :: rest => if p th then f th :: rest else th :: update_first p f rest
  end.

Definition set_thread_name (g : t) (l n : string) : M t :=
  th <- thread_by_lwp g (Some l) ;;
  match th with
  | Some _ =>
      ret (with_threads
             (update_first (has_lwp (Some l)) (Thread.set_name n) (threads g))
             g)
  | None =>
      print (No_thread_found_with_lwp l) ;;;
      print (Threads_are (map Thread.lwp (threads g))) ;;;
      ret g
  end.

(** [frame.index > th.locked_index]; in Python 2 [None] is below every
    integer. *)
Definition index_gt (i : Z) (locked_index : option Z) : bool :=
  match locked_index with
  | Some j => j <? i
  | None => true
  end.

(** The inner loop of [set_locks], which leaves at its [break]. *)
Fixpoint caller_of_lock (locked_index : option Z) (frames : list Frame.t)
  : option string :=
  match frames with
  | [] => None
  | frame :: rest =>
      if index_gt (Frame.index frame) locked_index then
        if Py.truthy (Frame.at_file frame) && Py.truthy (Frame.in_func frame)
        then Frame.in_func frame
        else caller_of_lock locked_index rest
      else caller_of_lock locked_index rest
  end.

Definition set_lock (th : Thread.t) : Thread.t :=
  if Thread.locked th
  then Thread.set_lock_func
         (caller_of_lock (Thread.locked_index th) (Thread.frames th)) th
  else th.

Definition set_locks (g : t) : t := with_threads (map set_lock (threads g)) g.

(** [for x in l: s = body(x, s)] *)
Fixpoint for_each {A S} (l : list A) (body : A -> S -> M S) (s : S) : M S :=
  match l with
  | [] => ret s
  | x :: rest => s' <- body x s ;; for_each rest body s'
  end.

Definition mutual (th owner : Thread.t) : bool :=
  Thread.locked owner
  && Py.truthy (Thread.lock_owner_lwp owner)
  && has_lwp (Thread.lock_owner_lwp owner) th.

Definition add_deadlock (d : Thread.t * Thread.t) (g : t) : t :=
  {| threads := threads g; num_locked := num_locked g;
     deadlock_threads := (deadlock_threads g ++ [d])%list |}.

(** The body of the loop of [find_deadlock]. *)
Definition check_thread (th : Thread.t) (g : t) : M t :=
  if Thread.locked th then
    owner <- thread_by_lwp g (Thread.lock_owner_lwp th) ;;
    match owner with
    | Some owner =>
        if mutual th owner then ret (add_deadlock (th, owner) g) else ret g
    | None => ret g
    end
  else ret g.

Definition find_deadlock (g : t) : M t :=
  for_each (threads g) check_thread g.

Definition thread_pattern : Re.regex :=
  [Re.Lit "Thread "; Re.Group "" Re.digit; Re.Lit " (Thread ";
   Re.Group "0x" Re.hexlower; Re.Lit " (LWP "; Re.Group "" Re.digit;
   Re.Lit "))"].

Definition name_pattern : Re.regex :=
  [Re.Lit "(LWP "; Re.Group "" Re.digit; Re.Lit (") " ++ String Py.dquote "");
   Re.Group "" Re.word; Re.Lit (String Py.dquote "")].

Fixpoint set_nth {A} (i : nat) (x : A) (l : list A) : list A :=
  match l, i with
  | [], _ => []
  | _ :: r, O => x :: r
  | y :: r, S i => y :: set_nth i x r
  end.

Section WithSession.
Variable get_output : session.

(** [thread.add_frame(line)] on the thread object at position [i] of
    [self.threads]; the loop only holds positions of threads it appended. *)
Definition add_frame_at (g : t) (i : nat) (line : string) : M t :=
  match nth_error (threads g) i with
  | None => ret g
  | Some th =>
      r <- Thread.add_frame get_output th (num_locked g) line ;;
      ret {| threads := set_nth i (fst r) (threads g);
             num_locked := snd r;
             deadlock_threads := deadlock_threads g |}
  end.

(** The first loop of [parse_thread_state].  The variable [thread] refers to
    an object that is also in [self.threads]; it is kept as the position of
    that object in the list. *)
Fixpoint parse_backtrace (lines : list string) (g : t) (thread : option nat)
  : M t :=
  match lines with
  | [] => ret g
  | line :: rest =>
      match thread with
      | Some i =>
          match line with
          | EmptyString => parse_backtrace rest g None
          | String c _ =>
              if negb (c =? "#")%char then
                print (Skipping_invalid_frame line) ;;;
                parse_backtrace rest g thread
              else
                g' <- add_frame_at g i line ;;
                parse_backtrace rest g' thread
          end
      | None =>
          if Py.find line "Thread " =? 0 then
            match Re.rmatch thread_pattern line with
            | None =>
                print (No_match_for_thread line) ;;;
                parse_backtrace rest g thread
            | Some data =>
                d0 <- getitem data 0 ;;
                d1 <- getitem data 1 ;;
                d2 <- getitem data 2 ;;
                th <- Thread.init d0 d1 d2 ;;
                parse_backtrace rest
                  (with_threads (threads g ++ [th])%list g)
                  (Some (List.length (threads g)))
            end
          else parse_backtrace rest g thread
      end
  end.

(** The body of the second loop of [parse_thread_state]. *)
Definition name_line (line : string) (g : t) : M t :=
  match Re.rsearch name_pattern line with
  | Some groups =>
      l <- getitem groups 0 ;;
      n <- getitem groups 1 ;;
      set_thread_name g l n
  | None => ret g
  end.

Definition parse_thread_state (g : t) : M t :=
  g <- parse_backtrace
         (Py.split_on Py.nl (get_output ["thread apply all bt"])) g None ;;
  g <- for_each (Py.split_on Py.nl (get_output ["info threads"]))
         name_line g ;;
  find_deadlock (set_locks g).

End WithSession.

(** [[int(x, 10) for x in only_show]] *)
Fixpoint ints_of (l : list string) : M (list Z) :=
  match l with
  | [] => ret []
  | x :: rest => n <- int x ;; ns <- ints_of rest ;; ret (n :: ns)
  end.

Definition only_show_ints (only_show : option (list string)) : M (list Z) :=
  match only_show with
  | Some l => ints_of l
  | None => raise TypeError
  end.

Definition empty_filter (only_show : option (list string)) : bool :=
  match only_show with
  | Some (_ :: _) => false
  | _ => true
  end.

Definition name_selected (th : Thread.t) (only_show : option (list string))
  : bool :=
  match Thread.name th, only_show with
  | Some n, Some l => Py.truthy (Some n) && Frame.mem n l
  | _, _ => false
  end.

(** The body of the filter loop of [print_status]; [acc] is the local list
    [threads]. *)
Definition select (only_show : option (list string)) (th : Thread.t)
  (acc : list Thread.t) : M (list Thread.t) :=
  if negb (Thread.locked th) then ret acc
  else
    let acc := if empty_filter only_show then (acc ++ [th])%list else acc in
    ns <- only_show_ints only_show ;;
    let acc := if existsb (Z.eqb (Thread.index th)) ns
               then (acc ++ [th])%list else acc in
    let acc := if name_selected th only_show
               then (acc ++ [th])%list else acc in
    ret acc.

(** The body of the report loop of [print_status]. *)
Definition report (g : t) (show_bt : bool) (th : Thread.t) (u : unit)
  : M unit :=
  owner <- thread_by_lwp g (Thread.lock_owner_lwp th) ;;
  match owner with
  | None => print (No_owner_for (Thread.readable th))
  | Some owner =>
      (if show_bt then print Rule_of_80 else ret tt) ;;;
      print (Is_waiting_for_a_lock (Thread.readable th) (Thread.lock_func th)
               (Thread.readable owner)) ;;;
      if show_bt
      then Thread.print_backtrace th ;;; Thread.print_backtrace owner
      else ret tt
  end.

Definition report_deadlock (dl : Thread.t * Thread.t) (u : unit) : M unit :=
  print (Deadlock_between (Thread.readable (fst dl))
           (Thread.readable (snd dl))).

Definition print_status (g : t) (show_bt : bool)
  (only_show : option (list string)) : M unit :=
  if num_locked g =? 0 then print There_are_no_locked_threads
  else
    selected <- for_each (threads g) (select only_show) [] ;;
    for_each selected (report g show_bt) tt ;;;
    for_each (deadlock_threads g) report_deadlock tt.

End GDB.

(** [ap_detector]: the whole run, for the command-line flags [-b] and [-t]. *)
Definition ap_detector (get_output : session) (back_trace : bool)
  (thread : list string) : M unit :=
  g <- GDB.parse_thread_state get_output GDB.init ;;
  GDB.print_status g back_trace (Some thread).

(** * Vocabulary of the statements *)

(** The pairs the loop of [find_deadlock] appends while it visits [ths],
    the thread list of the snapshot being [all]. *)
Definition pair_of (all : list Thread.t) (th : Thread.t)
  : list (Thread.t * Thread.t) :=
  if Thread.locked th then
    match GDB.lookup all (Thread.lock_owner_lwp th) with
    | Some owner => if GDB.mutual th owner then [(th, owner)] else []
    | None => []
    end
  else [].

Definition pairs_of (all ths : list Thread.t) : list (Thread.t * Thread.t) :=
  flat_map (pair_of all) ths.

Definition add_deadlocks (ds : list (Thread.t * Thread.t)) (g : GDB.t)
  : GDB.t :=
  {| GDB.threads := GDB.threads g; GDB.num_locked := GDB.num_locked g;
     GDB.deadlock_threads := (GDB.deadlock_threads g ++ ds)%list |}.

(** [a] is blocked and the owner it resolved is the LWP of [b]. *)
Definition waits_for (a b : Thread.t) : Prop :=
  Thread.locked a = true /\ Thread.lock_owner_lwp a = Some (Thread.lwp b).

(** The threads of [cyc], in this order, each wait for the next one, and the
    last one waits for the first. *)
Definition ring (cyc : list Thread.t) : Prop :=
  forall i, (i < List.length cyc)%nat ->
    exists a b, nth_error cyc i = Some a
             /\ nth_error cyc (S i mod List.length cyc) = Some b
             /\ waits_for a b.

(** The wait graph over LWPs: a blocked thread of the snapshot with LWP [a]
    resolved the owner [b], and [b] is the LWP of a thread of the snapshot. *)
Definition wait_edge (g : GDB.t) (a b : string) : Prop :=
  exists th, In th (GDB.threads g) /\ Thread.locked th = true
          /\ Thread.lwp th = a /\ Thread.lock_owner_lwp th = Some b
          /\ GDB.lookup (GDB.threads g) (Some b) <> None.

Definition acyclic (g : GDB.t) : Prop :=
  forall a, ~ clos_trans string (wait_edge g) a a.

(** The line [print_status] prints for one entry of the deadlock list. *)
Definition deadlock_line (d : Thread.t * Thread.t) : output :=
  Deadlock_between (Thread.readable (fst d)) (Thread.readable (snd d)).

(** "Exactly one DeadlockCycle containing the threads of [cyc]": the
    deadlock list has a single entry and every thread of [cyc] is in it. *)
Definition reported_once (g : GDB.t) (cyc : list Thread.t) : Prop :=
  exists d, GDB.deadlock_threads g = [d]
            /\ forall th, In th cyc -> th = fst d \/ th = snd d.


(** ** Scripted sessions

    A session that answers each batch of commands with a fixed text, and
    with nothing when the batch is not in the script. *)

Fixpoint same_batch (a b : list string) : bool :=
  match a, b with
  | [], [] => true
  | x :: a', y :: b' => (x =? y)%string && same_batch a' b'
  | _, _ => false
  end.

Definition scripted (script : list (list string * string)) : session :=
  fun cmds =>
    match List.find (fun e => same_batch cmds (fst e)) script with
    | Some e => snd e
    | None => ""
    end.

Definition text (l : list string) : string :=
  String.concat (String Py.nl "") l.

Definition quoted (s : string) : string :=
  String Py.dquote s ++ String Py.dquote "".

Module Scenario.

(** The register dump gdb prints for a thread inside [pthread_mutex_lock],
    with the address of the mutex in the register after the anchor. *)
Definition registers (mutex dec : string) : string :=
  text ["=======";
        "rax            0xfffffffffffffe00  -512";
        "rbx            0x80                128";
        "rcx            " ++ mutex ++ "            " ++ dec;
        "rdx            0x0                 0"].

Definition mutex_dump (owner : string) : string :=
  "$1 = {__data = {__lock = 2, __count = 0, __owner = " ++ owner
  ++ ", __nusers = 1, __kind = 0}, __align = 2}".

(** Scenario A: thread 1 (LWP 101) and thread 2 (LWP 102) each wait for a
    mutex the other one owns. *)
Definition A : session := scripted [
  (["thread apply all bt"], text [
     "";
     "Thread 2 (Thread 0x7f02 (LWP 102)):";
     "#0  0x00007f31 in __lll_lock_wait () from /lib/libpthread.so.0";
     "#1  0x00007f32 in pthread_mutex_lock () from /lib/libpthread.so.0";
     "#2  0x00000040 in second (arg=0x0) at dl.c:20";
     "";
     "Thread 1 (Thread 0x7f01 (LWP 101)):";
     "#0  0x00007f31 in __lll_lock_wait () from /lib/libpthread.so.0";
     "#1  0x00007f32 in pthread_mutex_lock () from /lib/libpthread.so.0";
     "#2  0x00000041 in first (arg=0x0) at dl.c:10";
     ""]);
  (["info threads"], text [
     "  Id   Target Id         Frame";
     "* 1    Thread 0x7f01 (LWP 101) " ++ quoted "alpha"
       ++ " 0x00007f31 in __lll_lock_wait ()";
     "  2    Thread 0x7f02 (LWP 102) " ++ quoted "beta"
       ++ " 0x00007f31 in __lll_lock_wait ()"]);
  (Frame.registers_query 1 1, registers "0x601080" "6295680");
  (Frame.registers_query 2 1, registers "0x6010c0" "6295744");
  (Frame.mutex_query "0x601080", mutex_dump "102");
  (Frame.mutex_query "0x6010c0", mutex_dump "101")].

(** Scenario B: thread 1 waits for thread 2, thread 2 for thread 3 and
    thread 3 for thread 1. *)
Definition B : session := scripted [
  (["thread apply all bt"], text [
     "";
     "Thread 3 (Thread 0x7f03 (LWP 103)):";
     "#0  0x00007f31 in __lll_lock_wait () from /lib/libpthread.so.0";
     "#1  0x00007f32 in pthread_mutex_lock () from /lib/libpthread.so.0";
     "#2  0x00000042 in third (arg=0x0) at dl.c:30";
     "";
     "Thread 2 (Thread 0x7f02 (LWP 102)):";
     "#0  0x00007f31 in __lll_lock_wait () from /lib/libpthread.so.0";
     "#1  0x00007f32 in pthread_mutex_lock () from /lib/libpthread.so.0";
     "#2  0x00000040 in second (arg=0x0) at dl.c:20";
     "";
     "Thread 1 (Thread 0x7f01 (LWP 101)):";
     "#0  0x00007f31 in __lll_lock_wait () from /lib/libpthread.so.0";
     "#1  0x00007f32 in pthread_mutex_lock () from /lib/libpthread.so.0";
     "#2  0x00000041 in first (arg=0x0) at dl.c:10";
     ""]);
  (["info threads"], text [
     "  Id   Target Id         Frame";
     "* 1    Thread 0x7f01 (LWP 101) " ++ quoted "alpha"
       ++ " 0x00007f31 in __lll_lock_wait ()";
     "  2    Thread 0x7f02 (LWP 102) " ++ quoted "beta"
       ++ " 0x00007f31 in __lll_lock_wait ()";
     "  3    Thread 0x7f03 (LWP 103) " ++ quoted "gamma"
       ++ " 0x00007f31 in __lll_lock_wait ()"]);
  (Frame.registers_query 1 1, registers "0x601080" "6295680");
  (Frame.registers_query 2 1, registers "0x6010c0" "6295744");
  (Frame.registers_query 3 1, registers "0x601100" "6295808");
  (Frame.mutex_query "0x601080", mutex_dump "102");
  (Frame.mutex_query "0x6010c0", mutex_dump "103");
  (Frame.mutex_query "0x601100", mutex_dump "101")].

(** Scenario C: thread 1 waits for a mutex whose owner field, 999, is the
    LWP of no thread of the dump; thread 2 is not blocked. *)
Definition C : session := scripted [
  (["thread apply all bt"], text [
     "";
     "Thread 2 (Thread 0x7f02 (LWP 102)):";
     "#0  0x00007f40 in nanosleep () from /lib/libc.so.6";
     "#1  0x00000040 in second (arg=0x0) at dl.c:20";
     "";
     "Thread 1 (Thread 0x7f01 (LWP 101)):";
     "#0  0x00007f31 in __lll_lock_wait () from /lib/libpthread.so.0";
     "#1  0x00007f32 in pthread_mutex_lock () from /lib/libpthread.so.0";
     "#2  0x00000041 in first (arg=0x0) at dl.c:10";
     ""]);
  (["info threads"], text [
     "  Id   Target Id         Frame";
     "* 1    Thread 0x7f01 (LWP 101) " ++ quoted "alpha"
       ++ " 0x00007f31 in __lll_lock_wait ()";
     "  2    Thread 0x7f02 (LWP 102) " ++ quoted "beta"
       ++ " 0x00007f40 in nanosleep ()"]);
  (Frame.registers_query 1 1, registers "0x601080" "6295680");
  (Frame.mutex_query "0x601080", mutex_dump "999")].

(** A thread interrupted by a signal handler: gdb marks the handler frame
    with a line that has none of the keywords in, from, at. *)
Definition signal_frame : session := scripted [
  (["thread apply all bt"], text [
     "";
     "Thread 1 (Thread 0x7f01 (LWP 101)):";
     "#0  0x00007f40 in nanosleep () from /lib/libc.so.6";
     "#1  <signal handler called>";
     "#2  0x00000041 in first (arg=0x0) at dl.c:10";
     ""]);
  (["info threads"], text [
     "  Id   Target Id         Frame";
     "* 1    Thread 0x7f01 (LWP 101) " ++ quoted "alpha"
       ++ " 0x00007f40 in nanosleep ()"])].

(** One blocked thread whose stack has two frames with [pthread_mutex_lock]
    in the function name: the call of the program's own wrapper and the call
    into the library. *)
Definition wrapped_lock : session := scripted [
  (["thread apply all bt"], text [
     "";
     "Thread 2 (Thread 0x7f02 (LWP 102)):";
     "#0  0x00007f40 in nanosleep () from /lib/libc.so.6";
     "#1  0x00000040 in second (arg=0x0) at dl.c:20";
     "";
     "Thread 1 (Thread 0x7f01 (LWP 101)):";
     "#0  0x00007f31 in __lll_lock_wait () from /lib/libpthread.so.0";
     "#1  0x00007f32 in pthread_mutex_lock () from /lib/libpthread.so.0";
     "#2  0x00000045 in checked_pthread_mutex_lock (m=0x601080) at lock.c:7";
     "#3  0x00000041 in first (arg=0x0) at dl.c:10";
     ""]);
  (["info threads"], text [
     "  Id   Target Id         Frame";
     "* 1    Thread 0x7f01 (LWP 101) " ++ quoted "alpha"
       ++ " 0x00007f31 in __lll_lock_wait ()";
     "  2    Thread 0x7f02 (LWP 102) " ++ quoted "beta"
       ++ " 0x00007f40 in nanosleep ()"]);
  (Frame.registers_query 1 1, registers "0x601080" "6295680");
  (Frame.mutex_query "0x601080", mutex_dump "102")].

(** A blocked thread that reached [pthread_mutex_lock] through a library
    function without source information. *)
Definition through_library : session := scripted [
  (["thread apply all bt"], text [
     "";
     "Thread 2 (Thread 0x7f02 (LWP 102)):";
     "#0  0x00007f40 in nanosleep () from /lib/libc.so.6";
     "#1  0x00000040 in second (arg=0x0) at dl.c:20";
     "";
     "Thread 1 (Thread 0x7f01 (LWP 101)):";
     "#0  0x00007f31 in __lll_lock_wait () from /lib/libpthread.so.0";
     "#1  0x00007f32 in pthread_mutex_lock () from /lib/libpthread.so.0";
     "#2  0x00007f50 in g_mutex_lock () from /usr/lib/libglib-2.0.so.0";
     "#3  0x00000041 in first (arg=0x0) at dl.c:10";
     ""]);
  (["info threads"], text [
     "  Id   Target Id         Frame";
     "* 1    Thread 0x7f01 (LWP 101) " ++ quoted "alpha"
       ++ " 0x00007f31 in __lll_lock_wait ()";
     "  2    Thread 0x7f02 (LWP 102) " ++ quoted "beta"
       ++ " 0x00007f40 in nanosleep ()"]);
  (Frame.registers_query 1 1, registers "0x601080" "6295680");
  (Frame.mutex_query "0x601080", mutex_dump "102")].

End Scenario.


(** The snapshot a run of [parse_thread_state] builds from scratch, or the
    empty snapshot when the run raises. *)
Definition snapshot_of (get_output : session) : GDB.t :=
  match result (GDB.parse_thread_state get_output GDB.init) with
  | Returns g => g
  | Raises _ => GDB.init
  end.

(** A blocked thread that resolved an owner, and a thread that is not
    blocked, as [parse_thread_state] leaves them (without their frames). *)
Definition blocked_thread (i : Z) (l owner : string) : Thread.t :=
  {| Thread.name := None; Thread.index := i; Thread.addr := "0x7f00";
     Thread.lwp := l; Thread.frames := []; Thread.locked := true;
     Thread.locked_index := Some 1; Thread.lock_func := None;
     Thread.lock_owner_lwp := Some owner |}.

Definition running_thread (i : Z) (l : string) : Thread.t :=
  {| Thread.name := None; Thread.index := i; Thread.addr := "0x7f00";
     Thread.lwp := l; Thread.frames := []; Thread.locked := false;
     Thread.locked_index := None; Thread.lock_func := None;
     Thread.lock_owner_lwp := None |}.

(** The state of the [GDB] object between [set_locks] and [find_deadlock]
    for the given threads. *)
Definition before_find_deadlock (ths : list Thread.t) : GDB.t :=
  {| GDB.threads := ths;
     GDB.num_locked := Z.of_nat (List.length (filter Thread.locked ths));
     GDB.deadlock_threads := [] |}.


(** The frames of a thread that [Frame.parse] marked as blocking. *)
Definition blocking_frames (th : Thread.t) : nat :=
  List.length (filter Frame.locked (Thread.frames th)).

Definition total_blocking_frames (g : GDB.t) : nat :=
  list_sum (map blocking_frames (GDB.threads g)).

(** The threads of a snapshot that are marked blocked. *)
Definition blocked_threads (g : GDB.t) : nat :=
  List.length (filter Thread.locked (GDB.threads g)).

(** The state of the counter and of the [locked] flags while the backtrace
    is read: the counter is the number of blocking frames added so far, and
    a thread is marked exactly when one of its frames is blocking. *)
Definition counted (g : GDB.t) : Prop :=
  GDB.num_locked g = Z.of_nat (total_blocking_frames g)
  /\ Forall (fun th => Thread.locked th
                       = negb (blocking_frames th =? 0)%nat) (GDB.threads g).


(** The test a frame passes in the loop of [set_locks] to give the thread
    its [lock_func]. *)
Definition names_caller (locked_index : option Z) (f : Frame.t) : bool :=
  GDB.index_gt (Frame.index f) locked_index
  && Py.truthy (Frame.at_file f) && Py.truthy (Frame.in_func f).

(** "The called-function name of the frame entered immediately after the
    blocking call": that of the first frame, in the order of the stack,
    whose index is above the index recorded for the blocking frame. *)
Definition entered_after_blocking_call (th : Thread.t) : option string :=
  match List.find (fun f => GDB.index_gt (Frame.index f)
                              (Thread.locked_index th))
          (Thread.frames th) with
  | Some f => Frame.in_func f
  | None => None
  end.

(** Lines of the register dump. *)
Definition starts_with_sep (line : string) : bool :=
  Py.find line Frame.sep =? 0.

Definition anchor_line (line : string) : bool :=
  match Py.split line with
  | [_; mem_addr; val] => Frame.is_anchor mem_addr val
  | _ => false
  end.

Definition other_triple (line : string) : bool :=
  match Py.split line with
  | [_; mem_addr; val] => negb (Frame.is_anchor mem_addr val)
  | _ => false
  end.

(** The address in the words of the specification of the register scan: after
    the separator line and after the anchor line, the second field of the
    first line that splits into exactly three fields. *)
Fixpoint after_separator (lines : list string) : list string :=
  match lines with
  | [] => []
  | l :: r => if starts_with_sep l then r else after_separator r
  end.

Fixpoint after_anchor (lines : list string) : list string :=
  match lines with
  | [] => []
  | l :: r => if anchor_line l then r else after_anchor r
  end.

Fixpoint first_triple_address (lines : list string) : option string :=
  match lines with
  | [] => None
  | l :: r =>
      match Py.split l with
      | [_; mem_addr; _] => Some mem_addr
      | _ => first_triple_address r
      end
  end.

Definition specified_address (lines : list string) : option string :=
  first_triple_address (after_anchor (after_separator lines)).


(** The frame of the call of [pthread_mutex_lock] in the scenarios, as
    [Frame.parse] classifies it. *)
Definition lock_call_frame : Frame.t :=
  {| Frame.raw :=
       "#1  0x00007f32 in pthread_mutex_lock () from /lib/libpthread.so.0";
     Frame.index := 1; Frame.addr := Some "0x00007f32";
     Frame.in_func := Some "pthread_mutex_lock"; Frame.args := None;
     Frame.from_file := Some "/lib/libpthread.so.0"; Frame.at_file := None;
     Frame.locked := true; Frame.lock_type := Some pthread_mutex_t |}.


(** ** The loops of the matcher, by name

    The two inner loops of [Re.rmatch], with the rest of the match as a
    parameter. *)

Section Loops.
Variable cont : string -> option (list string).
Variable k : Re.cls.

Fixpoint star_loop (s : string) : option (list string) :=
  match s with
  | String c s' =>
      if Re.in_cls k c
      then match star_loop s' with
           | Some gs => Some gs
           | None => cont s
           end
      else cont s
  | EmptyString => cont s
  end.

Variable pre : string.

Fixpoint group_loop (acc s : string) : option (list string) :=
  let stop := option_map (cons (pre ++ acc)) (cont s) in
  match s with
  | String c s' =>
      if Re.in_cls k c
      then match group_loop (acc ++ String c "") s' with
           | Some gs => Some gs
           | None => stop
           end
      else stop
  | EmptyString => stop
  end.

End Loops.

(** Every character of [s] is in the class. *)
Fixpoint all_in (k : Re.cls) (s : string) : bool :=
  match s with
  | EmptyString => true
  | String c s' => Re.in_cls k c && all_in k s'
  end.

(** The groups of a pattern, in order: literal prefix and class. *)
Fixpoint groups_of (r : Re.regex) : list (string * Re.cls) :=
  match r with
  | [] => []
  | Re.Group pre k :: r' => (pre, k) :: groups_of r'
  | _ :: r' => groups_of r'
  end.

(** What a group can capture. *)
Definition captured (pk : string * Re.cls) (g : string) : Prop :=
  exists body, g = fst pk ++ body /\ all_in (snd pk) body = true.


(** The longest run of decimal digits at the start of a string. *)
Fixpoint take_digits (s : string) : string :=
  match s with
  | String c s' => if Py.is_digit c then String c (take_digits s') else ""
  | EmptyString => ""
  end.

(** What follows the first occurrence of [p] in [s], if [p] occurs. *)
Fixpoint after_first (p s : string) : option string :=
  match Re.strip_prefix p s with
  | Some r => Some r
  | None =>
      match s with
      | String _ s' => after_first p s'
      | EmptyString => None
      end
  end.


(** ** The report and its filter *)

(** What the filter loop of [print_status] appends for one thread when the
    words of the filter convert to the integers [ns]: the thread once if its
    index is among them, and once more if its name is one of the words. *)
Definition selected_by (names : list string) (ns : list Z) (th : Thread.t)
  : list Thread.t :=
  if Thread.locked th then
    ((if existsb (Z.eqb (Thread.index th)) ns then [th] else [])
     ++ (if GDB.name_selected th (Some names) then [th] else []))%list
  else [].

(** A dump of one thread, which sleeps. *)
Definition idle : session := scripted [
  (["thread apply all bt"], text [
     "";
     "Thread 1 (Thread 0x7f01 (LWP 101)):";
     "#0  0x00007f40 in nanosleep () from /lib/libc.so.6";
     "#1  0x00000041 in first (arg=0x0) at dl.c:10";
     ""]);
  (["info threads"], text [
     "  Id   Target Id         Frame";
     "* 1    Thread 0x7f01 (LWP 101) " ++ quoted "alpha"
       ++ " 0x00007f40 in nanosleep ()"])].

(** ** The records of a thread *)

(** The index of the last frame of a stack that is marked as blocking. *)
Definition last_blocking_index (frames : list Frame.t) : option Z :=
  fold_left (fun acc f => if Frame.locked f then Some (Frame.index f) else acc)
    frames None.

(** The line starts with the frame marker. *)
Definition frame_line (line : string) : bool :=
  match line with
  | String c _ => (c =? "#")%char
  | EmptyString => false
  end.

(** The line starts a thread in the loop of [parse_thread_state]. *)
Definition header_line (line : string) : bool := Py.find line "Thread " =? 0.

(** The diagnostics [set_thread_name] and [thread_by_lwp] print when a name
    is given for an LWP that no thread has. *)
Definition naming_diagnostic (o : output) : bool :=
  match o with
  | Did_not_find _ _ | No_thread_found_with_lwp _ | Threads_are _ => true
  | _ => false
  end.


(** A decimal digit is the first character of the string. *)
Definition starts_with_digit (s : string) : bool :=
  match s with
  | String c _ => Py.is_digit c
  | EmptyString => false
  end.

(** The line has none of the keywords [Frame.parse] looks for. *)
Definition keywordless (raw : string) : bool :=
  (Py.find raw " in " <? 0) && (Py.find raw " from " <? 0)
  && (Py.find raw " at " <? 0).

(** The snapshot the first loop of [parse_thread_state] leaves when it is
    given these lines with the thread at position [i] current, or the
    snapshot it started from when the loop raises. *)
Definition after_lines (get_output : session) (lines : list string)
  (g : GDB.t) (i : nat) : GDB.t :=
  match result (GDB.parse_backtrace get_output lines g (Some i)) with
  | Returns g' => g'
  | Raises _ => g
  end.


(** * Properties *)

(** ** The monad *)

Lemma result_bind {A B} (m : M A) (f : A -> M B) :
  result (bind m f) =
  match result m with
  | Returns a => result (f a)
  | Raises e => Raises e
  end.
Proof.
  destruct m as [o [a|e]]; simpl; [destruct (f a); reflexivity | reflexivity].
Qed.

Lemma printed_bind {A B} (m : M A) (f : A -> M B) :
  printed (bind m f) =
  match result m with
  | Returns a => (printed m ++ printed (f a))%list
  | Raises e => printed m
  end.
Proof.
  destruct m as [o [a|e]]; simpl; [destruct (f a); reflexivity | reflexivity].
Qed.

(** ** Looking a thread up by its LWP *)

Lemma lookup_Some ths l b :
  GDB.lookup ths l = Some b -> In b ths /\ l = Some (Thread.lwp b).
Proof.
  unfold GDB.lookup. intros H. apply find_some in H. destruct H as [Hin Hp].
  split; [assumption|]. destruct l as [l|]; simpl in Hp; [|discriminate].
  apply String.eqb_eq in Hp. congruence.
Qed.

Lemma lookup_None ths l th :
  GDB.lookup ths l = None -> In th ths -> l <> Some (Thread.lwp th).
Proof.
  unfold GDB.lookup. intros H Hin Hl. subst l.
  apply (find_none _ _ H) in Hin. simpl in Hin.
  rewrite String.eqb_refl in Hin. discriminate.
Qed.

Lemma lookup_member ths th :
  In th ths -> GDB.lookup ths (Some (Thread.lwp th)) <> None.
Proof.
  intros Hin H. exact (lookup_None _ _ _ H Hin eq_refl).
Qed.

Lemma lwp_injective ths a b :
  NoDup (map Thread.lwp ths) -> In a ths -> In b ths ->
  Thread.lwp a = Thread.lwp b -> a = b.
Proof.
  induction ths as [|x r IH]; simpl; [tauto|].
  intros Hnd Ha Hb Heq. inversion Hnd as [|? ? Hx Hr]; subst.
  destruct Ha as [Ha|Ha], Hb as [Hb|Hb]; subst.
  - reflexivity.
  - exfalso. apply Hx. rewrite Heq. apply in_map. assumption.
  - exfalso. apply Hx. rewrite <- Heq. apply in_map. assumption.
  - apply IH; assumption.
Qed.

Lemma lookup_unique ths b :
  NoDup (map Thread.lwp ths) -> In b ths ->
  GDB.lookup ths (Some (Thread.lwp b)) = Some b.
Proof.
  intros Hnd Hin.
  destruct (GDB.lookup ths (Some (Thread.lwp b))) as [c|] eqn:E.
  - apply lookup_Some in E. destruct E as [Hc Hl]. inversion Hl.
    f_equal. symmetry. eapply lwp_injective; eauto.
  - exfalso. exact (lookup_member _ _ Hin E).
Qed.

(** ** What [find_deadlock] appends *)

Lemma add_deadlocks_nil g : add_deadlocks [] g = g.
Proof.
  destruct g; unfold add_deadlocks; simpl. rewrite app_nil_r. reflexivity.
Qed.

Lemma add_deadlocks_app d1 d2 g :
  add_deadlocks d2 (add_deadlocks d1 g) = add_deadlocks (d1 ++ d2)%list g.
Proof.
  unfold add_deadlocks; simpl. rewrite app_assoc. reflexivity.
Qed.

Lemma check_thread_result th g :
  result (GDB.check_thread th g)
  = Returns (add_deadlocks (pair_of (GDB.threads g) th) g).
Proof.
  unfold GDB.check_thread, pair_of, GDB.thread_by_lwp.
  destruct (Thread.locked th); simpl.
  - destruct (GDB.lookup (GDB.threads g) (Thread.lock_owner_lwp th))
      as [ow|]; simpl.
    + destruct (GDB.mutual th ow); simpl;
        [reflexivity | rewrite add_deadlocks_nil; reflexivity].
    + rewrite add_deadlocks_nil; reflexivity.
  - rewrite add_deadlocks_nil; reflexivity.
Qed.

Lemma check_threads_result ths g :
  result (GDB.for_each ths GDB.check_thread g)
  = Returns (add_deadlocks (pairs_of (GDB.threads g) ths) g).
Proof.
  revert g. induction ths as [|th r IH]; intros g; simpl.
  - rewrite add_deadlocks_nil. reflexivity.
  - rewrite result_bind, check_thread_result, IH. simpl.
    rewrite add_deadlocks_app. reflexivity.
Qed.

Lemma find_deadlock_result g :
  result (GDB.find_deadlock g)
  = Returns (add_deadlocks (pairs_of (GDB.threads g) (GDB.threads g)) g).
Proof. apply check_threads_result. Qed.

Lemma in_pairs_of all ths a b :
  In (a, b) (pairs_of all ths) <->
  In a ths /\ Thread.locked a = true
  /\ GDB.lookup all (Thread.lock_owner_lwp a) = Some b
  /\ GDB.mutual a b = true.
Proof.
  unfold pairs_of. rewrite in_flat_map. split.
  - intros [th [Hin Hp]]. unfold pair_of in Hp.
    destruct (Thread.locked th) eqn:Hl; [|destruct Hp].
    destruct (GDB.lookup all (Thread.lock_owner_lwp th)) as [ow|] eqn:Ho;
      [|destruct Hp].
    destruct (GDB.mutual th ow) eqn:Hm; [|destruct Hp].
    destruct Hp as [Hp|[]]. inversion Hp; subst. auto.
  - intros (Hin & Hl & Ho & Hm). exists a. split; [assumption|].
    unfold pair_of. rewrite Hl, Ho, Hm. left; reflexivity.
Qed.

(** A reported pair waits in both directions. *)
Lemma mutual_spec a b :
  GDB.mutual a b = true ->
  Thread.locked b = true /\ Thread.lock_owner_lwp b = Some (Thread.lwp a)
  /\ Thread.lwp a <> "".
Proof.
  unfold GDB.mutual. intros H.
  apply andb_true_iff in H. destruct H as [H H3].
  apply andb_true_iff in H. destruct H as [H1 H2].
  destruct (Thread.lock_owner_lwp b) as [l|]; simpl in *; [|discriminate].
  apply String.eqb_eq in H3. subst l. repeat split; auto.
  intros E. rewrite E in H2. discriminate.
Qed.

(** ** Acyclic wait graphs *)

Lemma reported_pair_is_two_cycle g a b :
  In (a, b) (pairs_of (GDB.threads g) (GDB.threads g)) ->
  wait_edge g (Thread.lwp a) (Thread.lwp b)
  /\ wait_edge g (Thread.lwp b) (Thread.lwp a).
Proof.
  intros H. apply in_pairs_of in H. destruct H as (Ha & Hl & Ho & Hm).
  apply lookup_Some in Ho. destruct Ho as [Hb Ho].
  apply mutual_spec in Hm. destruct Hm as (Hlb & Hob & _).
  split.
  - exists a. repeat split; auto. apply lookup_member; assumption.
  - exists b. repeat split; auto. apply lookup_member; assumption.
Qed.

Lemma no_element_nil {A} (l : list A) : (forall x, ~ In x l) -> l = [].
Proof.
  destruct l as [|x r]; [reflexivity|]. intros H. destruct (H x). left.
  reflexivity.
Qed.

(** C7. When the wait graph of a snapshot has no cycle, [find_deadlock]
    returns and leaves the deadlock list empty. *)
Theorem acyclic_no_deadlock (g : GDB.t) :
  acyclic g -> GDB.deadlock_threads g = [] ->
  exists g', result (GDB.find_deadlock g) = Returns g'
             /\ GDB.deadlock_threads g' = [].
Proof.
  intros Hac Hnil. rewrite find_deadlock_result.
  eexists; split; [reflexivity|]. simpl. rewrite Hnil. simpl.
  apply no_element_nil. intros [a b] Hin.
  apply reported_pair_is_two_cycle in Hin. destruct Hin as [H1 H2].
  apply (Hac (Thread.lwp a)).
  eapply t_trans; apply t_step; eassumption.
Qed.

(** An order on LWPs that every edge descends rules cycles out. *)
Lemma ranked_acyclic g (rank : string -> nat) :
  (forall a b, wait_edge g a b -> (rank b < rank a)%nat) -> acyclic g.
Proof.
  intros Hr.
  assert (forall a b, clos_trans string (wait_edge g) a b ->
                      (rank b < rank a)%nat) as Ht.
  { induction 1 as [a b H|a b c _ IH1 _ IH2]; [auto | lia]. }
  intros a Hc. apply Ht in Hc. lia.
Qed.

(** ** Rings of waiting threads *)

Lemma ring_successor cyc a :
  ring cyc -> In a cyc ->
  exists i b, (i < List.length cyc)%nat /\ nth_error cyc i = Some a
           /\ nth_error cyc (S i mod List.length cyc) = Some b
           /\ waits_for a b.
Proof.
  intros Hr Ha. apply In_nth_error in Ha. destruct Ha as [i Hi].
  assert (i < List.length cyc)%nat as Hlt.
  { apply nth_error_Some. congruence. }
  destruct (Hr i Hlt) as (a' & b & H1 & H2 & H3).
  rewrite Hi in H1. inversion H1; subst a'. exists i, b. auto.
Qed.

Lemma step_twice_moves (k i : nat) :
  (3 <= k)%nat -> (i < k)%nat -> (S (S i mod k) mod k)%nat <> i.
Proof.
  intros Hk Hi.
  destruct (Nat.eq_dec (S i) k) as [E|E].
  - rewrite E, Nat.Div0.mod_same. rewrite Nat.mod_small by lia. lia.
  - rewrite (Nat.mod_small (S i)) by lia.
    destruct (Nat.eq_dec (S (S i)) k) as [E'|E'].
    + rewrite E', Nat.Div0.mod_same. lia.
    + rewrite Nat.mod_small by lia. lia.
Qed.

(** In a ring of three or more distinct threads nobody is waited for by the
    thread it waits for, so no pair passes the test of [find_deadlock]. *)
Lemma long_ring_no_pair g cyc a b :
  NoDup (map Thread.lwp (GDB.threads g)) -> NoDup cyc ->
  incl cyc (GDB.threads g) -> ring cyc -> (3 <= List.length cyc)%nat ->
  In a cyc ->
  ~ In (a, b) (pairs_of (GDB.threads g) (GDB.threads g)).
Proof.
  intros Hu Hnd Hincl Hr Hk Ha Hin.
  apply in_pairs_of in Hin. destruct Hin as (_ & _ & Ho & Hm).
  apply lookup_Some in Ho. destruct Ho as [Hb Ho].
  apply mutual_spec in Hm. destruct Hm as (_ & Hob & _).
  destruct (ring_successor cyc a Hr Ha) as (i & b' & Hi & Hia & Hib & Hw).
  destruct Hw as [_ Hw]. rewrite Hw in Ho. inversion Ho as [Hlwp].
  assert (In b' cyc) as Hb' by (eapply nth_error_In; eauto).
  assert (b' = b) by (eapply lwp_injective; eauto). subst b'.
  destruct (ring_successor cyc b Hr Hb') as (j & c & Hj & Hjb & Hjc & Hw').
  destruct Hw' as [_ Hw']. rewrite Hw' in Hob. inversion Hob as [Hlc].
  assert (In c cyc) as Hc by (eapply nth_error_In; eauto).
  assert (c = a) by (eapply lwp_injective; eauto). subst c.
  assert (j = (S i mod List.length cyc)%nat) as Ej.
  { apply (proj1 (NoDup_nth_error cyc) Hnd); [assumption | congruence]. }
  assert (i = (S j mod List.length cyc)%nat) as Ei.
  { apply (proj1 (NoDup_nth_error cyc) Hnd); [assumption | congruence]. }
  subst j. symmetry in Ei. revert Ei. apply step_twice_moves; assumption.
Qed.

(** ** Two threads waiting for each other *)

Lemma pairs_of_app all l1 l2 :
  pairs_of all (l1 ++ l2) = (pairs_of all l1 ++ pairs_of all l2)%list.
Proof. apply flat_map_app. Qed.

Lemma pairs_of_cons all th l :
  pairs_of all (th :: l) = (pair_of all th ++ pairs_of all l)%list.
Proof. reflexivity. Qed.

Lemma pairs_of_unlocked all ths :
  (forall th, In th ths -> Thread.locked th = false) -> pairs_of all ths = [].
Proof.
  induction ths as [|th r IH]; intros H; [reflexivity|].
  rewrite pairs_of_cons, IH by (intros; apply H; right; assumption).
  unfold pair_of. rewrite (H th) by (left; reflexivity). reflexivity.
Qed.

Lemma pair_of_mutual all a b :
  NoDup (map Thread.lwp all) -> In b all ->
  waits_for a b -> waits_for b a -> Thread.lwp a <> "" ->
  pair_of all a = [(a, b)].
Proof.
  intros Hu Hb [Hla Hoa] [Hlb Hob] Hne. unfold pair_of.
  rewrite Hla, Hoa, (lookup_unique all b Hu Hb).
  unfold GDB.mutual. rewrite Hlb, Hob. simpl.
  rewrite String.eqb_refl.
  destruct (String.eqb_spec (Thread.lwp a) ""); [contradiction|reflexivity].
Qed.

(** ** What [print_status] prints *)

Lemma select_all th acc :
  GDB.select (Some []) th acc
  = ret (if Thread.locked th then (acc ++ [th])%list else acc).
Proof.
  unfold GDB.select. destruct (Thread.locked th); simpl; [|reflexivity].
  unfold GDB.name_selected. destruct (Thread.name th); simpl;
    rewrite ?andb_false_r; reflexivity.
Qed.

Lemma select_all_loop ths acc :
  GDB.for_each ths (GDB.select (Some [])) acc
  = ret (acc ++ filter Thread.locked ths)%list.
Proof.
  revert acc. induction ths as [|th r IH]; intros acc; simpl.
  - rewrite app_nil_r. reflexivity.
  - rewrite select_all. unfold ret at 1. simpl. rewrite IH.
    destruct (Thread.locked th); simpl; [|reflexivity].
    rewrite <- app_assoc. reflexivity.
Qed.

Lemma report_returns g show_bt th u :
  result (GDB.report g show_bt th u) = Returns tt.
Proof.
  unfold GDB.report, GDB.thread_by_lwp.
  destruct (GDB.lookup (GDB.threads g) (Thread.lock_owner_lwp th));
    destruct show_bt; reflexivity.
Qed.

Lemma loop_returns {A} (body : A -> unit -> M unit) (l : list A) :
  (forall x u, result (body x u) = Returns tt) ->
  result (GDB.for_each l body tt) = Returns tt.
Proof.
  intros Hb. induction l as [|x r IH]; simpl; [reflexivity|].
  rewrite result_bind, Hb. assumption.
Qed.

Lemma loop_prints {A} (body : A -> unit -> M unit) (l : list A) (x : A) :
  (forall y u, result (body y u) = Returns tt) -> In x l ->
  incl (printed (body x tt)) (printed (GDB.for_each l body tt)).
Proof.
  intros Hb. induction l as [|y r IH]; simpl; [tauto|].
  intros [E|Hin]; rewrite printed_bind, Hb.
  - subst y. apply incl_appl, incl_refl.
  - apply incl_appr, IH, Hin.
Qed.

Lemma deadlock_lines dls :
  GDB.for_each dls GDB.report_deadlock tt = (map deadlock_line dls, Returns tt).
Proof.
  induction dls as [|d r IH]; simpl; [reflexivity|]. rewrite IH. reflexivity.
Qed.

(** Without a filter and with a non-zero counter, [print_status] returns;
    it prints the report of the blocked threads and then one line for each
    entry of the deadlock list, in order. *)
Lemma print_status_unfiltered g show_bt :
  GDB.num_locked g <> 0 ->
  GDB.print_status g show_bt (Some [])
  = ((printed (GDB.for_each (filter Thread.locked (GDB.threads g))
                 (GDB.report g show_bt) tt)
      ++ map deadlock_line (GDB.deadlock_threads g))%list,
     Returns tt).
Proof.
  intros Hn. unfold GDB.print_status.
  destruct (Z.eqb_spec (GDB.num_locked g) 0) as [E|_]; [contradiction|].
  rewrite select_all_loop. simpl.
  pose proof (loop_returns (GDB.report g show_bt)
                (filter Thread.locked (GDB.threads g))
                (report_returns g show_bt)) as Hr.
  destruct (GDB.for_each (filter Thread.locked (GDB.threads g))
              (GDB.report g show_bt) tt) as [o r].
  simpl in Hr. subst r. simpl. rewrite deadlock_lines. reflexivity.
Qed.

Lemma pairs_of_single all a b l :
  NoDup l -> ~ In a l ->
  (forall th, In th l -> Thread.locked th = true -> th = a \/ th = b) ->
  List.length (pair_of all b) = 1%nat ->
  (In b l -> List.length (pairs_of all l) = 1%nat)
  /\ (~ In b l -> pairs_of all l = []).
Proof.
  intros Hnd Ha Hl Hb. induction l as [|x r IH]; [simpl; tauto|].
  inversion Hnd as [|? ? Hx Hr]; subst.
  assert (~ In a r) as Har by (intros Hc; apply Ha; right; assumption).
  assert (forall th, In th r -> Thread.locked th = true -> th = a \/ th = b)
    as Hlr by (intros th Hth; apply Hl; right; assumption).
  destruct (IH Hr Har Hlr) as [IH1 IH2].
  assert (x <> b -> pair_of all x = []) as Hxb.
  { intros Hne. unfold pair_of. destruct (Thread.locked x) eqn:E; auto.
    destruct (Hl x (or_introl eq_refl) E) as [->| ->];
      [destruct Ha; left; reflexivity | contradiction]. }
  split.
  - intros [E|Hin]; rewrite pairs_of_cons, length_app.
    + subst x. rewrite (IH2 Hx), Hb. reflexivity.
    + rewrite Hxb, (IH1 Hin); [reflexivity|]. intros ->. contradiction.
  - intros Hnb.
    assert (x <> b) as Hne by (intros ->; apply Hnb; left; reflexivity).
    assert (~ In b r) as Hnr by (intros Hc; apply Hnb; right; assumption).
    rewrite pairs_of_cons, (Hxb Hne), (IH2 Hnr). reflexivity.
Qed.

Lemma ring_two a b : ring [a; b] -> waits_for a b /\ waits_for b a.
Proof.
  intros Hr. split.
  - destruct (Hr 0%nat) as (x & y & Hx & Hy & Hw); [simpl; lia|].
    simpl in Hx, Hy. inversion Hx; inversion Hy; subst. assumption.
  - destruct (Hr 1%nat) as (x & y & Hx & Hy & Hw); [simpl; lia|].
    simpl in Hx, Hy. inversion Hx; inversion Hy; subst. assumption.
Qed.

Lemma two_pairs_counted every all a b :
  NoDup all -> a <> b -> In a all -> In b all ->
  (forall th, In th all -> Thread.locked th = true -> th = a \/ th = b) ->
  pair_of every a = [(a, b)] -> pair_of every b = [(b, a)] ->
  List.length (pairs_of every all) = 2%nat.
Proof.
  intros Hnd Hab Ha Hb Hl Pa Pb.
  destruct (in_split a all Ha) as (l1 & l2 & E). subst all.
  pose proof (NoDup_remove_1 _ _ _ Hnd) as Hnd'.
  pose proof (NoDup_remove_2 _ _ _ Hnd) as Hna'.
  assert (In b (l1 ++ l2)) as Hb'.
  { apply in_app_or in Hb. apply in_or_app.
    destruct Hb as [Hb|[Hb|Hb]]; auto. congruence. }
  destruct (pairs_of_single every a b (l1 ++ l2) Hnd' Hna') as [H1 _].
  { intros th Hth. apply Hl. apply in_app_or in Hth. apply in_or_app.
    destruct Hth; [left|right; right]; assumption. }
  { rewrite Pb. reflexivity. }
  specialize (H1 Hb'). rewrite pairs_of_app in H1. rewrite length_app in H1.
  rewrite pairs_of_app, pairs_of_cons, Pa, !length_app. simpl. lia.
Qed.

Lemma two_ring_pairs all a b :
  NoDup (map Thread.lwp all) -> a <> b -> In a all -> In b all ->
  (forall th, In th all -> Thread.locked th = true -> th = a \/ th = b) ->
  waits_for a b -> waits_for b a ->
  Thread.lwp a <> "" -> Thread.lwp b <> "" ->
  List.length (pairs_of all all) = 2%nat.
Proof.
  intros Hu Hab Ha Hb Hl Hwa Hwb Hna Hnb.
  apply two_pairs_counted with (a := a) (b := b); auto.
  - eapply NoDup_map_inv; eassumption.
  - apply pair_of_mutual; assumption.
  - apply pair_of_mutual; assumption.
Qed.

(** What [find_deadlock] makes of a ring of waiting threads, whatever its
    length.  When the blocked threads of a snapshot with distinct LWPs form
    one ring, [find_deadlock] returns; a ring of two threads a and b gives
    the two entries (a, b) and (b, a), one for each of them, and nothing
    else; a ring of three or more threads gives no entry at all. *)
Lemma ring_detection (g : GDB.t) (cyc : list Thread.t) :
  NoDup (map Thread.lwp (GDB.threads g)) ->
  NoDup cyc -> incl cyc (GDB.threads g) ->
  (forall th, In th (GDB.threads g) -> Thread.locked th = true -> In th cyc) ->
  ring cyc ->
  GDB.deadlock_threads g = [] ->
  exists g', result (GDB.find_deadlock g) = Returns g'
    /\ (forall a b, cyc = [a; b] ->
        Thread.lwp a <> "" -> Thread.lwp b <> "" ->
        List.length (GDB.deadlock_threads g') = 2%nat
        /\ forall d, In d (GDB.deadlock_threads g') <->
                     d = (a, b) \/ d = (b, a))
    /\ ((3 <= List.length cyc)%nat -> GDB.deadlock_threads g' = []).
Proof.
  intros Hu Hnd Hincl Hall Hr Hnil. rewrite find_deadlock_result.
  eexists; split; [reflexivity|]. simpl. rewrite Hnil. simpl. split.
  - intros a b -> Hna Hnb.
    destruct (ring_two a b Hr) as [Hwa Hwb].
    inversion Hnd as [|? ? Hab _]; subst.
    assert (a <> b) as Hne by (intros ->; apply Hab; left; reflexivity).
    assert (In a (GDB.threads g)) as Ha by (apply Hincl; left; reflexivity).
    assert (In b (GDB.threads g)) as Hb
      by (apply Hincl; right; left; reflexivity).
    split.
    + apply two_ring_pairs with (a := a) (b := b); auto.
      intros th Hth Hl. destruct (Hall th Hth Hl) as [<-|[<-|[]]]; auto.
    + intros [x y]. split.
      * intros Hin. apply in_pairs_of in Hin.
        destruct Hin as (Hx & Hl & Ho & _).
        destruct (Hall x Hx Hl) as [<-|[<-|[]]].
        -- left. destruct Hwa as [_ Hoa].
           rewrite Hoa, (lookup_unique _ b Hu Hb) in Ho.
           inversion Ho. reflexivity.
        -- right. destruct Hwb as [_ Hob].
           rewrite Hob, (lookup_unique _ a Hu Ha) in Ho.
           inversion Ho. reflexivity.
      * intros [E|E]; inversion E; subst; unfold pairs_of;
          apply in_flat_map.
        -- exists a. split; [exact Ha|].
           rewrite (pair_of_mutual _ a b Hu Hb Hwa Hwb Hna).
           left. reflexivity.
        -- exists b. split; [exact Hb|].
           rewrite (pair_of_mutual _ b a Hu Ha Hwb Hwa Hnb).
           left. reflexivity.
  - intros Hk. apply no_element_nil. intros [a b] Hin.
    assert (In a cyc) as Ha.
    { apply in_pairs_of in Hin. destruct Hin as (Ha & Hl & _). auto. }
    revert Hin. apply long_ring_no_pair with (cyc := cyc); assumption.
Qed.

(** C2, as the program behaves.  Two threads of a snapshot with distinct
    LWPs that wait for each other get two entries of the deadlock list, one
    when each of them is visited; where they are the only blocked threads
    these are the only entries.  [print_status] prints one line for every
    entry, so the same deadlock is printed twice. *)
Theorem mutual_wait_reported_twice (g : GDB.t) (a b : Thread.t)
  (pre mid post : list Thread.t) :
  GDB.threads g = (pre ++ a :: mid ++ b :: post)%list ->
  NoDup (map Thread.lwp (GDB.threads g)) ->
  waits_for a b -> waits_for b a ->
  Thread.lwp a <> "" -> Thread.lwp b <> "" ->
  GDB.num_locked g <> 0 ->
  exists g' l1 l2 l3,
    result (GDB.find_deadlock g) = Returns g'
    /\ GDB.deadlock_threads g'
       = (GDB.deadlock_threads g ++ l1 ++ (a, b) :: l2 ++ (b, a) :: l3)%list
    /\ ((forall th, In th (pre ++ mid ++ post) -> Thread.locked th = false) ->
        l1 = [] /\ l2 = [] /\ l3 = [])
    /\ forall show_bt, exists o,
         GDB.print_status g' show_bt (Some [])
         = ((o ++ map deadlock_line (GDB.deadlock_threads g'))%list,
            Returns tt).
Proof.
  intros Ht Hu Hwa Hwb Hna Hnb Hn. rewrite find_deadlock_result.
  assert (In a (GDB.threads g)) as Ha.
  { rewrite Ht. apply in_or_app. right. left. reflexivity. }
  assert (In b (GDB.threads g)) as Hb.
  { rewrite Ht. apply in_or_app. right. right. apply in_or_app. right. left.
    reflexivity. }
  pose proof (pair_of_mutual _ a b Hu Hb Hwa Hwb Hna) as Pa.
  pose proof (pair_of_mutual _ b a Hu Ha Hwb Hwa Hnb) as Pb.
  exists (add_deadlocks (pairs_of (GDB.threads g) (GDB.threads g)) g),
    (pairs_of (GDB.threads g) pre), (pairs_of (GDB.threads g) mid),
    (pairs_of (GDB.threads g) post).
  split; [reflexivity|]. split; [|split].
  - simpl. f_equal. rewrite Ht at 2.
    rewrite pairs_of_app, pairs_of_cons, pairs_of_app, pairs_of_cons, Pa, Pb.
    reflexivity.
  - intros Hun. repeat split; apply pairs_of_unlocked; intros th Hth;
      apply Hun; rewrite !in_app_iff; auto.
  - intros show_bt. eexists. apply print_status_unfiltered. exact Hn.
Qed.

(** ** Scenarios A and B, run *)

(** C1.  Scenario B, run.  The three threads wait for one another in a
    ring, thread 1 for thread 2, thread 2 for thread 3 and thread 3 for
    thread 1.  [find_deadlock] leaves the deadlock list empty: the ring is
    not reported as one deadlock of the three threads, and the report of
    the run has the three waits and no deadlock line. *)
Theorem scenario_B_not_reported :
  exists g t1 t2 t3,
    result (GDB.parse_thread_state Scenario.B GDB.init) = Returns g
    /\ GDB.threads g = [t3; t2; t1]
    /\ ring [t1; t2; t3]
    /\ GDB.deadlock_threads g = []
    /\ ~ reported_once g [t1; t2; t3]
    /\ ap_detector Scenario.B false []
       = ([Is_waiting_for_a_lock "Thread #3 gamma" (Some "third")
             "Thread #1 alpha";
           Is_waiting_for_a_lock "Thread #2 beta" (Some "second")
             "Thread #3 gamma";
           Is_waiting_for_a_lock "Thread #1 alpha" (Some "first")
             "Thread #2 beta"],
          Returns tt).
Proof.
  do 4 eexists. split; [vm_compute; reflexivity|].
  split; [reflexivity|]. split; [|split; [reflexivity|split]].
  - intros i Hi. simpl in Hi.
    destruct i as [|[|[|i]]]; [| | |lia];
      do 2 eexists; (split; [reflexivity|]); (split; [reflexivity|]);
      split; reflexivity.
  - intros [d [Hd _]]. discriminate Hd.
  - vm_compute. reflexivity.
Qed.

(** The ring of Scenario B and the mutual wait of Scenario A, as snapshots
    handed to [find_deadlock]. *)
Lemma ring_detection_witness :
  exists g',
    result (GDB.find_deadlock
              (before_find_deadlock
                 [blocked_thread 3 "103" "101"; blocked_thread 2 "102" "103";
                  blocked_thread 1 "101" "102"])) = Returns g'
    /\ GDB.deadlock_threads g' = [].
Proof.
  destruct (ring_detection
              (before_find_deadlock
                 [blocked_thread 3 "103" "101"; blocked_thread 2 "102" "103";
                  blocked_thread 1 "101" "102"])
              [blocked_thread 1 "101" "102"; blocked_thread 2 "102" "103";
               blocked_thread 3 "103" "101"])
    as (g' & Hr & _ & H3).
  - simpl. repeat constructor; simpl; intuition discriminate.
  - repeat constructor; simpl; intuition discriminate.
  - intros th Hth. simpl in *. intuition.
  - intros th Hth _. simpl in *. intuition.
  - intros i Hi. simpl in Hi.
    destruct i as [|[|[|i]]]; [| | |lia];
      do 2 eexists; (split; [reflexivity|]); (split; [reflexivity|]);
      split; reflexivity.
  - reflexivity.
  - exists g'. split; [exact Hr | apply H3; simpl; lia].
Defined.

Lemma ring_detection_witness_two :
  exists g',
    result (GDB.find_deadlock
              (before_find_deadlock
                 [blocked_thread 2 "102" "101"; blocked_thread 1 "101" "102"]))
    = Returns g'
    /\ List.length (GDB.deadlock_threads g') = 2%nat.
Proof.
  destruct (ring_detection
              (before_find_deadlock
                 [blocked_thread 2 "102" "101"; blocked_thread 1 "101" "102"])
              [blocked_thread 1 "101" "102"; blocked_thread 2 "102" "101"])
    as (g' & Hr & H2 & _).
  - simpl. repeat constructor; simpl; intuition discriminate.
  - repeat constructor; simpl; intuition discriminate.
  - intros th Hth. simpl in *. intuition.
  - intros th Hth _. simpl in *. intuition.
  - intros i Hi. simpl in Hi.
    destruct i as [|[|i]]; [| |lia];
      do 2 eexists; (split; [reflexivity|]); (split; [reflexivity|]);
      split; reflexivity.
  - reflexivity.
  - exists g'. split; [exact Hr|].
    apply (H2 _ _ eq_refl); discriminate.
Defined.

(** C2 fails on Scenario A: the two threads wait for each other, and the
    deadlock list holds two entries for them, each printed on its own
    line. *)
Lemma scenario_A_reported_twice :
  exists g t1 t2,
    result (GDB.parse_thread_state Scenario.A GDB.init) = Returns g
    /\ GDB.threads g = [t2; t1]
    /\ waits_for t1 t2 /\ waits_for t2 t1
    /\ GDB.deadlock_threads g = [(t2, t1); (t1, t2)]
    /\ printed (GDB.print_status g false (Some []))
       = [Is_waiting_for_a_lock "Thread #2 beta" (Some "second")
            "Thread #1 alpha";
          Is_waiting_for_a_lock "Thread #1 alpha" (Some "first")
            "Thread #2 beta";
          Deadlock_between "Thread #2 beta" "Thread #1 alpha";
          Deadlock_between "Thread #1 alpha" "Thread #2 beta"]
    /\ ~ reported_once g [t1; t2].
Proof.
  do 3 eexists. split; [vm_compute; reflexivity|].
  split; [reflexivity|].
  split; [split; reflexivity|]. split; [split; reflexivity|].
  split; [reflexivity|]. split; [vm_compute; reflexivity|].
  intros [d [Hd _]]. discriminate Hd.
Qed.

Lemma mutual_wait_reported_twice_witness :
  exists g',
    result (GDB.find_deadlock
              (before_find_deadlock
                 [blocked_thread 2 "102" "101"; blocked_thread 1 "101" "102"]))
    = Returns g'
    /\ GDB.deadlock_threads g'
       = [(blocked_thread 2 "102" "101", blocked_thread 1 "101" "102");
          (blocked_thread 1 "101" "102", blocked_thread 2 "102" "101")].
Proof.
  destruct (mutual_wait_reported_twice
              (before_find_deadlock
                 [blocked_thread 2 "102" "101"; blocked_thread 1 "101" "102"])
              (blocked_thread 2 "102" "101") (blocked_thread 1 "101" "102")
              [] [] [])
    as (g' & l1 & l2 & l3 & Hr & Hd & Hl & _).
  - reflexivity.
  - simpl. repeat constructor; simpl; intuition discriminate.
  - split; reflexivity.
  - split; reflexivity.
  - discriminate.
  - discriminate.
  - discriminate.
  - exists g'. split; [exact Hr|].
    destruct Hl as (-> & -> & ->); [intros th []|]. exact Hd.
Defined.

(** ** A snapshot without a cycle *)

Lemma acyclic_no_deadlock_witness :
  exists g',
    result (GDB.find_deadlock
              (before_find_deadlock
                 [running_thread 2 "102"; blocked_thread 1 "101" "102"]))
    = Returns g'
    /\ GDB.deadlock_threads g' = [].
Proof.
  apply (acyclic_no_deadlock
           (before_find_deadlock
              [running_thread 2 "102"; blocked_thread 1 "101" "102"])).
  - apply ranked_acyclic
      with (rank := fun l => if (l =? "101")%string then 1%nat else 0%nat).
    intros a b (th & Hin & Hl & Ha & Hb & _). simpl in Hin.
    destruct Hin as [<-|[<-|[]]]; simpl in *; [discriminate|].
    inversion Hb; subst. simpl. lia.
  - reflexivity.
Defined.

(** ** The counter of blocked threads *)

Arguments bind : simpl never.
Arguments print : simpl never.

Lemma result_print {B} (o : output) (k : unit -> M B) :
  result (bind (print o) k) = result (k tt).
Proof. rewrite result_bind. reflexivity. Qed.

Lemma result_ret {A} (a : A) : result (ret a) = Returns a.
Proof. reflexivity. Qed.

Lemma add_frame_spec go th n line th' n' :
  result (Thread.add_frame go th n line) = Returns (th', n') ->
  exists frame,
    Thread.frames th' = (Thread.frames th ++ [frame])%list
    /\ Thread.locked th' = Thread.locked th || Frame.locked frame
    /\ n' = n + (if Frame.locked frame then 1 else 0).
Proof.
  unfold Thread.add_frame. rewrite result_bind.
  destruct (result (Frame.parse go (Thread.index th) line)) as [[f ow]|e];
    [|discriminate].
  simpl. rewrite result_bind.
  destruct (Frame.index f =? -1); simpl;
    intros H; inversion H; subst; clear H; exists f;
    destruct (Frame.locked f), ow; simpl;
    rewrite ?orb_true_r, ?orb_false_r, ?Z.add_0_r; auto.
Qed.

Lemma blocking_frames_app th th' frame :
  Thread.frames th' = (Thread.frames th ++ [frame])%list ->
  blocking_frames th'
  = (blocking_frames th + (if Frame.locked frame then 1 else 0))%nat.
Proof.
  unfold blocking_frames. intros ->. rewrite filter_app, length_app. simpl.
  destruct (Frame.locked frame); reflexivity.
Qed.

Lemma set_nth_sum {A} (f : A -> nat) l i x old :
  nth_error l i = Some old ->
  (list_sum (map f (GDB.set_nth i x l)) + f old
   = list_sum (map f l) + f x)%nat.
Proof.
  revert i. induction l as [|y r IH]; intros [|i] H; simpl in *;
    try discriminate.
  - inversion H; subst. lia.
  - specialize (IH i H). lia.
Qed.

Lemma set_nth_Forall {A} (P : A -> Prop) l i x :
  Forall P l -> P x -> Forall P (GDB.set_nth i x l).
Proof.
  revert i. induction l as [|y r IH]; intros [|i] Hl Hx; simpl; auto;
    inversion Hl; subst; constructor; auto.
Qed.

Lemma add_frame_at_counted go g i line g' :
  counted g -> result (GDB.add_frame_at go g i line) = Returns g' ->
  counted g' /\ GDB.deadlock_threads g' = GDB.deadlock_threads g.
Proof.
  intros [Hn Hf] H. unfold GDB.add_frame_at in H.
  destruct (nth_error (GDB.threads g) i) as [th|] eqn:Hi.
  - rewrite result_bind in H.
    destruct (result (Thread.add_frame go th (GDB.num_locked g) line))
      as [[th' n']|e] eqn:Ha; [|discriminate].
    simpl in H. inversion H; subst g'; clear H.
    apply add_frame_spec in Ha. destruct Ha as (frame & Hfr & Hl & Hc).
    pose proof (blocking_frames_app th th' frame Hfr) as Hb.
    assert (Thread.locked th = negb (blocking_frames th =? 0)%nat) as Hth.
    { apply nth_error_In in Hi. rewrite Forall_forall in Hf. auto. }
    split; [split|reflexivity]; simpl.
    + unfold total_blocking_frames in *. simpl.
      pose proof (set_nth_sum blocking_frames (GDB.threads g) i th' th Hi).
      subst n'. rewrite Hn.
      destruct (Frame.locked frame); lia.
    + apply set_nth_Forall; [assumption|].
      rewrite Hl, Hth, Hb.
      destruct (Frame.locked frame);
        destruct (blocking_frames th); simpl; try reflexivity.
      all: rewrite ?Nat.add_0_r, ?Nat.add_1_r; reflexivity.
  - inversion H; subst. split; [split; assumption|reflexivity].
Qed.

Lemma new_thread_counted g a b c th :
  counted g -> result (Thread.init a b c) = Returns th ->
  counted (GDB.with_threads (GDB.threads g ++ [th])%list g).
Proof.
  intros [Hn Hf] H. unfold Thread.init, int in H.
  destruct (Py.int10 a); [|discriminate]. simpl in H.
  inversion H; subst; clear H. split; simpl.
  - unfold total_blocking_frames in *. simpl.
    rewrite map_app, list_sum_app. simpl. lia.
  - apply Forall_app. split; [assumption|]. constructor; [reflexivity|].
    constructor.
Qed.

Lemma parse_backtrace_cons go line rest g cur :
  GDB.parse_backtrace go (line :: rest) g cur =
  match cur with
  | Some i =>
      match line with
      | EmptyString => GDB.parse_backtrace go rest g None
      | String c _ =>
          if negb (c =? "#")%char then
            print (Skipping_invalid_frame line) ;;;
            GDB.parse_backtrace go rest g cur
          else
            g' <- GDB.add_frame_at go g i line ;;
            GDB.parse_backtrace go rest g' cur
      end
  | None =>
      if Py.find line "Thread " =? 0 then
        match Re.rmatch GDB.thread_pattern line with
        | None =>
            print (No_match_for_thread line) ;;;
            GDB.parse_backtrace go rest g cur
        | Some data =>
            d0 <- getitem data 0 ;;
            d1 <- getitem data 1 ;;
            d2 <- getitem data 2 ;;
            th <- Thread.init d0 d1 d2 ;;
            GDB.parse_backtrace go rest
              (GDB.with_threads (GDB.threads g ++ [th])%list g)
              (Some (List.length (GDB.threads g)))
        end
      else GDB.parse_backtrace go rest g cur
  end.
Proof. destruct cur; reflexivity. Qed.

Ltac step_bind H :=
  rewrite result_bind in H;
  match type of H with
  | match result ?m with _ => _ end = _ =>
      let E := fresh "E" in destruct (result m) eqn:E; [|discriminate]
  end.

Lemma parse_backtrace_counted go lines g cur g' :
  counted g -> result (GDB.parse_backtrace go lines g cur) = Returns g' ->
  counted g' /\ GDB.deadlock_threads g' = GDB.deadlock_threads g.
Proof.
  revert g cur. induction lines as [|line rest IH]; intros g cur Hc H.
  - simpl in H. inversion H; subst. auto.
  - rewrite parse_backtrace_cons in H. destruct cur as [i|].
    + destruct line as [|c line'].
      * eapply IH; eassumption.
      * destruct (negb (c =? "#")%char).
        -- rewrite result_print in H. eapply IH; eassumption.
        -- step_bind H.
           destruct (add_frame_at_counted _ _ _ _ _ Hc E) as [Hc1 Hd1].
           destruct (IH _ _ Hc1 H) as [Hc' Hd']. split; congruence.
    + destruct (Py.find line "Thread " =? 0).
      * destruct (Re.rmatch GDB.thread_pattern line) as [data|].
        -- do 4 step_bind H.
           match goal with
           | Hi : result (Thread.init _ _ _) = Returns _ |- _ =>
               pose proof (new_thread_counted _ _ _ _ _ Hc Hi) as Hc1
           end.
           destruct (IH _ _ Hc1 H) as [Hc' Hd']. split; [assumption|].
           rewrite Hd'. reflexivity.
        -- rewrite result_print in H. eapply IH; eassumption.
      * eapply IH; eassumption.
Qed.

Lemma update_first_counted p n l :
  list_sum (map blocking_frames (GDB.update_first p (Thread.set_name n) l))
  = list_sum (map blocking_frames l)
  /\ (Forall (fun th => Thread.locked th
                        = negb (blocking_frames th =? 0)%nat) l ->
      Forall (fun th => Thread.locked th
                        = negb (blocking_frames th =? 0)%nat)
        (GDB.update_first p (Thread.set_name n) l)).
Proof.
  induction l as [|th r [IH1 IH2]]; simpl; [auto|].
  destruct (p th); simpl.
  - split; [reflexivity|]. intros H. inversion H; subst.
    constructor; assumption.
  - split; [rewrite IH1; reflexivity|]. intros H. inversion H; subst.
    constructor; auto.
Qed.

Lemma set_thread_name_counted g l n g' :
  counted g -> result (GDB.set_thread_name g l n) = Returns g' ->
  counted g' /\ GDB.deadlock_threads g' = GDB.deadlock_threads g.
Proof.
  intros [Hn Hf] H. unfold GDB.set_thread_name, GDB.thread_by_lwp in H.
  destruct (GDB.lookup (GDB.threads g) (Some l)).
  - rewrite result_bind, !result_ret in H. inversion H; subst; clear H.
    destruct (update_first_counted (GDB.has_lwp (Some l)) n (GDB.threads g))
      as [H1 H2].
    split; [split|reflexivity]; simpl.
    + unfold total_blocking_frames in *. simpl. rewrite H1. assumption.
    + auto.
  - rewrite result_bind, result_print, result_ret in H.
    do 2 rewrite result_print in H. rewrite result_ret in H.
    inversion H; subst. split; [split; assumption|reflexivity].
Qed.

Lemma name_line_counted line g g' :
  counted g -> result (GDB.name_line line g) = Returns g' ->
  counted g' /\ GDB.deadlock_threads g' = GDB.deadlock_threads g.
Proof.
  intros Hc H. unfold GDB.name_line in H.
  destruct (Re.rsearch GDB.name_pattern line) as [groups|].
  - do 2 step_bind H. eapply set_thread_name_counted; eassumption.
  - inversion H; subst. auto.
Qed.

Lemma for_each_invariant {A S} (P : S -> S -> Prop)
  (body : A -> S -> M S) (l : list A) :
  (forall s, P s s) ->
  (forall s1 s2 s3, P s1 s2 -> P s2 s3 -> P s1 s3) ->
  forall (Q : S -> Prop),
  (forall x s s', Q s -> result (body x s) = Returns s' -> Q s' /\ P s s') ->
  forall s s', Q s -> result (GDB.for_each l body s) = Returns s' ->
               Q s' /\ P s s'.
Proof.
  intros Prefl Ptrans Q Hb. induction l as [|x r IH]; intros s s' Hq H.
  - simpl in H. inversion H; subst. auto.
  - simpl in H. step_bind H.
    destruct (Hb _ _ _ Hq E) as [Hq1 Hp1].
    destruct (IH _ _ Hq1 H) as [Hq2 Hp2]. eauto.
Qed.

Lemma set_lock_same th :
  blocking_frames (GDB.set_lock th) = blocking_frames th
  /\ Thread.locked (GDB.set_lock th) = Thread.locked th.
Proof. unfold GDB.set_lock. destruct (Thread.locked th) eqn:E; auto. Qed.

Lemma set_locks_counted g :
  counted g -> counted (GDB.set_locks g).
Proof.
  intros [Hn Hf]. split; simpl.
  - rewrite Hn. f_equal. unfold total_blocking_frames. simpl.
    rewrite map_map. f_equal. apply map_ext. intros th.
    symmetry. apply set_lock_same.
  - apply Forall_map. eapply Forall_impl; [|exact Hf]. simpl.
    intros th H. destruct (set_lock_same th) as [-> ->]. assumption.
Qed.

Lemma init_counted : counted GDB.init.
Proof. split; [reflexivity|constructor]. Qed.

(** What a whole run of [parse_thread_state] establishes. *)
Lemma parse_thread_state_spec go g :
  result (GDB.parse_thread_state go GDB.init) = Returns g ->
  counted g
  /\ GDB.deadlock_threads g = pairs_of (GDB.threads g) (GDB.threads g).
Proof.
  unfold GDB.parse_thread_state. intros H.
  step_bind H. rename a into g1, E into E1.
  step_bind H. rename a into g2, E into E2.
  destruct (parse_backtrace_counted _ _ _ _ _ init_counted E1) as [C1 D1].
  destruct (for_each_invariant
              (fun s s' => GDB.deadlock_threads s' = GDB.deadlock_threads s)
              GDB.name_line
              (Py.split_on Py.nl (go ["info threads"]))
              (fun s => eq_refl)
              (fun s1 s2 s3 H12 H23 => eq_trans H23 H12)
              counted name_line_counted g1 g2 C1 E2) as [C2 D2].
  rewrite find_deadlock_result in H. inversion H; subst g; clear H.
  pose proof (set_locks_counted g2 C2) as [Hn Hf].
  split; [split; assumption|]. simpl. rewrite D2, D1. reflexivity.
Qed.

Lemma blocked_le_frames l :
  Forall (fun th => Thread.locked th
                    = negb (blocking_frames th =? 0)%nat) l ->
  (List.length (filter Thread.locked l)
   <= list_sum (map blocking_frames l))%nat
  /\ ((forall th, In th l -> (blocking_frames th <= 1)%nat) ->
      List.length (filter Thread.locked l)
      = list_sum (map blocking_frames l)).
Proof.
  induction 1 as [|th r Hth _ [IH1 IH2]]; simpl; [auto|].
  rewrite Hth. destruct (blocking_frames th) as [|n] eqn:E; simpl.
  - split; [assumption|]. intros H. apply IH2. intros; apply H; auto.
  - split; [lia|]. intros H.
    pose proof (H th (or_introl eq_refl)) as H1. rewrite E in H1.
    rewrite IH2 by (intros; apply H; auto). lia.
Qed.

(** C5, as the program behaves.  After a run of [parse_thread_state] the
    counter [num_locked] is the number of frames marked as blocking, over
    all threads: it is at least the number of threads marked blocked, and
    equal to it when no thread has two blocking frames. *)
Theorem counter_counts_blocking_frames (go : session) (g : GDB.t) :
  result (GDB.parse_thread_state go GDB.init) = Returns g ->
  GDB.num_locked g = Z.of_nat (total_blocking_frames g)
  /\ Z.of_nat (blocked_threads g) <= GDB.num_locked g
  /\ ((forall th, In th (GDB.threads g) -> (blocking_frames th <= 1)%nat) ->
      GDB.num_locked g = Z.of_nat (blocked_threads g)).
Proof.
  intros H. apply parse_thread_state_spec in H. destruct H as [[Hn Hf] _].
  destruct (blocked_le_frames _ Hf) as [H1 H2].
  unfold blocked_threads, total_blocking_frames in *.
  split; [assumption|]. split; [lia|].
  intros Hone. rewrite (H2 Hone). assumption.
Qed.

(** C5 fails where a thread has two blocking frames: one thread is marked
    blocked and the counter is 2. *)
Lemma wrapped_lock_counted_twice :
  exists g,
    result (GDB.parse_thread_state Scenario.wrapped_lock GDB.init) = Returns g
    /\ blocked_threads g = 1%nat
    /\ GDB.num_locked g = 2.
Proof.
  eexists. split; [vm_compute; reflexivity|]. split; reflexivity.
Qed.

Lemma counter_counts_blocking_frames_witness :
  GDB.num_locked (snapshot_of Scenario.A)
  = Z.of_nat (total_blocking_frames (snapshot_of Scenario.A))
  /\ Z.of_nat (blocked_threads (snapshot_of Scenario.A))
     <= GDB.num_locked (snapshot_of Scenario.A).
Proof.
  assert (result (GDB.parse_thread_state Scenario.A GDB.init)
          = Returns (snapshot_of Scenario.A)) as H
    by (vm_compute; reflexivity).
  destruct (counter_counts_blocking_frames Scenario.A
              (snapshot_of Scenario.A) H) as (H1 & H2 & _).
  split; assumption.
Defined.

(** ** Blocked threads whose owner is not in the snapshot *)

Lemma unknown_owner_unpaired all th d :
  In th all -> GDB.lookup all (Thread.lock_owner_lwp th) = None ->
  In d (pairs_of all all) -> fst d <> th /\ snd d <> th.
Proof.
  intros Hth Hno Hd. destruct d as [a b]. apply in_pairs_of in Hd.
  destruct Hd as (Ha & Hl & Ho & Hm). simpl. split.
  - intros ->. congruence.
  - intros ->. apply mutual_spec in Hm. destruct Hm as (_ & Hob & _).
    rewrite Hob in Hno. exact (lookup_member _ _ Ha Hno).
Qed.

Lemma report_unknown_owner g show_bt th :
  GDB.lookup (GDB.threads g) (Thread.lock_owner_lwp th) = None ->
  In (No_owner_for (Thread.readable th))
     (printed (GDB.report g show_bt th tt)).
Proof.
  intros Hno. unfold GDB.report, GDB.thread_by_lwp. rewrite Hno.
  right. left. reflexivity.
Qed.

Lemma counted_locked_nonzero g th :
  counted g -> In th (GDB.threads g) -> Thread.locked th = true ->
  GDB.num_locked g <> 0.
Proof.
  intros [Hn Hf] Hin Hl. rewrite Forall_forall in Hf.
  specialize (Hf th Hin). rewrite Hl in Hf.
  assert (blocking_frames th <> 0)%nat as Hb.
  { intros E. rewrite E in Hf. discriminate. }
  assert (blocking_frames th <= total_blocking_frames g)%nat.
  { unfold total_blocking_frames. clear -Hin.
    induction (GDB.threads g) as [|x r IH]; simpl in *; [tauto|].
    destruct Hin as [->|Hin]; [lia|]. specialize (IH Hin). lia. }
  lia.
Qed.

(** C6.  In the snapshot of a run, a blocked thread whose resolved owner is
    the LWP of no thread is in no entry of the deadlock list, and the report
    without a filter returns and has the line "No owner for" that thread;
    where every blocked thread is of this kind the deadlock list is
    empty. *)
Theorem unknown_owner_reported (go : session) (g : GDB.t) (th : Thread.t) :
  result (GDB.parse_thread_state go GDB.init) = Returns g ->
  In th (GDB.threads g) -> Thread.locked th = true ->
  GDB.lookup (GDB.threads g) (Thread.lock_owner_lwp th) = None ->
  (forall d, In d (GDB.deadlock_threads g) -> fst d <> th /\ snd d <> th)
  /\ (forall show_bt,
        result (GDB.print_status g show_bt (Some [])) = Returns tt
        /\ In (No_owner_for (Thread.readable th))
              (printed (GDB.print_status g show_bt (Some []))))
  /\ ((forall t, In t (GDB.threads g) -> Thread.locked t = true ->
                 GDB.lookup (GDB.threads g) (Thread.lock_owner_lwp t) = None)
      -> GDB.deadlock_threads g = []).
Proof.
  intros Hrun Hth Hl Hno. apply parse_thread_state_spec in Hrun.
  destruct Hrun as [Hc Hd]. split; [|split].
  - intros d Hin. rewrite Hd in Hin.
    eapply unknown_owner_unpaired; eassumption.
  - intros show_bt.
    rewrite (print_status_unfiltered g show_bt
               (counted_locked_nonzero g th Hc Hth Hl)).
    split; [reflexivity|]. unfold printed at 1. simpl.
    apply in_or_app. left.
    apply (loop_prints (GDB.report g show_bt) _ th
             (report_returns g show_bt)).
    + apply filter_In. auto.
    + apply report_unknown_owner. assumption.
  - intros Hall. rewrite Hd. apply no_element_nil. intros [a b] Hin.
    apply in_pairs_of in Hin. destruct Hin as (Ha & Hla & Ho & _).
    rewrite (Hall a Ha Hla) in Ho. discriminate.
Qed.

Lemma unknown_owner_reported_witness :
  let g := snapshot_of Scenario.C in
  let th := nth 1 (GDB.threads g) (running_thread 0 "") in
  Thread.readable th = "Thread #1 alpha"
  /\ GDB.deadlock_threads g = []
  /\ In (No_owner_for (Thread.readable th))
        (printed (GDB.print_status g false (Some []))).
Proof.
  intros g th.
  destruct (unknown_owner_reported Scenario.C g th) as (_ & Hp & Hall).
  - vm_compute. reflexivity.
  - vm_compute. right. left. reflexivity.
  - vm_compute. reflexivity.
  - vm_compute. reflexivity.
  - split; [vm_compute; reflexivity|]. split; [|apply (Hp false)].
    apply Hall. intros t Ht Hlt.
    assert (forallb
              (fun t => negb (Thread.locked t)
                        || match GDB.lookup (GDB.threads g)
                                   (Thread.lock_owner_lwp t) with
                           | Some _ => false
                           | None => true
                           end) (GDB.threads g) = true) as Hb
      by (vm_compute; reflexivity).
    rewrite forallb_forall in Hb. specialize (Hb t Ht). rewrite Hlt in Hb.
    destruct (GDB.lookup (GDB.threads g) (Thread.lock_owner_lwp t));
      [discriminate Hb|reflexivity].
Defined.

(** ** The function a thread is blocked inside *)

Lemma caller_of_lock_spec li frames :
  (exists pre f post,
      frames = (pre ++ f :: post)%list
      /\ forallb (fun x => negb (names_caller li x)) pre = true
      /\ names_caller li f = true
      /\ GDB.caller_of_lock li frames = Frame.in_func f)
  \/ (forallb (fun x => negb (names_caller li x)) frames = true
      /\ GDB.caller_of_lock li frames = None).
Proof.
  induction frames as [|fr rest IH]; [right; split; reflexivity|].
  cbn [GDB.caller_of_lock].
  destruct (names_caller li fr) eqn:E.
  - left. exists [], fr, rest.
    split; [reflexivity|]. split; [reflexivity|]. split; [exact E|].
    unfold names_caller in E.
    apply andb_true_iff in E. destruct E as [E E3].
    apply andb_true_iff in E. destruct E as [E1 E2].
    rewrite E1, E2, E3. reflexivity.
  - assert (GDB.caller_of_lock li (fr :: rest) = GDB.caller_of_lock li rest)
      as Hsame.
    { cbn [GDB.caller_of_lock]. unfold names_caller in E.
      destruct (GDB.index_gt (Frame.index fr) li); [|reflexivity].
      destruct (Py.truthy (Frame.at_file fr)); [|reflexivity].
      destruct (Py.truthy (Frame.in_func fr)); [discriminate|reflexivity]. }
    cbn [GDB.caller_of_lock] in Hsame. rewrite Hsame.
    destruct IH as [(pre & f & post & Hfr & Hpre & Hf & Hc)|[Hall Hc]].
    + left. exists (fr :: pre), f, post. subst rest.
      repeat split; auto. cbn [forallb]. rewrite E. assumption.
    + right. split; [|assumption]. cbn [forallb]. rewrite E. assumption.
Qed.

Lemma parse_thread_state_threads go g :
  result (GDB.parse_thread_state go GDB.init) = Returns g ->
  exists g2, GDB.threads g = map GDB.set_lock (GDB.threads g2).
Proof.
  unfold GDB.parse_thread_state. intros H. do 2 step_bind H.
  rewrite find_deadlock_result in H. inversion H; subst g.
  eexists. reflexivity.
Qed.

(** C8, as the program behaves.  In the snapshot of a run, the [lock_func]
    of a blocked thread is the function name of the first frame, in the
    order of the stack, that has an index above the recorded blocking index,
    a non-empty source location and a non-empty function name; frames
    without a source location are passed over, and [lock_func] is [None]
    when no frame qualifies. *)
Theorem lock_func_is_first_source_frame (go : session) (g : GDB.t)
  (th : Thread.t) :
  result (GDB.parse_thread_state go GDB.init) = Returns g ->
  In th (GDB.threads g) -> Thread.locked th = true ->
  (exists pre f post,
      Thread.frames th = (pre ++ f :: post)%list
      /\ forallb (fun x => negb (names_caller (Thread.locked_index th) x))
           pre = true
      /\ names_caller (Thread.locked_index th) f = true
      /\ Thread.lock_func th = Frame.in_func f)
  \/ (forallb (fun x => negb (names_caller (Thread.locked_index th) x))
        (Thread.frames th) = true
      /\ Thread.lock_func th = None).
Proof.
  intros Hrun Hin Hl. apply parse_thread_state_threads in Hrun.
  destruct Hrun as [g2 Ht]. rewrite Ht in Hin. apply in_map_iff in Hin.
  destruct Hin as (th0 & <- & _). unfold GDB.set_lock in *.
  destruct (Thread.locked th0) eqn:E; [|congruence]. simpl.
  apply caller_of_lock_spec.
Qed.

(** C8 fails where the blocking call was made by a library function: the
    frame entered right after the blocking call is [g_mutex_lock], and the
    recorded name is that of the frame above it. *)
Lemma library_caller_passed_over :
  let g := snapshot_of Scenario.through_library in
  let th := nth 1 (GDB.threads g) (running_thread 0 "") in
  result (GDB.parse_thread_state Scenario.through_library GDB.init)
  = Returns g
  /\ Thread.locked th = true
  /\ Thread.locked_index th = Some 1
  /\ entered_after_blocking_call th = Some "g_mutex_lock"
  /\ Thread.lock_func th = Some "first".
Proof.
  intros g th.
  split; [|split; [|split; [|split]]]; vm_compute; reflexivity.
Qed.

Lemma lock_func_is_first_source_frame_witness :
  let g := snapshot_of Scenario.through_library in
  let th := nth 1 (GDB.threads g) (running_thread 0 "") in
  (exists pre f post,
      Thread.frames th = (pre ++ f :: post)%list
      /\ forallb (fun x => negb (names_caller (Thread.locked_index th) x))
           pre = true
      /\ names_caller (Thread.locked_index th) f = true
      /\ Thread.lock_func th = Frame.in_func f)
  \/ (forallb (fun x => negb (names_caller (Thread.locked_index th) x))
        (Thread.frames th) = true
      /\ Thread.lock_func th = None).
Proof.
  intros g th.
  apply (lock_func_is_first_source_frame Scenario.through_library g th).
  - vm_compute. reflexivity.
  - vm_compute. right. left. reflexivity.
  - vm_compute. reflexivity.
Defined.

(** ** The register scan of the lock resolver *)

Lemma scan_before_separator fs pre l :
  forallb (fun x => negb (starts_with_sep x)) pre = true ->
  Frame.scan_registers false fs (pre ++ l) = Frame.scan_registers false fs l.
Proof.
  induction pre as [|x r IH]; intros H; [reflexivity|].
  cbn [forallb] in H. apply andb_true_iff in H. destruct H as [Hx Hr].
  cbn [app Frame.scan_registers negb]. unfold starts_with_sep in Hx.
  destruct (Py.find x Frame.sep =? 0); [discriminate|]. auto.
Qed.

Lemma scan_separator fs s l :
  starts_with_sep s = true ->
  Frame.scan_registers false fs (s :: l) = Frame.scan_registers true fs l.
Proof.
  intros H. cbn [Frame.scan_registers negb]. unfold starts_with_sep in H.
  rewrite H. reflexivity.
Qed.

Lemma scan_before_anchor mid l :
  forallb (fun x => negb (anchor_line x)) mid = true ->
  Frame.scan_registers true false (mid ++ l)
  = Frame.scan_registers true false l.
Proof.
  induction mid as [|x r IH]; intros H; [reflexivity|].
  cbn [forallb] in H. apply andb_true_iff in H. destruct H as [Hx Hr].
  cbn [app Frame.scan_registers negb]. unfold anchor_line in Hx.
  destruct (Py.split x) as [|f1 [|f2 [|f3 [|f4 fs]]]]; auto.
  destruct (Frame.is_anchor f2 f3); [discriminate|]. auto.
Qed.

Lemma scan_anchor fs a l :
  anchor_line a = true ->
  Frame.scan_registers true fs (a :: l) = Frame.scan_registers true true l.
Proof.
  intros H. cbn [Frame.scan_registers negb]. unfold anchor_line in H.
  destruct (Py.split a) as [|f1 [|f2 [|f3 [|f4 fs']]]]; try discriminate.
  rewrite H. reflexivity.
Qed.

Lemma scan_after_anchor skipped l :
  forallb (fun x => negb (other_triple x)) skipped = true ->
  Frame.scan_registers true true (skipped ++ l)
  = Frame.scan_registers true true l.
Proof.
  induction skipped as [|x r IH]; intros H; [reflexivity|].
  cbn [forallb] in H. apply andb_true_iff in H. destruct H as [Hx Hr].
  cbn [app Frame.scan_registers negb]. unfold other_triple in Hx.
  destruct (Py.split x) as [|f1 [|f2 [|f3 [|f4 fs]]]]; auto.
  destruct (Frame.is_anchor f2 f3); [|discriminate]. auto.
Qed.

Lemma scan_target t r addr v rest :
  Py.split t = [r; addr; v] -> Frame.is_anchor addr v = false ->
  Frame.scan_registers true true (t :: rest) = Some addr.
Proof.
  intros Hs Ha. cbn [Frame.scan_registers negb]. rewrite Hs, Ha. reflexivity.
Qed.

(** C10, as the program behaves.  Let the answer to the register query be
    some lines none of which starts with the separator, a line that does,
    lines that are not anchors, an anchor line, lines that are anchors again
    or do not split into three fields, and then a line of three fields that
    is not an anchor.  The address of that last line is the one the
    structure dump is asked for, whatever follows it. *)
Theorem register_scan_target (go : session) (thread_index : Z) (f : Frame.t)
  (pre mid skipped rest : list string) (s a t r addr v : string) :
  Py.split_on Py.nl (go (Frame.registers_query thread_index (Frame.index f)))
  = (pre ++ s :: mid ++ a :: skipped ++ t :: rest)%list ->
  forallb (fun x => negb (starts_with_sep x)) pre = true ->
  starts_with_sep s = true ->
  forallb (fun x => negb (anchor_line x)) mid = true ->
  anchor_line a = true ->
  forallb (fun x => negb (other_triple x)) skipped = true ->
  Py.split t = [r; addr; v] -> Frame.is_anchor addr v = false ->
  Frame.scan_registers false false
    (pre ++ s :: mid ++ a :: skipped ++ t :: rest) = Some addr
  /\ Frame.parse_locked_state go thread_index f
     = Frame.read_owner go thread_index f addr
  /\ (Frame.lock_type f = Some pthread_mutex_t ->
      Frame.parse_locked_state go thread_index f
      = match Re.rsearch Frame.owner_pattern (go (Frame.mutex_query addr))
        with
        | Some groups => owner <- getitem groups 0 ;; ret (Some owner)
        | None =>
            print (No_match_found_for thread_index (Frame.index f)) ;;;
            ret None
        end).
Proof.
  intros Hlines Hpre Hs Hmid Ha Hsk Ht Hna.
  assert (Frame.scan_registers false false
            (pre ++ s :: mid ++ a :: skipped ++ t :: rest) = Some addr) as H.
  { rewrite (scan_before_separator _ _ _ Hpre), (scan_separator _ _ _ Hs),
      (scan_before_anchor _ _ Hmid), (scan_anchor _ _ _ Ha),
      (scan_after_anchor _ _ Hsk).
    eapply scan_target; eassumption. }
  assert (Frame.parse_locked_state go thread_index f
          = Frame.read_owner go thread_index f addr) as Hp.
  { unfold Frame.parse_locked_state. rewrite Hlines, H. reflexivity. }
  split; [exact H|]. split; [exact Hp|].
  intros Hk. rewrite Hp. unfold Frame.read_owner. rewrite Hk. reflexivity.
Qed.

(** C10 fails where two anchor lines follow each other: the second one is
    the first line of three fields after the anchor, with address 0x80, and
    the scan passes it over and takes the address of the line after it. *)
Lemma second_anchor_passed_over :
  Frame.scan_registers false false
    ["[Switching to thread 1 (Thread 0x7f01 (LWP 101))]";
     "=======";
     "rax            0xfffffffffffffe00  -512";
     "rbx            0x80                128";
     "rcx            0x80                128";
     "rdx            0x601080            6295680";
     "rsi            0x0                 0"] = Some "0x601080"
  /\ specified_address
       ["[Switching to thread 1 (Thread 0x7f01 (LWP 101))]";
        "=======";
        "rax            0xfffffffffffffe00  -512";
        "rbx            0x80                128";
        "rcx            0x80                128";
        "rdx            0x601080            6295680";
        "rsi            0x0                 0"] = Some "0x80".
Proof. split; vm_compute; reflexivity. Qed.

Lemma register_scan_target_witness :
  Frame.parse_locked_state Scenario.A 1 lock_call_frame
  = Frame.read_owner Scenario.A 1 lock_call_frame "0x601080".
Proof.
  refine (proj1 (proj2 (register_scan_target Scenario.A 1 lock_call_frame
                   [] ["rax            0xfffffffffffffe00  -512"] []
                   ["rdx            0x0                 0"]
                   "======="
                   "rbx            0x80                128"
                   "rcx            0x601080            6295680"
                   "rcx" "0x601080" "6295680" _ _ _ _ _ _ _ _)));
    vm_compute; reflexivity.
Defined.

(** ** Frame lines the parser stops at *)

(** C3.  A dump in which gdb marks a signal handler frame has a frame line
    with none of the keywords; the line matches the base pattern, and the
    read [data[2]] of the always-true [elif 'at':] branch raises
    [IndexError], which ends the run. *)
Theorem signal_frame_raises :
  GDB.parse_thread_state Scenario.signal_frame GDB.init
  = ([], Raises IndexError)
  /\ ap_detector Scenario.signal_frame false [] = ([], Raises IndexError).
Proof. split; vm_compute; reflexivity. Qed.

(** Any frame line without the three keywords ends the same way, and a
    frame marker without digits raises [ValueError] in [int]. *)
Lemma frame_without_keywords_raises go thread_index :
  Frame.parse go thread_index "#1  <signal handler called>"
  = ([], Raises IndexError).
Proof. reflexivity. Qed.

Lemma frame_without_index_raises go thread_index :
  Frame.parse go thread_index "#" = ([], Raises ValueError).
Proof. reflexivity. Qed.

(** ** The locators of a frame *)

(** C4.  A frame line with the keyword from and without the keyword in, as
    gdb prints it when it omits the address: the module goes to [at_file]
    and [from_file] stays [None]. *)
Theorem from_locator_stored_as_at (go : session) (thread_index : Z) :
  0 <= Py.find "#0  __lll_lock_wait () from /lib/libpthread.so.0" " from "
  /\ Py.find "#0  __lll_lock_wait () from /lib/libpthread.so.0" " at " = -1
  /\ exists f,
       Frame.parse go thread_index
         "#0  __lll_lock_wait () from /lib/libpthread.so.0"
       = ([], Returns (f, None))
       /\ Frame.from_file f = None
       /\ Frame.at_file f = Some "/lib/libpthread.so.0".
Proof.
  split; [vm_compute; discriminate|]. split; [reflexivity|].
  eexists. split; [reflexivity|]. split; reflexivity.
Qed.

Lemma classify_locators f :
  Frame.from_file (Frame.classify f) = Frame.from_file f
  /\ Frame.at_file (Frame.classify f) = Frame.at_file f.
Proof.
  unfold Frame.classify. destruct (Py.truthy (Frame.in_func f)); auto.
  destruct (Frame.in_func f) as [fn|]; auto.
  destruct (Py.contains "pthread_mutex_lock" fn); auto.
  destruct (Py.contains "pthread_rwlock" fn); auto.
Qed.

Lemma assign_fields_locators raw found data f :
  result (Frame.assign_fields (Frame.init raw) found data) = Returns f ->
  Frame.from_file f = None \/ Frame.at_file f = None.
Proof.
  unfold Frame.assign_fields. intros H. do 3 step_bind H.
  destruct (Frame.mem "in" found).
  - step_bind H. destruct (Frame.mem "from" found).
    + step_bind H. inversion H; subst. right. reflexivity.
    + destruct (Frame.mem "at" found).
      * step_bind H. inversion H; subst. left. reflexivity.
      * inversion H; subst. left. reflexivity.
  - step_bind H. inversion H; subst. left. reflexivity.
Qed.

(** X15.  No frame the parser returns has both locators: whatever the
    line, at most one of [from_file] and [at_file] is set. *)
Lemma locators_never_both go thread_index raw f o :
  result (Frame.parse go thread_index raw) = Returns (f, o) ->
  Frame.from_file f = None \/ Frame.at_file f = None.
Proof.
  unfold Frame.parse. destruct (Frame.keywords raw) as [found pattern].
  destruct (Re.rmatch pattern raw) as [groups|].
  - intros H. step_bind H. apply assign_fields_locators in E.
    destruct (classify_locators a) as [Hf Ha].
    destruct (Frame.locked (Frame.classify a)).
    + step_bind H. inversion H; subst. rewrite Hf, Ha. assumption.
    + inversion H; subst. rewrite Hf, Ha. assumption.
  - rewrite result_print. intros H. inversion H; subst. left. reflexivity.
Qed.

(** ** The filter of the report *)

(** C9.  With the name of a thread as the filter, the run of Scenario A
    ends in [ValueError]: [int] is applied to every filter word before the
    names are looked at. *)
Theorem name_filter_raises :
  result (ap_detector Scenario.A false ["alpha"]) = Raises ValueError
  /\ result (ap_detector Scenario.A false ["1"; "beta"]) = Raises ValueError.
Proof. split; vm_compute; reflexivity. Qed.

Lemma ints_of_raises names x :
  In x names -> Py.int10 x = None ->
  result (GDB.ints_of names) = Raises ValueError.
Proof.
  induction names as [|y r IH]; [intros []|].
  intros Hin Hx. cbn [GDB.ints_of]. rewrite result_bind. unfold int.
  destruct (Py.int10 y) eqn:E; [|reflexivity].
  rewrite result_ret, result_bind.
  destruct Hin as [->|Hin]; [congruence|]. rewrite (IH Hin Hx). reflexivity.
Qed.

(** X14.  Whatever the snapshot, a filter word that is not an integer ends
    [print_status] with [ValueError] as soon as the loop reaches a blocked
    thread. *)
Lemma non_numeric_filter_raises g show_bt names x th :
  GDB.num_locked g <> 0 -> In th (GDB.threads g) -> Thread.locked th = true ->
  In x names -> Py.int10 x = None ->
  result (GDB.print_status g show_bt (Some names)) = Raises ValueError.
Proof.
  intros Hn Hth Hl Hx Hi. unfold GDB.print_status.
  destruct (Z.eqb_spec (GDB.num_locked g) 0) as [E|_]; [contradiction|].
  rewrite result_bind.
  assert (forall acc,
             result (GDB.for_each (GDB.threads g) (GDB.select (Some names))
                       acc) = Raises ValueError) as Hloop.
  { induction (GDB.threads g) as [|t r IH]; [destruct Hth|].
    intros acc. cbn [GDB.for_each]. rewrite result_bind.
    unfold GDB.select at 1. destruct (Thread.locked t) eqn:Et.
    - cbn [negb]. rewrite result_bind. cbn [GDB.only_show_ints].
      rewrite (ints_of_raises names x Hx Hi). reflexivity.
    - cbn [negb]. rewrite result_ret.
      destruct Hth as [->|Hth]; [congruence|]. apply IH. assumption. }
  rewrite Hloop. reflexivity.
Qed.

(** A blocked thread whose name is also its index is selected twice by a
    filter with that word, and reported twice. *)
Lemma index_and_name_listed_twice :
  printed
    (GDB.print_status
       (before_find_deadlock
          [Thread.set_name "2" (blocked_thread 2 "102" "101");
           running_thread 1 "101"])
       false (Some ["2"]))
  = [Is_waiting_for_a_lock "Thread #2 2" None "Thread #1";
     Is_waiting_for_a_lock "Thread #2 2" None "Thread #1"].
Proof. vm_compute. reflexivity. Qed.

(** * Further properties of the program *)

(** ** The matcher *)

Lemma rmatch_lit l r s :
  Re.rmatch (Re.Lit l :: r) s =
  match Re.strip_prefix l s with
  | Some s' => Re.rmatch r s'
  | None => None
  end.
Proof. reflexivity. Qed.

Lemma rmatch_star k r s :
  Re.rmatch (Re.Star k :: r) s = star_loop (Re.rmatch r) k s.
Proof. reflexivity. Qed.

Lemma rmatch_group pre k r s :
  Re.rmatch (Re.Group pre k :: r) s =
  match Re.strip_prefix pre s with
  | None => None
  | Some s0 => group_loop (Re.rmatch r) k pre "" s0
  end.
Proof. reflexivity. Qed.

Lemma all_in_snoc k acc c :
  all_in k acc = true -> Re.in_cls k c = true ->
  all_in k (acc ++ String c "") = true.
Proof.
  induction acc as [|a acc IH]; simpl; intros Ha Hc.
  - rewrite Hc. reflexivity.
  - apply andb_true_iff in Ha. destruct Ha as [H1 H2].
    rewrite H1. simpl. auto.
Qed.

Lemma star_loop_cont cont k s gs :
  star_loop cont k s = Some gs -> exists s', cont s' = Some gs.
Proof.
  induction s as [|c s IH]; simpl; intros H; [eauto|].
  destruct (Re.in_cls k c); [|eauto].
  destruct (star_loop cont k s) as [gs'|]; [|eauto].
  inversion H; subst. auto.
Qed.

Lemma group_loop_cont cont k pre s : forall acc gs,
  all_in k acc = true ->
  group_loop cont k pre acc s = Some gs ->
  exists body gs' s',
    gs = (pre ++ body) :: gs' /\ all_in k body = true /\ cont s' = Some gs'.
Proof.
  induction s as [|c s IH]; intros acc gs Hacc H; cbn [group_loop] in H.
  - destruct (cont "") as [gs'|] eqn:E; [|discriminate].
    inversion H; subst. exists acc, gs', "". auto.
  - assert (option_map (cons (pre ++ acc)) (cont (String c s)) = Some gs ->
            exists body gs' s',
              gs = (pre ++ body) :: gs' /\ all_in k body = true
              /\ cont s' = Some gs') as Hstop.
    { destruct (cont (String c s)) as [gs'|] eqn:E; [|discriminate].
      intros H'. inversion H'; subst. exists acc, gs', (String c s). auto. }
    destruct (Re.in_cls k c) eqn:Ec; [|auto].
    destruct (group_loop cont k pre (acc ++ String c "") s) as [gs1|] eqn:E1;
      [|auto].
    inversion H; subst. eapply IH; [|exact E1].
    apply all_in_snoc; assumption.
Qed.

(** A match answers one string for each group of the pattern, in order, and
    each is the literal of its group followed by characters of its class. *)
Lemma rmatch_groups r : forall s gs,
  Re.rmatch r s = Some gs -> Forall2 captured (groups_of r) gs.
Proof.
  induction r as [|it r IH]; intros s gs H.
  - inversion H; subst. constructor.
  - destruct it as [l|k|pre k].
    + rewrite rmatch_lit in H. destruct (Re.strip_prefix l s); [|discriminate].
      simpl. eauto.
    + rewrite rmatch_star in H. apply star_loop_cont in H.
      destruct H as [s' H]. simpl. eauto.
    + rewrite rmatch_group in H.
      destruct (Re.strip_prefix pre s) as [s0|]; [|discriminate].
      apply group_loop_cont in H; [|reflexivity].
      destruct H as (body & gs' & s' & -> & Hb & Hc). simpl.
      constructor; [exists body; auto | eauto].
Qed.

Lemma rsearch_groups r : forall s gs,
  Re.rsearch r s = Some gs -> Forall2 captured (groups_of r) gs.
Proof.
  induction s as [|c s IH]; intros gs H; simpl in H.
  - destruct (Re.rmatch r "") eqn:E; [|discriminate].
    inversion H; subst. eapply rmatch_groups; eassumption.
  - destruct (Re.rmatch r (String c s)) eqn:E.
    + inversion H; subst. eapply rmatch_groups; eassumption.
    + auto.
Qed.

Lemma star_loop_total cont k :
  (forall s, cont s <> None) -> forall s, star_loop cont k s <> None.
Proof.
  intros Hc. induction s as [|c s IH]; simpl; [apply Hc|].
  destruct (Re.in_cls k c); [|apply Hc].
  destruct (star_loop cont k s); [discriminate|apply Hc].
Qed.

Lemma group_loop_total cont k pre :
  (forall s, cont s <> None) ->
  forall s acc, group_loop cont k pre acc s <> None.
Proof.
  intros Hc.
  assert (forall acc s, option_map (cons (pre ++ acc)) (cont s) <> None)
    as Hstop.
  { intros acc s. specialize (Hc s). destruct (cont s);
      [discriminate|contradiction]. }
  induction s as [|c s IH]; intros acc; cbn [group_loop]; [apply Hstop|].
  destruct (Re.in_cls k c); [|apply Hstop].
  destruct (group_loop cont k pre (acc ++ String c "") s);
    [discriminate|apply Hstop].
Qed.

(** ** Decimal conversion of a run of digits *)

Lemma digit_not_space c : Py.is_digit c = true -> Py.is_space c = false.
Proof.
  destruct c as [[] [] [] [] [] [] [] []]; vm_compute; congruence.
Qed.

Lemma rstrip_digits s : all_in Re.digit s = true -> Py.rstrip s = s.
Proof.
  induction s as [|c s IH]; simpl; [reflexivity|]. intros H.
  apply andb_true_iff in H. destruct H as [Hc Hs].
  rewrite (IH Hs). destruct s; [|reflexivity].
  rewrite (digit_not_space c Hc). reflexivity.
Qed.

Lemma digits_value_nonneg s : forall acc,
  all_in Re.digit s = true -> 0 <= acc ->
  exists n, Py.digits_value acc s = Some n /\ 0 <= n.
Proof.
  induction s as [|c s IH]; cbn [Py.digits_value all_in Re.in_cls];
    intros acc H Hacc; [eauto|].
  apply andb_true_iff in H. destruct H as [Hc Hs]. rewrite Hc.
  apply IH; [assumption|].
  pose proof (N2Z.is_nonneg (N_of_ascii c - 48)). lia.
Qed.

Lemma int10_digits c s :
  Py.is_digit c = true -> all_in Re.digit s = true ->
  exists n, Py.int10 (String c s) = Some n /\ 0 <= n.
Proof.
  intros Hc Hs.
  assert (all_in Re.digit (String c s) = true) as Hall
    by (simpl; rewrite Hc, Hs; reflexivity).
  destruct (digits_value_nonneg (String c s) 0 Hall (Z.le_refl 0))
    as (n & Hn & Hpos).
  exists n. split; [|assumption]. rewrite <- Hn. unfold Py.int10.
  cbn [Py.lstrip]. rewrite (digit_not_space c Hc), (rstrip_digits _ Hall).
  clear -Hc.
  destruct c as [[] [] [] [] [] [] [] []]; try reflexivity;
    vm_compute in Hc; discriminate Hc.
Qed.

(** A capture of the digit class converts unless it is empty, and never to
    a negative number. *)
Lemma int10_captured d :
  all_in Re.digit d = true ->
  (d = "" /\ Py.int10 d = None)
  \/ (exists n, Py.int10 d = Some n /\ 0 <= n).
Proof.
  destruct d as [|c s]; [left; split; reflexivity|]. intros H. right.
  simpl in H. apply andb_true_iff in H. destruct H as [Hc Hs].
  apply int10_digits; assumption.
Qed.

(** ** Which frame lines stop the parser *)

Lemma result_raise {A} (e : exn) : result (@raise A e) = Raises e.
Proof. reflexivity. Qed.

Lemma getitem_result {A} (t : list A) (i : nat) :
  result (getitem t i)
  = match nth_error t i with
    | Some a => Returns a
    | None => Raises IndexError
    end.
Proof. unfold getitem. destruct (nth_error t i); reflexivity. Qed.

Ltac run_getitem H :=
  rewrite result_bind, getitem_result in H; cbn [nth_error] in H;
  cbv beta iota zeta in H.

Lemma append_empty_r s : s ++ "" = s.
Proof. induction s as [|c s IH]; simpl; [|rewrite IH]; reflexivity. Qed.

Lemma append_snoc acc c s : (acc ++ String c "") ++ s = acc ++ String c s.
Proof. induction acc as [|a acc IH]; simpl; [|rewrite IH]; reflexivity. Qed.

Lemma take_digits_all s : all_in Re.digit (take_digits s) = true.
Proof.
  induction s as [|c s IH]; [reflexivity|]. cbn [take_digits].
  destruct (Py.is_digit c) eqn:E; [|reflexivity].
  cbn [all_in Re.in_cls]. rewrite E, IH. reflexivity.
Qed.

(** The first group of a pattern whose rest always matches holds the whole
    run of digits the text starts with: the repetition is greedy and is
    never taken back. *)
Lemma group_loop_greedy (cont : string -> option (list string)) :
  (forall s, cont s <> None) ->
  forall s acc, exists gs,
    group_loop cont Re.digit "" acc s = Some ((acc ++ take_digits s) :: gs).
Proof.
  intros Hc.
  assert (forall acc s, exists gs,
             option_map (cons ("" ++ acc)) (cont s) = Some (acc :: gs))
    as Hstop.
  { intros acc s. specialize (Hc s).
    destruct (cont s) as [gs|]; [exists gs; reflexivity|contradiction]. }
  induction s as [|c s IH]; intros acc; cbn [group_loop take_digits].
  - rewrite append_empty_r. apply Hstop.
  - cbn [Re.in_cls]. destruct (Py.is_digit c) eqn:E.
    + destruct (IH (acc ++ String c "")) as [gs Hg].
      rewrite Hg, append_snoc. exists gs. reflexivity.
    + rewrite append_empty_r. apply Hstop.
Qed.

Lemma base_pattern_digits rest :
  exists d1,
    Re.rmatch Frame.base_pattern (String "#" rest)
    = Some [take_digits rest; d1].
Proof.
  assert (exists gs, Re.rmatch Frame.base_pattern (String "#" rest)
                     = Some (take_digits rest :: gs)) as [gs H].
  { unfold Frame.base_pattern. rewrite rmatch_lit.
    cbn [Re.strip_prefix Ascii.eqb Bool.eqb].
    rewrite rmatch_group. cbn [Re.strip_prefix].
    apply (group_loop_greedy
             (Re.rmatch [Re.Star Re.blank; Re.Group "" Re.word;
                         Re.Star Re.anychar])).
    intros s1. rewrite rmatch_star. apply star_loop_total.
    intros s2. rewrite rmatch_group. cbn [Re.strip_prefix].
    apply group_loop_total. intros s3. rewrite rmatch_star.
    apply star_loop_total. intros s4. discriminate. }
  pose proof (Forall2_length (rmatch_groups _ _ _ H)) as Hlen.
  destruct gs as [|d1 [|d2 r]]; try discriminate Hlen.
  exists d1. exact H.
Qed.

Lemma keywords_none raw :
  Py.find raw " in " < 0 -> Py.find raw " from " < 0 ->
  Py.find raw " at " < 0 ->
  Frame.keywords raw = ([], Frame.base_pattern).
Proof.
  intros Hin Hfrom Hat. unfold Frame.keywords. cbv zeta.
  rewrite (proj2 (Z.leb_gt _ _) Hin). cbv beta iota.
  rewrite (proj2 (Z.leb_gt _ _) Hfrom). cbv beta iota.
  rewrite (proj2 (Z.leb_gt _ _) Hat). reflexivity.
Qed.

Lemma assign_fields_short f d0 d1 :
  result (Frame.assign_fields f [] [d0; d1])
  = match Py.int10 d0 with
    | Some _ => Raises IndexError
    | None => Raises ValueError
    end.
Proof.
  unfold Frame.assign_fields.
  rewrite result_bind, getitem_result. cbn [nth_error]. cbv beta iota.
  rewrite result_bind. unfold int.
  destruct (Py.int10 d0) as [n|]; cbv beta iota.
  - rewrite result_ret. cbv beta iota.
    rewrite result_bind, getitem_result. cbn [nth_error]. cbv beta iota zeta.
    reflexivity.
  - rewrite result_raise. reflexivity.
Qed.

(** X1.  A frame line that has none of the keywords in, from and at always
    ends [Frame.parse] with an exception: [ValueError], raised by [int],
    when no digit follows the frame marker, and [IndexError], raised by the
    read of [data[2]], when a digit follows it. *)
Theorem keywordless_frame_raises (go : session) (thread_index : Z)
  (rest : string) :
  Py.find (String "#" rest) " in " < 0 ->
  Py.find (String "#" rest) " from " < 0 ->
  Py.find (String "#" rest) " at " < 0 ->
  result (Frame.parse go thread_index (String "#" rest))
  = Raises (if starts_with_digit rest then IndexError else ValueError).
Proof.
  intros Hin Hfrom Hat. unfold Frame.parse.
  rewrite (keywords_none _ Hin Hfrom Hat).
  destruct (base_pattern_digits rest) as [d1 Hm].
  rewrite Hm. rewrite result_bind, assign_fields_short.
  destruct rest as [|c r]; [reflexivity|].
  cbn [take_digits starts_with_digit].
  destruct (Py.is_digit c) eqn:E; [|reflexivity].
  destruct (int10_digits c (take_digits r) E (take_digits_all r))
    as (n & Hn & _).
  rewrite Hn. reflexivity.
Qed.

Lemma keywordless_frame_raises_witness :
  result (Frame.parse Scenario.A 1 "#1  <signal handler called>")
  = Raises IndexError
  /\ result (Frame.parse Scenario.A 1 "#  <signal handler called>")
     = Raises ValueError.
Proof.
  split.
  - apply (keywordless_frame_raises Scenario.A 1
             "1  <signal handler called>"); vm_compute; reflexivity.
  - apply (keywordless_frame_raises Scenario.A 1
             "  <signal handler called>"); vm_compute; reflexivity.
Defined.

Lemma assign_fields_long f found data e :
  ((if Frame.mem "in" found
    then if Frame.mem "from" found || Frame.mem "at" found then 4 else 3
    else 3) <= List.length data)%nat ->
  result (Frame.assign_fields f found data) = Raises e -> e = ValueError.
Proof.
  unfold Frame.assign_fields.
  destruct (Frame.mem "in" found), (Frame.mem "from" found),
    (Frame.mem "at" found); cbn [orb]; intros Hlen H;
    (destruct data as [|d0 [|d1 [|d2 data]]];
     [simpl in Hlen; lia|simpl in Hlen; lia|simpl in Hlen; lia|]);
    try (destruct data as [|d3 data]; [simpl in Hlen; lia|]);
    run_getitem H;
    rewrite result_bind in H; unfold int in H at 1;
    (destruct (Py.int10 d0) as [n|]; cbv beta iota in H;
     [rewrite result_ret in H; cbv beta iota zeta in H
     |rewrite result_raise in H; inversion H; reflexivity]);
    repeat run_getitem H;
    rewrite result_ret in H; discriminate H.
Qed.

Lemma keywords_groups raw found pattern :
  Frame.keywords raw = (found, pattern) ->
  0 <= Py.find raw " in " \/ 0 <= Py.find raw " from "
  \/ 0 <= Py.find raw " at " ->
  ((if Frame.mem "in" found
    then if Frame.mem "from" found || Frame.mem "at" found then 4 else 3
    else 3) <= List.length (groups_of pattern))%nat.
Proof.
  unfold Frame.keywords. cbv zeta.
  destruct (Z.leb_spec 0 (Py.find raw " in "));
    destruct (Z.leb_spec 0 (Py.find raw " from "));
    destruct (Z.leb_spec 0 (Py.find raw " at "));
    cbv beta iota; intros K Hk; inversion K; subst;
    vm_compute; lia.
Qed.

Lemma parse_locked_state_returns go thread_index f :
  exists o, result (Frame.parse_locked_state go thread_index f) = Returns o.
Proof.
  unfold Frame.parse_locked_state.
  destruct (Frame.scan_registers false false _) as [mem_addr|];
    [|eexists; reflexivity].
  unfold Frame.read_owner.
  destruct (Frame.lock_type f) as [[|]|];
    try (eexists; rewrite result_print; reflexivity).
  destruct (Re.rsearch Frame.owner_pattern _) as [groups|] eqn:E;
    [|eexists; rewrite result_print; reflexivity].
  apply rsearch_groups in E. unfold Frame.owner_pattern in E.
  cbn [groups_of] in E.
  inversion E as [|pk g l l' Hc Ht]; subst. inversion Ht; subst.
  eexists. reflexivity.
Qed.

(** X2.  A frame line with at least one of the keywords in, from and at
    never ends [Frame.parse] with [IndexError]: every group the code reads
    is there, and the only exception left is the [ValueError] of [int]. *)
Theorem keyword_frame_no_index_error (go : session) (thread_index : Z)
  (raw : string) (e : exn) :
  0 <= Py.find raw " in " \/ 0 <= Py.find raw " from "
  \/ 0 <= Py.find raw " at " ->
  result (Frame.parse go thread_index raw) = Raises e -> e = ValueError.
Proof.
  intros Hk H. unfold Frame.parse in H.
  destruct (Frame.keywords raw) as [found pattern] eqn:K.
  destruct (Re.rmatch pattern raw) as [groups|] eqn:M;
    [|rewrite result_print, result_ret in H; discriminate H].
  rewrite result_bind in H.
  destruct (result (Frame.assign_fields (Frame.init raw) found groups))
    as [f|e'] eqn:A.
  - cbv zeta in H. destruct (Frame.locked (Frame.classify f)).
    + rewrite result_bind in H.
      destruct (parse_locked_state_returns go thread_index
                  (Frame.classify f)) as [o Ho].
      rewrite Ho, result_ret in H. discriminate H.
    + rewrite result_ret in H. discriminate H.
  - inversion H; subst e'. eapply assign_fields_long; [|exact A].
    apply rmatch_groups in M. apply Forall2_length in M. rewrite <- M.
    eapply keywords_groups; eassumption.
Qed.

Lemma keyword_frame_no_index_error_witness :
  exists e,
    result (Frame.parse Scenario.A 1 "# in  ()") = Raises e
    /\ e = ValueError.
Proof.
  eexists. split; [vm_compute; reflexivity|].
  apply (keyword_frame_no_index_error Scenario.A 1 "# in  ()").
  - left. vm_compute. discriminate.
  - vm_compute. reflexivity.
Defined.

(** ** How a frame is classified *)

Lemma assign_fields_unlocked raw found data f :
  result (Frame.assign_fields (Frame.init raw) found data) = Returns f ->
  Frame.locked f = false /\ Frame.lock_type f = None.
Proof.
  unfold Frame.assign_fields. intros H. do 3 step_bind H.
  destruct (Frame.mem "in" found).
  - step_bind H. destruct (Frame.mem "from" found).
    + step_bind H. inversion H; subst. split; reflexivity.
    + destruct (Frame.mem "at" found).
      * step_bind H. inversion H; subst. split; reflexivity.
      * inversion H; subst. split; reflexivity.
  - step_bind H. inversion H; subst. split; reflexivity.
Qed.

Lemma classify_locked f :
  Frame.locked f = false ->
  Frame.in_func (Frame.classify f) = Frame.in_func f
  /\ (Frame.locked (Frame.classify f) = true <->
      exists fn, Frame.in_func f = Some fn
                 /\ Py.contains "pthread_mutex_lock" fn
                    || Py.contains "pthread_rwlock" fn = true).
Proof.
  intros Hl. unfold Frame.classify.
  destruct (Frame.in_func f) as [fn|] eqn:E.
  - cbn [Py.truthy]. destruct (String.eqb_spec fn "") as [->|Hne].
    + cbn [negb]. rewrite E. split; [reflexivity|]. rewrite Hl.
      split; [discriminate|]. intros (fn & Hfn & Hc).
      inversion Hfn; subst. vm_compute in Hc. discriminate Hc.
    + cbn [negb].
      destruct (Py.contains "pthread_mutex_lock" fn) eqn:Cm;
        [|destruct (Py.contains "pthread_rwlock" fn) eqn:Cr]; cbn;
        rewrite ?E, ?Hl; (split; [reflexivity|]).
      * split; [|reflexivity]. intros _. exists fn. rewrite Cm. auto.
      * split; [|reflexivity]. intros _. exists fn. rewrite Cm, Cr. auto.
      * split; [discriminate|]. intros (fn' & Hfn & Hc).
        inversion Hfn; subst. rewrite Cm, Cr in Hc. discriminate Hc.
  - cbn [Py.truthy]. rewrite E, Hl. split; [reflexivity|].
    split; [discriminate|]. intros (fn & Hfn & _). discriminate Hfn.
Qed.

Lemma parse_locked_state_owner go thread_index f o :
  result (Frame.parse_locked_state go thread_index f) = Returns (Some o) ->
  Frame.lock_type f = Some pthread_mutex_t.
Proof.
  unfold Frame.parse_locked_state.
  destruct (Frame.scan_registers false false _) as [mem_addr|];
    [|intros H; inversion H].
  unfold Frame.read_owner.
  destruct (Frame.lock_type f) as [[|]|]; [reflexivity| |];
    rewrite result_print, result_ret; intros H; inversion H.
Qed.

(** X3.  A frame the parser returns is marked as blocking exactly when its
    function name contains pthread_mutex_lock or pthread_rwlock, and an
    owner LWP is only ever stored for a blocking frame of the mutex kind: a
    read-write lock frame never resolves an owner. *)
Theorem frame_classification (go : session) (thread_index : Z) (raw : string)
  (f : Frame.t) (o : option string) :
  result (Frame.parse go thread_index raw) = Returns (f, o) ->
  (Frame.locked f = true <->
   exists fn, Frame.in_func f = Some fn
              /\ Py.contains "pthread_mutex_lock" fn
                 || Py.contains "pthread_rwlock" fn = true)
  /\ (o <> None ->
      Frame.locked f = true /\ Frame.lock_type f = Some pthread_mutex_t).
Proof.
  unfold Frame.parse. destruct (Frame.keywords raw) as [found pattern].
  destruct (Re.rmatch pattern raw) as [groups|].
  - intros H. step_bind H. apply assign_fields_unlocked in E.
    destruct E as [Hl _]. destruct (classify_locked a Hl) as [Hin Hiff].
    cbv zeta in H. destruct (Frame.locked (Frame.classify a)) eqn:L.
    + step_bind H. inversion H; subst. rewrite Hin. split.
      * rewrite L. exact Hiff.
      * intros Ho. split; [exact L|].
        destruct o as [o|]; [|contradiction].
        eapply parse_locked_state_owner. eassumption.
    + inversion H; subst. rewrite Hin. split.
      * rewrite L. exact Hiff.
      * intros Ho. contradiction.
  - rewrite result_print, result_ret. intros H. inversion H; subst.
    cbn. split; [|intros Ho; contradiction].
    split; [discriminate|]. intros (fn & Hfn & _). discriminate Hfn.
Qed.

Lemma frame_classification_witness :
  Frame.locked lock_call_frame = true
  /\ Frame.lock_type lock_call_frame = Some pthread_mutex_t.
Proof.
  assert (result (Frame.parse Scenario.A 1 (Frame.raw lock_call_frame))
          = Returns (lock_call_frame, Some "102")) as H
    by (vm_compute; reflexivity).
  apply (proj2 (frame_classification Scenario.A 1
                  (Frame.raw lock_call_frame) lock_call_frame
                  (Some "102") H)).
  discriminate.
Defined.

(** ** When the lock resolver gives up *)





(** ** Reading the owner out of the structure dump *)

Lemma group_loop_digits s : forall acc,
  group_loop (Re.rmatch []) Re.digit "" acc s = Some [acc ++ take_digits s].
Proof.
  induction s as [|c s IH]; intros acc; cbn [group_loop take_digits].
  - cbn. rewrite append_empty_r. reflexivity.
  - cbn [Re.in_cls]. destruct (Py.is_digit c).
    + rewrite IH, append_snoc. reflexivity.
    + cbn. rewrite append_empty_r. reflexivity.
Qed.

Lemma rmatch_owner s :
  Re.rmatch Frame.owner_pattern s
  = match Re.strip_prefix "__owner = " s with
    | Some r => Some [take_digits r]
    | None => None
    end.
Proof.
  unfold Frame.owner_pattern. rewrite rmatch_lit.
  destruct (Re.strip_prefix "__owner = " s) as [r|]; [|reflexivity].
  rewrite rmatch_group. cbn [Re.strip_prefix].
  rewrite group_loop_digits. reflexivity.
Qed.

Lemma rsearch_owner s :
  Re.rsearch Frame.owner_pattern s
  = option_map (fun r => [take_digits r]) (after_first "__owner = " s).
Proof.
  induction s as [|c s IH]; cbn [Re.rsearch after_first];
    rewrite rmatch_owner;
    destruct (Re.strip_prefix "__owner = " _); try reflexivity.
  exact IH.
Qed.


(** ** The entries of the deadlock list *)

(** X6.  Every entry of the deadlock list of a run is a real mutual wait:
    both threads are threads of the snapshot, both are blocked, each one's
    resolved owner is the LWP of the other, and the LWP of the first is not
    empty. *)
Theorem reported_deadlock_is_mutual_wait (go : session) (g : GDB.t)
  (a b : Thread.t) :
  result (GDB.parse_thread_state go GDB.init) = Returns g ->
  In (a, b) (GDB.deadlock_threads g) ->
  In a (GDB.threads g) /\ In b (GDB.threads g)
  /\ waits_for a b /\ waits_for b a /\ Thread.lwp a <> "".
Proof.
  intros Hrun Hin. apply parse_thread_state_spec in Hrun.
  destruct Hrun as [_ Hd]. rewrite Hd in Hin. apply in_pairs_of in Hin.
  destruct Hin as (Ha & Hl & Ho & Hm).
  apply lookup_Some in Ho. destruct Ho as [Hb Ho].
  apply mutual_spec in Hm. destruct Hm as (Hlb & Hob & Hne).
  repeat split; assumption.
Qed.

Lemma reported_deadlock_is_mutual_wait_witness :
  let g := snapshot_of Scenario.A in
  let a := nth 0 (GDB.threads g) (running_thread 0 "") in
  let b := nth 1 (GDB.threads g) (running_thread 0 "") in
  waits_for a b /\ waits_for b a.
Proof.
  intros g a b.
  destruct (reported_deadlock_is_mutual_wait Scenario.A g a b)
    as (_ & _ & H1 & H2 & _).
  - vm_compute. reflexivity.
  - vm_compute. left. reflexivity.
  - split; assumption.
Defined.

(** X7.  A blocked thread whose resolved owner is its own LWP is put in the
    deadlock list as a pair with itself, when LWPs are distinct and its own
    is not empty. *)
Theorem self_wait_reported (g : GDB.t) (th : Thread.t) :
  NoDup (map Thread.lwp (GDB.threads g)) ->
  In th (GDB.threads g) -> Thread.locked th = true ->
  Thread.lock_owner_lwp th = Some (Thread.lwp th) -> Thread.lwp th <> "" ->
  exists g', result (GDB.find_deadlock g) = Returns g'
             /\ In (th, th) (GDB.deadlock_threads g').
Proof.
  intros Hu Hin Hl Ho Hne. rewrite find_deadlock_result.
  eexists. split; [reflexivity|]. simpl. apply in_or_app. right.
  apply in_pairs_of. repeat split; auto.
  - rewrite Ho. apply lookup_unique; assumption.
  - unfold GDB.mutual. rewrite Hl, Ho. simpl. rewrite String.eqb_refl.
    destruct (String.eqb_spec (Thread.lwp th) "");
      [contradiction|reflexivity].
Qed.

Lemma self_wait_reported_witness :
  exists g',
    result (GDB.find_deadlock
              (before_find_deadlock [blocked_thread 1 "101" "101"]))
    = Returns g'
    /\ In (blocked_thread 1 "101" "101", blocked_thread 1 "101" "101")
          (GDB.deadlock_threads g').
Proof.
  apply (self_wait_reported
           (before_find_deadlock [blocked_thread 1 "101" "101"])
           (blocked_thread 1 "101" "101")).
  - simpl. repeat constructor. simpl. tauto.
  - left. reflexivity.
  - reflexivity.
  - reflexivity.
  - discriminate.
Defined.

(** X8.  [find_deadlock] never raises and only appends: the threads, the
    counter and the entries already in the deadlock list stay.  What it
    adds comes thread by thread, in the order of the snapshot: for each
    thread no entry or one, none for a thread that is not blocked, and the
    entry of a thread has that thread first and, second, a thread of the
    snapshot whose LWP is the owner the first one resolved. *)
Theorem find_deadlock_appends (g : GDB.t) :
  exists (entry : Thread.t -> list (Thread.t * Thread.t)) g',
    result (GDB.find_deadlock g) = Returns g'
    /\ GDB.threads g' = GDB.threads g
    /\ GDB.num_locked g' = GDB.num_locked g
    /\ GDB.deadlock_threads g'
       = (GDB.deadlock_threads g ++ flat_map entry (GDB.threads g))%list
    /\ forall th,
         (List.length (entry th) <= 1)%nat
         /\ (Thread.locked th = false -> entry th = [])
         /\ forall d, In d (entry th) ->
              fst d = th /\ In (snd d) (GDB.threads g)
              /\ Thread.lock_owner_lwp th = Some (Thread.lwp (snd d)).
Proof.
  exists (pair_of (GDB.threads g)). eexists.
  split; [apply find_deadlock_result|]. split; [reflexivity|].
  split; [reflexivity|]. split; [reflexivity|].
  intros th. unfold pair_of. destruct (Thread.locked th).
  - destruct (GDB.lookup (GDB.threads g) (Thread.lock_owner_lwp th))
      as [ow|] eqn:Ho.
    + apply lookup_Some in Ho. destruct Ho as [Hin Hl].
      destruct (GDB.mutual th ow).
      * split; [apply Nat.le_refl|]. split; [discriminate|].
        intros d [<-|[]]. cbn [fst snd]. auto.
      * split; [apply Nat.le_0_l|]. split; [reflexivity|]. intros d [].
    + split; [apply Nat.le_0_l|]. split; [reflexivity|]. intros d [].
  - split; [apply Nat.le_0_l|]. split; [reflexivity|]. intros d [].
Qed.

(** ** Looking up and naming threads *)

Lemma find_first {A} (p : A -> bool) (l : list A) (x : A) :
  List.find p l = Some x ->
  exists pre post, l = (pre ++ x :: post)%list
                   /\ forallb (fun y => negb (p y)) pre = true.
Proof.
  induction l as [|y r IH]; simpl; [discriminate|].
  destruct (p y) eqn:E.
  - intros H. inversion H; subst. exists [], r. auto.
  - intros H. destruct (IH H) as (pre & post & -> & Hpre).
    exists (y :: pre), post. simpl. rewrite E, Hpre. auto.
Qed.

(** X9.  [thread_by_lwp] answers the first thread of the snapshot whose LWP
    is the argument, and prints nothing; when no thread has that LWP, and
    always for [None], it answers [None] after one diagnostic that lists
    the LWPs of all threads. *)
Theorem thread_by_lwp_spec (g : GDB.t) (l : option string) :
  (exists th pre post,
      GDB.thread_by_lwp g l = ([], Returns (Some th))
      /\ l = Some (Thread.lwp th)
      /\ GDB.threads g = (pre ++ th :: post)%list
      /\ forall t, In t pre -> Some (Thread.lwp t) <> l)
  \/ (GDB.thread_by_lwp g l
      = ([Did_not_find l (map Thread.lwp (GDB.threads g))], Returns None)
      /\ forall t, In t (GDB.threads g) -> Some (Thread.lwp t) <> l).
Proof.
  unfold GDB.thread_by_lwp.
  destruct (GDB.lookup (GDB.threads g) l) as [th|] eqn:E.
  - left. pose proof (lookup_Some _ _ _ E) as [_ Hl].
    unfold GDB.lookup in E. apply find_first in E.
    destruct E as (pre & post & Ht & Hpre).
    exists th, pre, post. repeat split; auto.
    intros t Hin Heq. rewrite forallb_forall in Hpre.
    specialize (Hpre t Hin). rewrite <- Heq in Hpre. simpl in Hpre.
    rewrite String.eqb_refl in Hpre. discriminate.
  - right. split; [reflexivity|]. intros t Hin Heq.
    exact (lookup_None _ _ _ E Hin (eq_sym Heq)).
Qed.

Lemma update_first_lwps p n ths :
  map Thread.lwp (GDB.update_first p (Thread.set_name n) ths)
  = map Thread.lwp ths.
Proof.
  induction ths as [|th r IH]; simpl; [reflexivity|].
  destruct (p th); simpl; [reflexivity|rewrite IH; reflexivity].
Qed.

Lemma lookup_update_first l l' n ths :
  GDB.lookup (GDB.update_first (GDB.has_lwp (Some l)) (Thread.set_name n) ths)
    (Some l')
  = if (l =? l')%string
    then option_map (Thread.set_name n) (GDB.lookup ths (Some l'))
    else GDB.lookup ths (Some l').
Proof.
  unfold GDB.lookup.
  induction ths as [|th r IH]; simpl; [destruct (l =? l')%string; reflexivity|].
  destruct (String.eqb_spec (Thread.lwp th) l) as [El|El]; simpl.
  - destruct (String.eqb_spec l l') as [Ell|Ell].
    + subst. rewrite String.eqb_refl. reflexivity.
    + destruct (String.eqb_spec (Thread.lwp th) l'); [congruence|reflexivity].
  - destruct (String.eqb_spec (Thread.lwp th) l') as [El'|El'].
    + destruct (String.eqb_spec l l'); [congruence|reflexivity].
    + exact IH.
Qed.

(** X10.  [set_thread_name] never raises and leaves the LWPs, the counter
    and the deadlock list as they are.  A later lookup of the named LWP
    answers the thread found before, with the new name; a lookup of any
    other LWP answers what it answered before; and when no thread has the
    LWP the snapshot does not change. *)
Theorem set_thread_name_spec (g : GDB.t) (l n : string) :
  exists g',
    result (GDB.set_thread_name g l n) = Returns g'
    /\ map Thread.lwp (GDB.threads g') = map Thread.lwp (GDB.threads g)
    /\ GDB.num_locked g' = GDB.num_locked g
    /\ GDB.deadlock_threads g' = GDB.deadlock_threads g
    /\ GDB.lookup (GDB.threads g') (Some l)
       = option_map (Thread.set_name n) (GDB.lookup (GDB.threads g) (Some l))
    /\ (forall l', l' <> l ->
          GDB.lookup (GDB.threads g') (Some l')
          = GDB.lookup (GDB.threads g) (Some l'))
    /\ (GDB.lookup (GDB.threads g) (Some l) = None -> g' = g).
Proof.
  unfold GDB.set_thread_name, GDB.thread_by_lwp.
  destruct (GDB.lookup (GDB.threads g) (Some l)) as [th|] eqn:E.
  - eexists. split; [reflexivity|]. simpl.
    split; [apply update_first_lwps|]. split; [reflexivity|].
    split; [reflexivity|]. split; [|split].
    + rewrite lookup_update_first, String.eqb_refl, E. reflexivity.
    + intros l' Hne. rewrite lookup_update_first.
      destruct (String.eqb_spec l l'); [congruence|reflexivity].
    + discriminate.
  - exists g. split; [reflexivity|]. rewrite E. repeat split; reflexivity.
Qed.

(** ** The report with and without blocked threads *)

Lemma bind_eq {A B} (m : M A) (f : A -> M B) o a :
  m = (o, Returns a) ->
  bind m f = ((o ++ printed (f a))%list, result (f a)).
Proof. intros ->. unfold bind. destruct (f a); reflexivity. Qed.

Lemma bind_ret {A B} (a : A) (f : A -> M B) : bind (ret a) f = f a.
Proof. unfold bind, ret. destruct (f a); reflexivity. Qed.

Lemma no_blocked_no_frames l :
  Forall (fun th => Thread.locked th
                    = negb (blocking_frames th =? 0)%nat) l ->
  list_sum (map blocking_frames l) = 0%nat <-> filter Thread.locked l = [].
Proof.
  induction 1 as [|th r Hth _ IH]; [simpl; tauto|].
  cbn [map list_sum filter]. rewrite Hth.
  destruct (blocking_frames th) as [|n]; cbn [Nat.eqb negb].
  - exact IH.
  - split; intros E; discriminate E.
Qed.

(** X11.  In the snapshot of a run the counter is zero exactly when no
    thread is marked blocked, and then [print_status] prints the single line
    "There are no locked threads" and returns, whatever the flags and the
    filter are: the filter is not looked at. *)
Theorem no_blocked_thread_status (go : session) (g : GDB.t) (show_bt : bool)
  (only_show : option (list string)) :
  result (GDB.parse_thread_state go GDB.init) = Returns g ->
  (GDB.num_locked g = 0 <-> blocked_threads g = 0%nat)
  /\ (blocked_threads g = 0%nat ->
      GDB.print_status g show_bt only_show
      = ([There_are_no_locked_threads], Returns tt)).
Proof.
  intros H. apply parse_thread_state_spec in H. destruct H as [[Hn Hf] _].
  pose proof (no_blocked_no_frames _ Hf) as Hz.
  assert (GDB.num_locked g = 0 <-> blocked_threads g = 0%nat) as Hiff.
  { unfold blocked_threads. rewrite length_zero_iff_nil, <- Hz, Hn.
    unfold total_blocking_frames. lia. }
  split; [exact Hiff|]. intros Hb. apply Hiff in Hb.
  unfold GDB.print_status. rewrite Hb. reflexivity.
Qed.

Lemma no_blocked_thread_status_witness :
  GDB.print_status (snapshot_of idle) true (Some ["alpha"])
  = ([There_are_no_locked_threads], Returns tt).
Proof.
  assert (result (GDB.parse_thread_state idle GDB.init)
          = Returns (snapshot_of idle)) as H by (vm_compute; reflexivity).
  apply (proj2 (no_blocked_thread_status idle (snapshot_of idle) true
                  (Some ["alpha"]) H)).
  vm_compute. reflexivity.
Defined.

(** ** The filter loop *)

Lemma ints_of_silent names : printed (GDB.ints_of names) = [].
Proof.
  induction names as [|x r IH]; [reflexivity|].
  cbn [GDB.ints_of]. rewrite printed_bind. unfold int.
  destruct (Py.int10 x) as [n|]; [|reflexivity].
  rewrite result_ret. rewrite printed_bind.
  destruct (result (GDB.ints_of r)); rewrite IH; reflexivity.
Qed.

Lemma only_show_ints_silent only_show :
  printed (GDB.only_show_ints only_show) = [].
Proof. destruct only_show; [apply ints_of_silent|reflexivity]. Qed.

Lemma select_unlocked only_show th acc :
  Thread.locked th = false -> GDB.select only_show th acc = ret acc.
Proof. intros H. unfold GDB.select. rewrite H. reflexivity. Qed.

Lemma select_raises only_show e th acc :
  Thread.locked th = true ->
  result (GDB.only_show_ints only_show) = Raises e ->
  GDB.select only_show th acc = ([], Raises e).
Proof.
  intros Hl He. unfold GDB.select. rewrite Hl. cbn [negb]. cbv zeta.
  pose proof (only_show_ints_silent only_show) as Hs.
  destruct (GDB.only_show_ints only_show) as [o r].
  unfold result, printed in *. cbn [fst snd] in *. subst o r. reflexivity.
Qed.

Lemma select_loop_raises only_show e ths th :
  In th ths -> Thread.locked th = true ->
  result (GDB.only_show_ints only_show) = Raises e ->
  forall acc, GDB.for_each ths (GDB.select only_show) acc = ([], Raises e).
Proof.
  intros Hin Hl He. induction ths as [|t r IH]; [destruct Hin|].
  intros acc. cbn [GDB.for_each]. destruct (Thread.locked t) eqn:Et.
  - rewrite (select_raises only_show e t acc Et He). reflexivity.
  - rewrite (select_unlocked only_show t acc Et), bind_ret.
    destruct Hin as [->|Hin]; [congruence|]. apply IH. exact Hin.
Qed.

(** X12.  With its default filter, [None], [print_status] raises
    [TypeError] as soon as the snapshot has a blocked thread, before it has
    printed anything: the thread is appended, and then the filter is
    iterated over. *)
Theorem default_filter_raises (g : GDB.t) (show_bt : bool) (th : Thread.t) :
  GDB.num_locked g <> 0 -> In th (GDB.threads g) -> Thread.locked th = true ->
  GDB.print_status g show_bt None = ([], Raises TypeError).
Proof.
  intros Hn Hin Hl. unfold GDB.print_status.
  destruct (Z.eqb_spec (GDB.num_locked g) 0) as [E|_]; [contradiction|].
  rewrite (select_loop_raises None TypeError _ th Hin Hl eq_refl).
  reflexivity.
Qed.

Lemma default_filter_raises_witness :
  GDB.print_status (before_find_deadlock [blocked_thread 1 "101" "102"])
    false None
  = ([], Raises TypeError).
Proof.
  apply (default_filter_raises
           (before_find_deadlock [blocked_thread 1 "101" "102"]) false
           (blocked_thread 1 "101" "102")).
  - vm_compute. discriminate.
  - left. reflexivity.
  - reflexivity.
Defined.

Lemma select_numeric names ns th acc :
  names <> [] -> result (GDB.ints_of names) = Returns ns ->
  GDB.select (Some names) th acc = ret (acc ++ selected_by names ns th)%list.
Proof.
  intros Hne Hi. unfold GDB.select, selected_by.
  destruct (Thread.locked th); cbn [negb];
    [|rewrite app_nil_r; reflexivity].
  destruct names as [|x r]; [contradiction|].
  cbn [GDB.empty_filter GDB.only_show_ints]. cbv zeta.
  pose proof (ints_of_silent (x :: r)) as Hs.
  destruct (GDB.ints_of (x :: r)) as [o res].
  unfold result, printed in *. cbn [fst snd] in *. subst o res.
  change (@nil output, Returns ns) with (ret ns). rewrite bind_ret.
  destruct (existsb (Z.eqb (Thread.index th)) ns);
    destruct (GDB.name_selected th (Some (x :: r)));
    cbn [app]; rewrite <- ?app_assoc, ?app_nil_r; reflexivity.
Qed.

Lemma select_numeric_loop names ns ths :
  names <> [] -> result (GDB.ints_of names) = Returns ns ->
  forall acc,
    GDB.for_each ths (GDB.select (Some names)) acc
    = ret (acc ++ flat_map (selected_by names ns) ths)%list.
Proof.
  intros Hne Hi. induction ths as [|th r IH]; intros acc.
  - cbn [GDB.for_each flat_map]. rewrite app_nil_r. reflexivity.
  - cbn [GDB.for_each flat_map].
    rewrite (select_numeric names ns th acc Hne Hi), bind_ret, IH.
    rewrite app_assoc. reflexivity.
Qed.

Lemma in_selected_by names ns th x :
  In x (selected_by names ns th) <->
  x = th /\ Thread.locked th = true
  /\ (In (Thread.index th) ns
      \/ exists n, Thread.name th = Some n /\ n <> "" /\ In n names).
Proof.
  unfold selected_by. destruct (Thread.locked th);
    [|split; [intros []|intros (_ & H & _); discriminate H]].
  rewrite in_app_iff.
  assert (existsb (Z.eqb (Thread.index th)) ns = true
          <-> In (Thread.index th) ns) as Hidx.
  { rewrite existsb_exists. split.
    - intros (y & Hy & E). apply Z.eqb_eq in E. subst y. exact Hy.
    - intros Hy. exists (Thread.index th). split; [exact Hy|apply Z.eqb_refl]. }
  assert (GDB.name_selected th (Some names) = true
          <-> exists n, Thread.name th = Some n /\ n <> "" /\ In n names)
    as Hname.
  { unfold GDB.name_selected. destruct (Thread.name th) as [n|].
    - cbn [Py.truthy]. rewrite andb_true_iff, negb_true_iff.
      unfold Frame.mem. rewrite existsb_exists. split.
      + intros [Hn (y & Hy & E)]. apply String.eqb_eq in E. subst y.
        exists n. split; [reflexivity|]. split; [|exact Hy].
        intros ->. discriminate Hn.
      + intros (n' & Hn' & Hne & Hy). inversion Hn'; subst n'. split.
        * destruct (String.eqb_spec n ""); [contradiction|reflexivity].
        * exists n. split; [exact Hy|apply String.eqb_refl].
    - split; [discriminate|]. intros (n & Hn & _). discriminate Hn. }
  split.
  - intros [H|H].
    + destruct (existsb (Z.eqb (Thread.index th)) ns) eqn:E; [|destruct H].
      destruct H as [<-|[]]. split; [reflexivity|]. split; [reflexivity|].
      left. apply Hidx. reflexivity.
    + destruct (GDB.name_selected th (Some names)) eqn:E; [|destruct H].
      destruct H as [<-|[]]. split; [reflexivity|]. split; [reflexivity|].
      right. apply Hname. reflexivity.
  - intros (-> & _ & [H|H]).
    + left. apply Hidx in H. rewrite H. left. reflexivity.
    + right. apply Hname in H. rewrite H. left. reflexivity.
Qed.

(** X13.  With a filter of one or more words that all convert to integers,
    [print_status] returns.  It reports the blocked threads whose index is
    one of the integers or whose name is one of the words, in the order of
    the snapshot, and after them it prints one line for every entry of the
    deadlock list: the filter does not apply to the deadlock lines. *)
Theorem numeric_filter_status (g : GDB.t) (show_bt : bool)
  (names : list string) (ns : list Z) :
  GDB.num_locked g <> 0 -> names <> [] ->
  result (GDB.ints_of names) = Returns ns ->
  GDB.print_status g show_bt (Some names)
  = ((printed (GDB.for_each (flat_map (selected_by names ns) (GDB.threads g))
                 (GDB.report g show_bt) tt)
      ++ map deadlock_line (GDB.deadlock_threads g))%list,
     Returns tt)
  /\ forall th,
       In th (flat_map (selected_by names ns) (GDB.threads g)) <->
       In th (GDB.threads g) /\ Thread.locked th = true
       /\ (In (Thread.index th) ns
           \/ exists n, Thread.name th = Some n /\ n <> "" /\ In n names).
Proof.
  intros Hn Hne Hi. split.
  - unfold GDB.print_status.
    destruct (Z.eqb_spec (GDB.num_locked g) 0) as [E|_]; [contradiction|].
    rewrite (select_numeric_loop names ns (GDB.threads g) Hne Hi []).
    rewrite bind_ret. cbn [app].
    pose proof (loop_returns (GDB.report g show_bt)
                  (flat_map (selected_by names ns) (GDB.threads g))
                  (report_returns g show_bt)) as Hr.
    destruct (GDB.for_each (flat_map (selected_by names ns) (GDB.threads g))
                (GDB.report g show_bt) tt) as [o r].
    unfold result, printed in *. cbn [fst snd] in *. subst r.
    rewrite (bind_eq _ _ o tt eq_refl), deadlock_lines. reflexivity.
  - intros th. rewrite in_flat_map. split.
    + intros (t & Ht & Hin). apply in_selected_by in Hin.
      destruct Hin as (-> & Hl & Hs). auto.
    + intros (Ht & Hl & Hs). exists th. split; [exact Ht|].
      apply in_selected_by. auto.
Qed.

Lemma numeric_filter_status_witness :
  printed (GDB.print_status (snapshot_of Scenario.A) false (Some ["1"]))
  = [Is_waiting_for_a_lock "Thread #1 alpha" (Some "first") "Thread #2 beta";
     Deadlock_between "Thread #2 beta" "Thread #1 alpha";
     Deadlock_between "Thread #1 alpha" "Thread #2 beta"].
Proof.
  assert (GDB.num_locked (snapshot_of Scenario.A) <> 0) as Hn
    by (vm_compute; discriminate).
  assert (["1"] <> @nil string) as Hne by discriminate.
  assert (result (GDB.ints_of ["1"]) = Returns [1]) as Hi by reflexivity.
  rewrite (proj1 (numeric_filter_status (snapshot_of Scenario.A) false
                    ["1"] [1] Hn Hne Hi)).
  vm_compute. reflexivity.
Defined.

Lemma non_numeric_filter_raises_witness :
  result (GDB.print_status
            (before_find_deadlock [blocked_thread 1 "101" "102"]) false
            (Some ["alpha"]))
  = Raises ValueError.
Proof.
  apply (non_numeric_filter_raises
           (before_find_deadlock [blocked_thread 1 "101" "102"]) false
           ["alpha"] "alpha" (blocked_thread 1 "101" "102")).
  - vm_compute. discriminate.
  - left. reflexivity.
  - reflexivity.
  - left. reflexivity.
  - reflexivity.
Defined.

Lemma locators_never_both_witness :
  Frame.from_file lock_call_frame = None
  \/ Frame.at_file lock_call_frame = None.
Proof.
  assert (result (Frame.parse Scenario.A 1 (Frame.raw lock_call_frame))
          = Returns (lock_call_frame, Some "102")) as H
    by (vm_compute; reflexivity).
  exact (locators_never_both Scenario.A 1 (Frame.raw lock_call_frame)
           lock_call_frame (Some "102") H).
Defined.

(** ** Frame lines that do not match their pattern *)

Lemma silent_bind {A B} (m : M A) (f : A -> M B) :
  printed m = [] -> (forall a, printed (f a) = []) -> printed (bind m f) = [].
Proof.
  intros Hm Hf. rewrite printed_bind.
  destruct (result m); rewrite Hm; [apply Hf|reflexivity].
Qed.

Lemma getitem_silent {A} (t : list A) (i : nat) : printed (getitem t i) = [].
Proof. unfold getitem. destruct (nth_error t i); reflexivity. Qed.

Lemma int_silent s : printed (int s) = [].
Proof. unfold int. destruct (Py.int10 s); reflexivity. Qed.

Lemma assign_fields_silent f found data :
  printed (Frame.assign_fields f found data) = [].
Proof.
  unfold Frame.assign_fields.
  apply silent_bind; [apply getitem_silent|intros d0].
  apply silent_bind; [apply int_silent|intros i].
  apply silent_bind; [apply getitem_silent|intros d1]. cbv zeta.
  destruct (Frame.mem "in" found).
  - apply silent_bind; [apply getitem_silent|intros d2].
    destruct (Frame.mem "from" found);
      [apply silent_bind; [apply getitem_silent|intros; reflexivity]|].
    destruct (Frame.mem "at" found);
      [apply silent_bind; [apply getitem_silent|intros; reflexivity]
      |reflexivity].
  - apply silent_bind; [apply getitem_silent|intros; reflexivity].
Qed.

Lemma int_result s n : result (int s) = Returns n -> Py.int10 s = Some n.
Proof.
  unfold int. destruct (Py.int10 s); intros H; inversion H; reflexivity.
Qed.

Lemma getitem_head {A} (t : list A) (a : A) :
  result (getitem t 0) = Returns a -> nth_error t 0 = Some a.
Proof.
  rewrite getitem_result. destruct (nth_error t 0); intros H; inversion H.
  reflexivity.
Qed.

Lemma assign_fields_index f found data f' :
  result (Frame.assign_fields f found data) = Returns f' ->
  Frame.raw f' = Frame.raw f
  /\ exists d0, nth_error data 0 = Some d0
                /\ Py.int10 d0 = Some (Frame.index f').
Proof.
  unfold Frame.assign_fields. intros H. do 3 step_bind H.
  match goal with
  | H0 : result (getitem data 0) = Returns ?a,
    H1 : result (int ?a) = Returns _ |- _ =>
      apply getitem_head in H0; apply int_result in H1
  end.
  destruct (Frame.mem "in" found).
  - step_bind H. destruct (Frame.mem "from" found).
    + step_bind H. inversion H; subst. split; [reflexivity|eauto].
    + destruct (Frame.mem "at" found).
      * step_bind H. inversion H; subst. split; [reflexivity|eauto].
      * inversion H; subst. split; [reflexivity|eauto].
  - step_bind H. inversion H; subst. split; [reflexivity|eauto].
Qed.

Lemma classify_keeps f :
  Frame.raw (Frame.classify f) = Frame.raw f
  /\ Frame.index (Frame.classify f) = Frame.index f.
Proof.
  unfold Frame.classify. destruct (Py.truthy (Frame.in_func f)); auto.
  destruct (Frame.in_func f) as [fn|]; auto.
  destruct (Py.contains "pthread_mutex_lock" fn); auto.
  destruct (Py.contains "pthread_rwlock" fn); auto.
Qed.

Lemma keywords_first_group raw :
  exists rest,
    groups_of (snd (Frame.keywords raw)) = ("", Re.digit) :: rest.
Proof.
  unfold Frame.keywords. cbv zeta.
  destruct (0 <=? Py.find raw " in "), (0 <=? Py.find raw " from "),
    (0 <=? Py.find raw " at "); eexists; reflexivity.
Qed.

(** The index of a frame that matched its pattern is not negative. *)
Lemma matched_index raw groups f :
  Re.rmatch (snd (Frame.keywords raw)) raw = Some groups ->
  result (Frame.assign_fields (Frame.init raw) (fst (Frame.keywords raw))
            groups) = Returns f ->
  0 <= Frame.index f.
Proof.
  intros Hm Ha. apply rmatch_groups in Hm.
  destruct (keywords_first_group raw) as [rest Hr]. rewrite Hr in Hm.
  apply assign_fields_index in Ha. destruct Ha as (_ & d0 & Hd & Hi).
  inversion Hm as [|pk g l l' Hc Ht]; subst. cbn [nth_error] in Hd.
  inversion Hd; subst d0. destruct Hc as (body & -> & Hb).
  cbn [fst snd append] in *.
  destruct (int10_captured body Hb) as [[_ Hn]|(n & Hn & Hpos)];
    congruence.
Qed.

(** What the lock resolver prints and answers. *)
Lemma parse_locked_state_cases go thread_index f :
  (exists o, Frame.parse_locked_state go thread_index f
             = ([], Returns (Some o))
             /\ all_in Re.digit o = true
             /\ Frame.lock_type f = Some pthread_mutex_t)
  \/ Frame.parse_locked_state go thread_index f = ([], Returns None)
  \/ Frame.parse_locked_state go thread_index f
     = ([No_match_found_for thread_index (Frame.index f)], Returns None)
  \/ Frame.parse_locked_state go thread_index f
     = ([Unable_to_handle_type (Frame.lock_type f)], Returns None).
Proof.
  unfold Frame.parse_locked_state.
  destruct (Frame.scan_registers false false _) as [mem_addr|];
    [|right; left; reflexivity].
  unfold Frame.read_owner.
  destruct (Frame.lock_type f) as [[|]|];
    try (right; right; right; reflexivity).
  rewrite rsearch_owner.
  destruct (after_first "__owner = " _) as [r|]; cbn [option_map].
  - left. exists (take_digits r). split; [reflexivity|].
    split; [apply take_digits_all|reflexivity].
  - right. right. left. reflexivity.
Qed.

(** A frame line, parsed: either the line did not match its pattern, and
    the frame is the one [Frame.__init__] prepared; or it matched, the index
    is not negative, and all that may have been printed is one diagnostic
    of the lock resolver. *)
Lemma parse_cases go thread_index raw :
  (Re.rmatch (snd (Frame.keywords raw)) raw = None
   /\ Frame.parse go thread_index raw
      = ([Did_not_match_the_pattern raw (snd (Frame.keywords raw))],
         Returns (Frame.init raw, None)))
  \/ (Re.rmatch (snd (Frame.keywords raw)) raw <> None
      /\ ((exists e, Frame.parse go thread_index raw = ([], Raises e))
          \/ exists f o out,
               Frame.parse go thread_index raw = (out, Returns (f, o))
               /\ Frame.raw f = raw /\ 0 <= Frame.index f
               /\ (o <> None -> Frame.locked f = true)
               /\ (forall w, o = Some w -> all_in Re.digit w = true)
               /\ forall x, In x out ->
                    x = No_match_found_for thread_index (Frame.index f)
                    \/ x = Unable_to_handle_type (Frame.lock_type f))).
Proof.
  unfold Frame.parse.
  destruct (Frame.keywords raw) as [found pattern] eqn:K. cbn [snd].
  destruct (Re.rmatch pattern raw) as [groups|] eqn:Hm;
    [right; split; [discriminate|]|left; split; reflexivity].
  pose proof (assign_fields_silent (Frame.init raw) found groups) as Hs.
  assert (forall f,
             result (Frame.assign_fields (Frame.init raw) found groups)
             = Returns f -> 0 <= Frame.index f) as Hidx.
  { intros f. pose proof (matched_index raw groups f) as Hx.
    rewrite K in Hx. cbn [fst snd] in Hx. exact (Hx Hm). }
  pose proof (assign_fields_index (Frame.init raw) found groups) as Hraw.
  destruct (Frame.assign_fields (Frame.init raw) found groups) as [o [f|e]];
    unfold printed, result in *; cbn [fst snd] in *; subst o.
  - right. specialize (Hidx f eq_refl).
    destruct (Hraw f eq_refl) as [Hr _]. clear Hraw.
    change (@nil output, Returns f) with (ret f). rewrite bind_ret.
    cbv zeta. destruct (classify_keeps f) as [Kr Ki].
    destruct (Frame.locked (Frame.classify f)) eqn:L.
    + destruct (parse_locked_state_cases go thread_index (Frame.classify f))
        as [(w & E & Hw & _)|[E|[E|E]]]; rewrite E;
        [exists (Frame.classify f), (Some w), []
        |exists (Frame.classify f), None, []
        |exists (Frame.classify f), None,
           [No_match_found_for thread_index
              (Frame.index (Frame.classify f))]
        |exists (Frame.classify f), None,
           [Unable_to_handle_type (Frame.lock_type (Frame.classify f))]];
        (split; [reflexivity|]); rewrite Kr, Ki;
        (split; [exact Hr|]); (split; [exact Hidx|]);
        (split; [intros _; exact L|]); split.
      * intros w' Hw'. inversion Hw'; subst. exact Hw.
      * intros x [].
      * intros w' Hw'. discriminate Hw'.
      * intros x [].
      * intros w' Hw'. discriminate Hw'.
      * intros x [<-|[]]. left. rewrite ?Ki. reflexivity.
      * intros w' Hw'. discriminate Hw'.
      * intros x [<-|[]]. right. reflexivity.
    + exists (Frame.classify f), None, []. split; [reflexivity|].
      rewrite Kr, Ki. split; [exact Hr|]. split; [exact Hidx|].
      split; [intros Hc; exfalso; apply Hc; reflexivity|]. split.
      * intros w' Hw'. discriminate Hw'.
      * intros x [].
  - left. exists e. reflexivity.
Qed.

(** X16.  A frame line that does not match the pattern built from its
    keywords does not stop the parser: [add_frame] prints the two
    diagnostics and appends the frame as [Frame.__init__] prepared it, with
    index -1, not marked as blocking; the counter and the rest of the
    thread stay as they are. *)
Theorem unmatched_frame_kept (go : session) (th : Thread.t) (n : Z)
  (line : string) :
  Re.rmatch (snd (Frame.keywords line)) line = None ->
  Thread.add_frame go th n line
  = ([Did_not_match_the_pattern line (snd (Frame.keywords line));
      Skipping_invalid_frame line],
     Returns (Thread.append_frame (Frame.init line) th, n)).
Proof.
  intros Hm. unfold Thread.add_frame.
  destruct (parse_cases go (Thread.index th) line) as [[_ E]|[Hc _]];
    [|contradiction].
  rewrite E. reflexivity.
Qed.

Lemma unmatched_frame_kept_witness :
  Thread.add_frame idle (running_thread 1 "101") 0 "#1  0x0041 in first"
  = ([Did_not_match_the_pattern "#1  0x0041 in first"
        (snd (Frame.keywords "#1  0x0041 in first"));
      Skipping_invalid_frame "#1  0x0041 in first"],
     Returns (Thread.append_frame (Frame.init "#1  0x0041 in first")
                (running_thread 1 "101"), 0)).
Proof.
  apply (unmatched_frame_kept idle (running_thread 1 "101") 0
           "#1  0x0041 in first").
  vm_compute. reflexivity.
Defined.

(** X17.  The diagnostic "Skipping invalid frame" of [add_frame], which
    tests the index of the frame against -1, is printed exactly for the
    lines that did not match their pattern: a frame that matched has an
    index that is not negative. *)
Theorem skipping_iff_unmatched (go : session) (th : Thread.t) (n : Z)
  (line : string) :
  In (Skipping_invalid_frame line) (printed (Thread.add_frame go th n line))
  <-> Re.rmatch (snd (Frame.keywords line)) line = None.
Proof.
  split.
  - intros Hin.
    destruct (Re.rmatch (snd (Frame.keywords line)) line) as [gs|] eqn:Hm;
      [exfalso|reflexivity].
    revert Hin. unfold Thread.add_frame.
    destruct (parse_cases go (Thread.index th) line)
      as [[Hc _]|[_ [[e E]|(f & o & out & E & _ & Hi & _ & _ & Hout)]]].
    + rewrite Hm in Hc. discriminate Hc.
    + rewrite E. intros [].
    + rewrite E. rewrite (bind_eq _ _ out (f, o) eq_refl). cbn [fst snd].
      destruct (Z.eqb_spec (Frame.index f) (-1)) as [Em|_]; [lia|].
      rewrite bind_ret. unfold printed. cbn [fst ret]. rewrite app_nil_r.
      intros Hin. destruct (Hout _ Hin) as [Hx|Hx]; discriminate Hx.
  - intros Hm. unfold Thread.add_frame.
    destruct (parse_cases go (Thread.index th) line) as [[_ E]|[Hc _]];
      [|contradiction].
    rewrite E. right. left. reflexivity.
Qed.

(** ** What holds of every thread of a snapshot *)

Lemma add_frame_parts go th n line th' n' :
  result (Thread.add_frame go th n line) = Returns (th', n') ->
  exists f o,
    result (Frame.parse go (Thread.index th) line) = Returns (f, o)
    /\ Thread.frames th' = (Thread.frames th ++ [f])%list
    /\ Thread.index th' = Thread.index th
    /\ Thread.lwp th' = Thread.lwp th
    /\ Thread.addr th' = Thread.addr th
    /\ Thread.name th' = Thread.name th
    /\ Thread.lock_func th' = Thread.lock_func th
    /\ Thread.locked th' = Thread.locked th || Frame.locked f
    /\ Thread.locked_index th'
       = (if Frame.locked f then Some (Frame.index f)
          else Thread.locked_index th)
    /\ Thread.lock_owner_lwp th'
       = match o with
         | Some w => Some w
         | None => Thread.lock_owner_lwp th
         end.
Proof.
  unfold Thread.add_frame. rewrite result_bind.
  destruct (result (Frame.parse go (Thread.index th) line)) as [[f ow]|e];
    [|discriminate].
  cbn [fst snd]. cbv zeta. rewrite result_bind.
  assert (result (if Frame.index f =? -1
                  then print (Skipping_invalid_frame line) else ret tt)
          = Returns tt) as Hp by (destruct (Frame.index f =? -1); reflexivity).
  rewrite Hp, result_ret. intros H. inversion H; subst; clear H.
  exists f, ow. split; [reflexivity|].
  destruct (Frame.locked f), ow; cbn;
    rewrite ?orb_true_r, ?orb_false_r; repeat split; reflexivity.
Qed.

Lemma parse_returned go thread_index raw f o :
  result (Frame.parse go thread_index raw) = Returns (f, o) ->
  Frame.raw f = raw /\ -1 <= Frame.index f
  /\ (o <> None -> Frame.locked f = true)
  /\ (forall w, o = Some w -> all_in Re.digit w = true).
Proof.
  intros H.
  destruct (parse_cases go thread_index raw)
    as [[_ E]|[_ [[e E]|(f' & o' & out & E & Hr & Hi & Hl & Hw & _)]]];
    rewrite E in H; unfold result in H; cbn [snd] in H; inversion H; subst.
  - split; [reflexivity|]. split; [cbn; lia|].
    split; [intros Hc; exfalso; apply Hc; reflexivity|].
    intros w Hw. discriminate Hw.
  - split; [reflexivity|]. split; [lia|]. split; assumption.
Qed.

Lemma update_first_Forall (P : Thread.t -> Prop) p f l :
  (forall th, P th -> P (f th)) ->
  Forall P l -> Forall P (GDB.update_first p f l).
Proof.
  intros Hf. induction 1 as [|th r Hth Hr IH]; cbn [GDB.update_first];
    [constructor|].
  destruct (p th); constructor; auto.
Qed.

Section ThreadInvariant.

Variable go : session.
Variable P : Thread.t -> Prop.

Hypothesis P_new : forall d0 d1 d2 th,
  Forall2 captured (groups_of GDB.thread_pattern) [d0; d1; d2] ->
  result (Thread.init d0 d1 d2) = Returns th -> P th.
Hypothesis P_frame : forall th n line th' n',
  frame_line line = true -> P th ->
  result (Thread.add_frame go th n line) = Returns (th', n') -> P th'.
Hypothesis P_name : forall n th,
  all_in Re.word n = true -> P th -> P (Thread.set_name n th).
Hypothesis P_lock : forall th, P th -> P (GDB.set_lock th).

Lemma add_frame_at_threads g i line g' :
  frame_line line = true -> Forall P (GDB.threads g) ->
  result (GDB.add_frame_at go g i line) = Returns g' ->
  Forall P (GDB.threads g').
Proof.
  intros Hl Hf H. unfold GDB.add_frame_at in H.
  destruct (nth_error (GDB.threads g) i) as [th|] eqn:Hi.
  - rewrite result_bind in H.
    destruct (result (Thread.add_frame go th (GDB.num_locked g) line))
      as [[th' n']|e] eqn:Ha; [|discriminate].
    rewrite result_ret in H. inversion H; subst g'; clear H.
    cbn [GDB.threads fst]. apply set_nth_Forall; [assumption|].
    apply (P_frame th (GDB.num_locked g) line th' n' Hl); [|exact Ha].
    rewrite Forall_forall in Hf. apply Hf.
    eapply nth_error_In. eassumption.
  - inversion H; subst. assumption.
Qed.

Lemma thread_header_groups line data :
  Re.rmatch GDB.thread_pattern line = Some data ->
  exists d0 d1 d2,
    data = [d0; d1; d2]
    /\ Forall2 captured (groups_of GDB.thread_pattern) [d0; d1; d2].
Proof.
  intros Hm. pose proof (rmatch_groups _ _ _ Hm) as Hg.
  pose proof (Forall2_length Hg) as Hlen.
  destruct data as [|d0 [|d1 [|d2 [|d3 r]]]]; try discriminate Hlen.
  exists d0, d1, d2. split; [reflexivity|exact Hg].
Qed.

Lemma parse_backtrace_threads lines : forall g cur g',
  Forall P (GDB.threads g) ->
  result (GDB.parse_backtrace go lines g cur) = Returns g' ->
  Forall P (GDB.threads g').
Proof.
  induction lines as [|line rest IH]; intros g cur g' Hf H.
  - cbn [GDB.parse_backtrace] in H. inversion H; subst. assumption.
  - rewrite parse_backtrace_cons in H. destruct cur as [i|].
    + destruct line as [|c line'].
      * eapply IH; eassumption.
      * destruct (c =? "#")%char eqn:Ec; cbn [negb] in H.
        -- step_bind H. eapply IH; [|exact H].
           eapply add_frame_at_threads; [|exact Hf|eassumption].
           cbn [frame_line]. exact Ec.
        -- rewrite result_print in H. eapply IH; eassumption.
    + destruct (Py.find line "Thread " =? 0); [|eapply IH; eassumption].
      destruct (Re.rmatch GDB.thread_pattern line) as [data|] eqn:Hm;
        [|rewrite result_print in H; eapply IH; eassumption].
      destruct (thread_header_groups line data Hm)
        as (d0 & d1 & d2 & -> & Hg).
      do 3 run_getitem H. step_bind H. eapply IH; [|exact H].
      cbn [GDB.with_threads GDB.threads]. apply Forall_app.
      split; [assumption|]. constructor; [|constructor].
      eapply P_new; eassumption.
Qed.

Lemma name_line_threads line g g' :
  Forall P (GDB.threads g) ->
  result (GDB.name_line line g) = Returns g' ->
  Forall P (GDB.threads g').
Proof.
  intros Hf H. unfold GDB.name_line in H.
  destruct (Re.rsearch GDB.name_pattern line) as [groups|] eqn:Es;
    [|inversion H; subst; assumption].
  pose proof (rsearch_groups _ _ _ Es) as Hg.
  unfold GDB.name_pattern in Hg. cbn [groups_of] in Hg.
  inversion Hg as [|? l ? ? _ Hg1]; subst.
  inversion Hg1 as [|? n ? ? Hc Hg2]; subst. inversion Hg2; subst.
  destruct Hc as (b & Eb & Hb). cbn [fst snd append] in *. subst n.
  do 2 run_getitem H. unfold GDB.set_thread_name, GDB.thread_by_lwp in H.
  destruct (GDB.lookup (GDB.threads g) (Some l)).
  - rewrite result_bind, !result_ret in H. inversion H; subst; clear H.
    cbn [GDB.with_threads GDB.threads].
    apply update_first_Forall; [intros th; apply P_name; exact Hb|assumption].
  - rewrite result_bind, result_print, result_ret in H.
    do 2 rewrite result_print in H. rewrite result_ret in H.
    inversion H; subst. assumption.
Qed.

Lemma snapshot_threads g :
  result (GDB.parse_thread_state go GDB.init) = Returns g ->
  Forall P (GDB.threads g).
Proof.
  unfold GDB.parse_thread_state. intros H.
  step_bind H. rename a into g1, E into E1.
  step_bind H. rename a into g2, E into E2.
  assert (Forall P (GDB.threads g1)) as F1.
  { eapply parse_backtrace_threads; [|exact E1]. constructor. }
  destruct (for_each_invariant (fun _ _ : GDB.t => True) GDB.name_line
              (Py.split_on Py.nl (go ["info threads"]))
              (fun _ => I) (fun _ _ _ _ _ => I)
              (fun s => Forall P (GDB.threads s))
              (fun x s s' Hs Hx => conj (name_line_threads x s s' Hs Hx) I)
              g1 g2 F1 E2) as [F2 _].
  rewrite find_deadlock_result in H. inversion H; subst g; clear H.
  cbn [add_deadlocks GDB.threads GDB.set_locks GDB.with_threads].
  apply Forall_map. eapply Forall_impl; [|exact F2]. exact P_lock.
Qed.

End ThreadInvariant.

Lemma new_thread d0 d1 d2 th :
  result (Thread.init d0 d1 d2) = Returns th ->
  Py.int10 d0 = Some (Thread.index th)
  /\ th = {| Thread.name := None; Thread.index := Thread.index th;
             Thread.addr := d1; Thread.lwp := d2; Thread.frames := [];
             Thread.locked := false; Thread.locked_index := None;
             Thread.lock_func := None; Thread.lock_owner_lwp := None |}.
Proof.
  unfold Thread.init, int. destruct (Py.int10 d0) as [n|]; [|discriminate].
  rewrite result_bind, !result_ret. intros H. inversion H; subst.
  split; reflexivity.
Qed.

Lemma set_lock_keeps th :
  Thread.index (GDB.set_lock th) = Thread.index th
  /\ Thread.lwp (GDB.set_lock th) = Thread.lwp th
  /\ Thread.addr (GDB.set_lock th) = Thread.addr th
  /\ Thread.frames (GDB.set_lock th) = Thread.frames th
  /\ Thread.locked (GDB.set_lock th) = Thread.locked th
  /\ Thread.locked_index (GDB.set_lock th) = Thread.locked_index th
  /\ Thread.lock_owner_lwp (GDB.set_lock th) = Thread.lock_owner_lwp th
  /\ (Thread.locked th = false ->
      Thread.lock_func (GDB.set_lock th) = Thread.lock_func th).
Proof.
  unfold GDB.set_lock. destruct (Thread.locked th) eqn:E;
    repeat split; try reflexivity; try exact E.
  intros H. discriminate H.
Qed.

Lemma set_lock_name th : Thread.name (GDB.set_lock th) = Thread.name th.
Proof. unfold GDB.set_lock. destruct (Thread.locked th); reflexivity. Qed.

(** X18.  Every thread of the snapshot of a run has an index that is not
    negative, an LWP made of decimal digits only, and an address made of 0x
    and lower-case hexadecimal digits; a name, if it has one, is made of
    letters, digits, underscores and dashes only (so it can be a number);
    and every one of its frames holds a line of the dump that starts with
    the frame marker, and has the index -1 or an index that is not
    negative. *)
Theorem thread_identity (go : session) (g : GDB.t) (th : Thread.t) :
  result (GDB.parse_thread_state go GDB.init) = Returns g ->
  In th (GDB.threads g) ->
  0 <= Thread.index th
  /\ all_in Re.digit (Thread.lwp th) = true
  /\ captured ("0x", Re.hexlower) (Thread.addr th)
  /\ (forall n, Thread.name th = Some n -> all_in Re.word n = true)
  /\ forall f, In f (Thread.frames th) ->
       frame_line (Frame.raw f) = true /\ -1 <= Frame.index f.
Proof.
  intros Hrun Hin.
  refine (proj1 (Forall_forall _ _)
            (snapshot_threads go
                (fun th =>
                   0 <= Thread.index th
                   /\ all_in Re.digit (Thread.lwp th) = true
                   /\ captured ("0x", Re.hexlower) (Thread.addr th)
                   /\ (forall n, Thread.name th = Some n ->
                                 all_in Re.word n = true)
                   /\ forall f, In f (Thread.frames th) ->
                        frame_line (Frame.raw f) = true
                        /\ -1 <= Frame.index f)
               _ _ _ _ g Hrun) th Hin);
    clear; cbv beta.
  - intros d0 d1 d2 th Hg Hi. apply new_thread in Hi.
    destruct Hi as [Hn ->]. cbn [Thread.index] in Hn. cbn.
    unfold GDB.thread_pattern in Hg. cbn [groups_of] in Hg.
    inversion Hg as [|? ? ? ? Hc0 Hg1]; subst.
    inversion Hg1 as [|? ? ? ? Hc1 Hg2]; subst.
    inversion Hg2 as [|? ? ? ? Hc2 _]; subst.
    destruct Hc0 as (b0 & E0 & Hb0). destruct Hc2 as (b2 & E2 & Hb2).
    cbn [fst snd append] in *. subst d0 d2.
    split; [|split; [|split; [|split]]].
    + destruct (int10_captured b0 Hb0) as [[_ Hx]|(k & Hk & Hpos)];
        congruence.
    + exact Hb2.
    + exact Hc1.
    + intros n Hn'. discriminate Hn'.
    + intros f [].
  - intros th n line th' n' Hl (H1 & H2 & H3 & H4 & H5) Ha.
    apply add_frame_parts in Ha.
    destruct Ha as (f & o & Hp & Hf & Hi & Hw & Had & Hnm & _).
    rewrite Hi, Hw, Had, Hnm, Hf. split; [exact H1|]. split; [exact H2|].
    split; [exact H3|]. split; [exact H4|]. intros x Hx.
    apply in_app_or in Hx. destruct Hx as [Hx|[<-|[]]]; [auto|].
    apply parse_returned in Hp. destruct Hp as (Hr & Hge & _).
    rewrite Hr. auto.
  - intros n th Hn (H1 & H2 & H3 & H4 & H5). cbn.
    split; [exact H1|]. split; [exact H2|]. split; [exact H3|].
    split; [|exact H5]. intros n' E. inversion E; subst. exact Hn.
  - intros th (H1 & H2 & H3 & H4 & H5).
    destruct (set_lock_keeps th) as (-> & -> & -> & -> & _).
    rewrite set_lock_name. auto.
Qed.

Lemma thread_identity_witness :
  let g := snapshot_of Scenario.C in
  let th := nth 0 (GDB.threads g) (running_thread 0 "") in
  0 <= Thread.index th /\ all_in Re.digit (Thread.lwp th) = true.
Proof.
  intros g th.
  destruct (thread_identity Scenario.C g th) as (H1 & H2 & _).
  - vm_compute. reflexivity.
  - vm_compute. left. reflexivity.
  - split; assumption.
Defined.

Lemma last_blocking_index_snoc frames f :
  last_blocking_index (frames ++ [f])
  = if Frame.locked f then Some (Frame.index f)
    else last_blocking_index frames.
Proof. unfold last_blocking_index. rewrite fold_left_app. reflexivity. Qed.

(** X19.  In the snapshot of a run, the blocking index recorded for a thread
    is the index of the last of its frames that is marked as blocking, in
    the order of the dump.  A thread that is not marked blocked has no
    blocking index, no resolved owner and no [lock_func]; and a resolved
    owner is made of decimal digits only. *)
Theorem blocking_record (go : session) (g : GDB.t) (th : Thread.t) :
  result (GDB.parse_thread_state go GDB.init) = Returns g ->
  In th (GDB.threads g) ->
  Thread.locked_index th = last_blocking_index (Thread.frames th)
  /\ (Thread.locked th = false ->
      Thread.locked_index th = None /\ Thread.lock_owner_lwp th = None
      /\ Thread.lock_func th = None)
  /\ forall w, Thread.lock_owner_lwp th = Some w ->
               all_in Re.digit w = true.
Proof.
  intros Hrun Hin.
  refine (proj1 (Forall_forall _ _)
            (snapshot_threads go
                (fun th =>
                   Thread.locked_index th
                   = last_blocking_index (Thread.frames th)
                   /\ (Thread.locked th = false ->
                       Thread.locked_index th = None
                       /\ Thread.lock_owner_lwp th = None
                       /\ Thread.lock_func th = None)
                   /\ forall w, Thread.lock_owner_lwp th = Some w ->
                                all_in Re.digit w = true)
               _ _ _ _ g Hrun) th Hin);
    clear; cbv beta.
  - intros d0 d1 d2 th _ Hi. apply new_thread in Hi. destruct Hi as [_ ->].
    cbn. split; [reflexivity|]. split; [auto|]. intros w Hw. discriminate Hw.
  - intros th n line th' n' _ (H1 & H2 & H3) Ha.
    apply add_frame_parts in Ha.
    destruct Ha as (f & o & Hp & Hf & _ & _ & _ & _ & Hfn & Hl & Hli & Ho).
    apply parse_returned in Hp. destruct Hp as (_ & _ & Hol & Hod).
    rewrite Hf, Hl, Hli, Ho, Hfn, last_blocking_index_snoc.
    split; [|split].
    + destruct (Frame.locked f); [reflexivity|exact H1].
    + intros Hu. apply orb_false_iff in Hu. destruct Hu as [Hu Hfl].
      rewrite Hfl. destruct (H2 Hu) as (E1 & E2 & E3).
      split; [exact E1|]. split; [|exact E3].
      destruct o as [w|]; [|exact E2].
      rewrite Hol in Hfl; [discriminate Hfl|discriminate].
    + intros w Hw. destruct o as [w'|]; [|auto].
      inversion Hw; subst. apply Hod. reflexivity.
  - intros n th _ H. exact H.
  - intros th (H1 & H2 & H3).
    destruct (set_lock_keeps th) as (_ & _ & _ & Ef & El & Ei & Eo & Efn).
    rewrite Ef, El, Ei, Eo. split; [exact H1|]. split; [|exact H3].
    intros Hu. rewrite (Efn Hu). auto.
Qed.

Lemma blocking_record_witness :
  let g := snapshot_of Scenario.wrapped_lock in
  let th := nth 1 (GDB.threads g) (running_thread 0 "") in
  Thread.locked_index th = last_blocking_index (Thread.frames th).
Proof.
  intros g th.
  destruct (blocking_record Scenario.wrapped_lock g th) as (H1 & _).
  - vm_compute. reflexivity.
  - vm_compute. right. left. reflexivity.
  - exact H1.
Defined.

(** ** A dump without thread headers *)

Lemma parse_backtrace_no_header go lines g :
  forallb (fun l => negb (header_line l)) lines = true ->
  GDB.parse_backtrace go lines g None = ret g.
Proof.
  induction lines as [|line rest IH]; intros H; [reflexivity|].
  cbn [forallb] in H. apply andb_true_iff in H. destruct H as [Hl Hr].
  rewrite parse_backtrace_cons. unfold header_line in Hl.
  apply negb_true_iff in Hl. rewrite Hl. apply IH. exact Hr.
Qed.

Lemma name_line_no_threads line g :
  GDB.threads g = [] ->
  exists o, GDB.name_line line g = (o, Returns g)
            /\ forallb naming_diagnostic o = true.
Proof.
  intros Ht. unfold GDB.name_line.
  destruct (Re.rsearch GDB.name_pattern line) as [groups|] eqn:E;
    [|exists []; split; reflexivity].
  apply rsearch_groups in E. apply Forall2_length in E.
  destruct groups as [|l [|n [|x r]]]; try discriminate E.
  unfold getitem. cbn [nth_error]. rewrite !bind_ret.
  unfold GDB.set_thread_name, GDB.thread_by_lwp. rewrite Ht.
  eexists. split; reflexivity.
Qed.

Lemma name_loop_no_threads lines g :
  GDB.threads g = [] ->
  exists o, GDB.for_each lines GDB.name_line g = (o, Returns g)
            /\ forallb naming_diagnostic o = true.
Proof.
  intros Ht. induction lines as [|line rest IH].
  - exists []. split; reflexivity.
  - cbn [GDB.for_each].
    destruct (name_line_no_threads line g Ht) as (o1 & E1 & D1).
    destruct IH as (o2 & E2 & D2).
    rewrite (bind_eq _ _ o1 g E1), E2. exists (o1 ++ o2)%list.
    split; [reflexivity|]. rewrite forallb_app, D1, D2. reflexivity.
Qed.

(** X20.  When no line of the backtrace dump starts with "Thread ", as when
    gdb prints nothing, the run builds the empty snapshot and ends with the
    line "There are no locked threads", whatever the flags and the filter
    are; before that line it can only have printed the diagnostics for the
    names of [info threads], which then belong to no thread. *)
Theorem headerless_dump (go : session) (back_trace : bool)
  (thread : list string) :
  forallb (fun l => negb (header_line l))
    (Py.split_on Py.nl (go ["thread apply all bt"])) = true ->
  exists o,
    forallb naming_diagnostic o = true
    /\ GDB.parse_thread_state go GDB.init = (o, Returns GDB.init)
    /\ ap_detector go back_trace thread
       = ((o ++ [There_are_no_locked_threads])%list, Returns tt).
Proof.
  intros H.
  destruct (name_loop_no_threads (Py.split_on Py.nl (go ["info threads"]))
              GDB.init eq_refl) as (o & E & D).
  assert (GDB.parse_thread_state go GDB.init = (o, Returns GDB.init)) as Hp.
  { unfold GDB.parse_thread_state.
    rewrite (parse_backtrace_no_header go _ GDB.init H), bind_ret.
    rewrite (bind_eq _ _ o GDB.init E). cbn. rewrite app_nil_r.
    reflexivity. }
  exists o. split; [exact D|]. split; [exact Hp|].
  unfold ap_detector. rewrite (bind_eq _ _ o GDB.init Hp). reflexivity.
Qed.

Lemma headerless_dump_witness :
  exists o,
    forallb naming_diagnostic o = true
    /\ GDB.parse_thread_state (scripted []) GDB.init = (o, Returns GDB.init)
    /\ ap_detector (scripted []) true ["alpha"]
       = ((o ++ [There_are_no_locked_threads])%list, Returns tt).
Proof.
  apply (headerless_dump (scripted []) true ["alpha"]).
  vm_compute. reflexivity.
Defined.

(** ** What [set_locks] changes *)


(** ** The exceptions of a run *)

Lemma keywordless_spec raw :
  (keywordless raw = true ->
   Py.find raw " in " < 0 /\ Py.find raw " from " < 0
   /\ Py.find raw " at " < 0)
  /\ (keywordless raw = false ->
      0 <= Py.find raw " in " \/ 0 <= Py.find raw " from "
      \/ 0 <= Py.find raw " at ").
Proof.
  unfold keywordless.
  destruct (Z.ltb_spec (Py.find raw " in ") 0);
    destruct (Z.ltb_spec (Py.find raw " from ") 0);
    destruct (Z.ltb_spec (Py.find raw " at ") 0); cbn [andb];
    split; intros E; try discriminate E; auto.
Qed.

Lemma parse_raises go thread_index raw e :
  result (Frame.parse go thread_index raw) = Raises e ->
  e = ValueError \/ (e = IndexError /\ keywordless raw = true).
Proof.
  intros H. destruct (keywordless raw) eqn:Kw.
  - apply (proj1 (keywordless_spec raw)) in Kw.
    destruct Kw as (Hin & Hfrom & Hat). unfold Frame.parse in H.
    rewrite (keywords_none _ Hin Hfrom Hat) in H.
    destruct (Re.rmatch Frame.base_pattern raw) as [groups|] eqn:M;
      [|rewrite result_print, result_ret in H; discriminate H].
    apply rmatch_groups in M. apply Forall2_length in M.
    destruct groups as [|d0 [|d1 [|d2 r]]]; try discriminate M.
    rewrite result_bind, assign_fields_short in H.
    destruct (Py.int10 d0); inversion H; auto.
  - left. apply (proj2 (keywordless_spec raw)) in Kw.
    unfold Frame.parse in H.
    destruct (Frame.keywords raw) as [found pattern] eqn:K.
    destruct (Re.rmatch pattern raw) as [groups|] eqn:M;
      [|rewrite result_print, result_ret in H; discriminate H].
    rewrite result_bind in H.
    destruct (result (Frame.assign_fields (Frame.init raw) found groups))
      as [f|e'] eqn:A.
    + cbv zeta in H. destruct (Frame.locked (Frame.classify f)).
      * rewrite result_bind in H.
        destruct (parse_locked_state_returns go thread_index
                    (Frame.classify f)) as [o Ho].
        rewrite Ho, result_ret in H. discriminate H.
      * rewrite result_ret in H. discriminate H.
    + inversion H; subst e'. eapply assign_fields_long; [|exact A].
      apply rmatch_groups in M. apply Forall2_length in M. rewrite <- M.
      eapply keywords_groups; eassumption.
Qed.

Lemma add_frame_raises go th n line e :
  result (Thread.add_frame go th n line) = Raises e ->
  result (Frame.parse go (Thread.index th) line) = Raises e.
Proof.
  unfold Thread.add_frame. rewrite result_bind.
  destruct (result (Frame.parse go (Thread.index th) line)) as [[f ow]|e'];
    [|intros H; inversion H; reflexivity].
  cbn [fst snd]. cbv zeta. rewrite result_bind.
  assert (result (if Frame.index f =? -1
                  then print (Skipping_invalid_frame line) else ret tt)
          = Returns tt) as Hp by (destruct (Frame.index f =? -1); reflexivity).
  rewrite Hp, result_ret. intros H. discriminate H.
Qed.

Lemma add_frame_at_raises go g i line e :
  result (GDB.add_frame_at go g i line) = Raises e ->
  e = ValueError \/ (e = IndexError /\ keywordless line = true).
Proof.
  unfold GDB.add_frame_at.
  destruct (nth_error (GDB.threads g) i) as [th|]; [|discriminate].
  rewrite result_bind.
  destruct (result (Thread.add_frame go th (GDB.num_locked g) line))
    as [r|e'] eqn:E; [rewrite result_ret; discriminate|].
  intros H. inversion H; subst e'. apply add_frame_raises in E.
  eapply parse_raises. exact E.
Qed.

Lemma parse_backtrace_raises go lines : forall g cur e,
  result (GDB.parse_backtrace go lines g cur) = Raises e ->
  e = ValueError
  \/ (e = IndexError
      /\ exists line, In line lines /\ frame_line line = true
                      /\ keywordless line = true).
Proof.
  induction lines as [|line rest IH]; intros g cur e H;
    [discriminate H|].
  assert (forall g' cur',
             result (GDB.parse_backtrace go rest g' cur') = Raises e ->
             e = ValueError
             \/ (e = IndexError
                 /\ exists l, In l (line :: rest) /\ frame_line l = true
                              /\ keywordless l = true)) as Hrest.
  { intros g' cur' H'.
    destruct (IH _ _ _ H') as [Hv|(Hi & l & Hl & Hf & Hk)];
      [left; exact Hv|right].
    split; [exact Hi|]. exists l. split; [right; exact Hl|]. auto. }
  rewrite parse_backtrace_cons in H. destruct cur as [i|].
  - destruct line as [|c line']; [eapply Hrest; exact H|].
    destruct (c =? "#")%char eqn:Ec; cbn [negb] in H.
    + rewrite result_bind in H.
      destruct (result (GDB.add_frame_at go g i (String c line')))
        as [g1|e'] eqn:E; [eapply Hrest; exact H|].
      inversion H; subst e'. apply add_frame_at_raises in E.
      destruct E as [Hv|[Hi Hk]]; [left; exact Hv|right].
      split; [exact Hi|]. exists (String c line').
      split; [left; reflexivity|]. split; [exact Ec|exact Hk].
    + rewrite result_print in H. eapply Hrest; exact H.
  - destruct (Py.find line "Thread " =? 0); [|eapply Hrest; exact H].
    destruct (Re.rmatch GDB.thread_pattern line) as [data|] eqn:Hm;
      [|rewrite result_print in H; eapply Hrest; exact H].
    destruct (thread_header_groups line data Hm)
      as (d0 & d1 & d2 & -> & Hg).
    do 3 run_getitem H. rewrite result_bind in H.
    destruct (result (Thread.init d0 d1 d2)) as [th|e'] eqn:E;
      [eapply Hrest; exact H|].
    inversion H; subst e'. left. revert E. unfold Thread.init, int.
    destruct (Py.int10 d0); [rewrite result_bind, !result_ret; discriminate|].
    intros E. inversion E. reflexivity.
Qed.

Lemma name_line_returns line g :
  exists g', result (GDB.name_line line g) = Returns g'.
Proof.
  unfold GDB.name_line.
  destruct (Re.rsearch GDB.name_pattern line) as [groups|] eqn:E;
    [|eexists; reflexivity].
  apply rsearch_groups in E. apply Forall2_length in E.
  destruct groups as [|l [|n [|x r]]]; try discriminate E.
  rewrite result_bind, getitem_result. cbn [nth_error]. cbv beta iota.
  rewrite result_bind, getitem_result. cbn [nth_error]. cbv beta iota.
  unfold GDB.set_thread_name, GDB.thread_by_lwp.
  destruct (GDB.lookup (GDB.threads g) (Some l)); eexists.
  - rewrite result_bind, !result_ret. reflexivity.
  - rewrite result_bind, result_print, result_ret.
    do 2 rewrite result_print. rewrite result_ret. reflexivity.
Qed.

Lemma for_each_returns {A S} (body : A -> S -> M S) (l : list A) :
  (forall x s, exists s', result (body x s) = Returns s') ->
  forall s, exists s', result (GDB.for_each l body s) = Returns s'.
Proof.
  intros Hb. induction l as [|x r IH]; intros s.
  - exists s. reflexivity.
  - cbn [GDB.for_each]. rewrite result_bind.
    destruct (Hb x s) as [s1 E]. rewrite E. apply IH.
Qed.

Lemma ints_of_raises_only names e :
  result (GDB.ints_of names) = Raises e -> e = ValueError.
Proof.
  induction names as [|x r IH]; [discriminate|].
  cbn [GDB.ints_of]. rewrite result_bind. unfold int.
  destruct (Py.int10 x); [|intros H; inversion H; reflexivity].
  rewrite result_ret, result_bind.
  destruct (result (GDB.ints_of r)) as [ns|e'];
    [rewrite result_ret; discriminate|].
  intros H. inversion H; subst e'. apply IH. reflexivity.
Qed.

Lemma select_loop_raises_only names ths e : forall acc,
  result (GDB.for_each ths (GDB.select (Some names)) acc) = Raises e ->
  e = ValueError.
Proof.
  induction ths as [|th r IH]; intros acc; [discriminate|].
  cbn [GDB.for_each]. rewrite result_bind.
  destruct (result (GDB.select (Some names) th acc)) as [acc'|e'] eqn:E;
    [apply IH|].
  intros H. inversion H; subst e'. revert E. unfold GDB.select.
  destruct (Thread.locked th); cbn [negb]; [|discriminate]. cbv zeta.
  rewrite result_bind. cbn [GDB.only_show_ints].
  destruct (result (GDB.ints_of names)) as [ns|e'] eqn:Ei;
    [rewrite result_ret; discriminate|].
  intros H'. inversion H'; subst e'. eapply ints_of_raises_only. exact Ei.
Qed.

Lemma print_status_raises_only g show_bt names e :
  result (GDB.print_status g show_bt (Some names)) = Raises e ->
  e = ValueError.
Proof.
  unfold GDB.print_status.
  destruct (GDB.num_locked g =? 0); [discriminate|].
  rewrite result_bind.
  destruct (result (GDB.for_each (GDB.threads g) (GDB.select (Some names))
                      [])) as [sel|e'] eqn:E.
  - rewrite result_bind.
    rewrite (loop_returns (GDB.report g show_bt) sel
               (report_returns g show_bt)).
    rewrite deadlock_lines. discriminate.
  - intros H. inversion H; subst e'.
    eapply select_loop_raises_only. exact E.
Qed.

(** X22.  Whatever gdb answers, a run never ends in [TypeError], and it
    ends in [IndexError] only when the backtrace dump has a line that starts
    with the frame marker and has none of the keywords in, from and at; any
    other exception raised by the program's own code is the [ValueError] of
    a conversion to an integer. *)
Theorem run_exceptions (go : session) (back_trace : bool)
  (thread : list string) (e : exn) :
  result (ap_detector go back_trace thread) = Raises e ->
  e = ValueError
  \/ (e = IndexError
      /\ exists line,
           In line (Py.split_on Py.nl (go ["thread apply all bt"]))
           /\ frame_line line = true /\ keywordless line = true).
Proof.
  unfold ap_detector. rewrite result_bind.
  destruct (result (GDB.parse_thread_state go GDB.init)) as [g|e'] eqn:E.
  - intros H. left. eapply print_status_raises_only. exact H.
  - intros H. inversion H; subst e'. clear H. revert E.
    unfold GDB.parse_thread_state. rewrite result_bind.
    destruct (result (GDB.parse_backtrace go _ GDB.init None))
      as [g1|e'] eqn:E1.
    + rewrite result_bind.
      destruct (for_each_returns GDB.name_line
                  (Py.split_on Py.nl (go ["info threads"]))
                  name_line_returns g1) as [g2 E2].
      rewrite E2, find_deadlock_result. discriminate.
    + intros H. inversion H; subst e'.
      eapply parse_backtrace_raises. exact E1.
Qed.

Lemma run_exceptions_witness :
  IndexError = ValueError
  \/ (IndexError = IndexError
      /\ exists line,
           In line (Py.split_on Py.nl
                      (Scenario.signal_frame ["thread apply all bt"]))
           /\ frame_line line = true /\ keywordless line = true).
Proof.
  apply (run_exceptions Scenario.signal_frame false [] IndexError).
  vm_compute. reflexivity.
Defined.

(** ** The frames of a thread and the lines of the dump *)

Lemma set_nth_same {A} (l : list A) : forall i x old,
  nth_error l i = Some old -> nth_error (GDB.set_nth i x l) i = Some x.
Proof.
  induction l as [|y r IH]; intros [|i] x old H; cbn in *;
    try discriminate; [reflexivity|eauto].
Qed.

Lemma set_nth_other {A} (l : list A) : forall i j x,
  i <> j -> nth_error (GDB.set_nth i x l) j = nth_error l j.
Proof.
  induction l as [|y r IH]; intros [|i] [|j] x H; cbn; try reflexivity;
    [contradiction|apply IH; congruence].
Qed.

Lemma set_nth_length {A} (l : list A) : forall i x,
  List.length (GDB.set_nth i x l) = List.length l.
Proof.
  induction l as [|y r IH]; intros [|i] x; cbn; try reflexivity.
  rewrite IH. reflexivity.
Qed.

Lemma add_frame_at_thread go g i line g' th :
  nth_error (GDB.threads g) i = Some th ->
  result (GDB.add_frame_at go g i line) = Returns g' ->
  (exists th', nth_error (GDB.threads g') i = Some th'
               /\ map Frame.raw (Thread.frames th')
                  = (map Frame.raw (Thread.frames th) ++ [line])%list)
  /\ List.length (GDB.threads g') = List.length (GDB.threads g)
  /\ forall j, j <> i ->
       nth_error (GDB.threads g') j = nth_error (GDB.threads g) j.
Proof.
  intros Hi H. unfold GDB.add_frame_at in H. rewrite Hi in H.
  rewrite result_bind in H.
  destruct (result (Thread.add_frame go th (GDB.num_locked g) line))
    as [[th' n']|e] eqn:Ha; [|discriminate].
  rewrite result_ret in H. inversion H; subst g'; clear H.
  cbn [GDB.threads fst]. split.
  - exists th'. split; [eapply set_nth_same; exact Hi|].
    apply add_frame_parts in Ha. destruct Ha as (f & o & Hp & Hf & _).
    apply parse_returned in Hp. destruct Hp as (Hr & _).
    rewrite Hf, map_app. cbn [map]. rewrite Hr. reflexivity.
  - split; [apply set_nth_length|].
    intros j Hj. apply set_nth_other. congruence.
Qed.

(** X23.  While the lines of one thread are read, up to the empty line that
    ends it, every line that starts with the frame marker becomes a frame
    of that thread, in the order of the dump and with the line kept as it
    is, and every other line is passed over, a thread header too: no thread
    is added before the empty line, and no other thread changes. *)
Theorem frames_are_the_marked_lines (go : session) (lines : list string)
  (g g' : GDB.t) (i : nat) (th : Thread.t) :
  forallb (fun l => negb (l =? "")%string) lines = true ->
  nth_error (GDB.threads g) i = Some th ->
  result (GDB.parse_backtrace go lines g (Some i)) = Returns g' ->
  (exists th', nth_error (GDB.threads g') i = Some th'
               /\ map Frame.raw (Thread.frames th')
                  = (map Frame.raw (Thread.frames th)
                     ++ filter frame_line lines)%list)
  /\ List.length (GDB.threads g') = List.length (GDB.threads g)
  /\ forall j, j <> i ->
       nth_error (GDB.threads g') j = nth_error (GDB.threads g) j.
Proof.
  revert g th. induction lines as [|line rest IH]; intros g th Hne Hi H.
  - cbn [GDB.parse_backtrace] in H. inversion H; subst g'. split.
    + exists th. split; [exact Hi|]. cbn [filter]. rewrite app_nil_r.
      reflexivity.
    + split; reflexivity.
  - cbn [forallb] in Hne. apply andb_true_iff in Hne.
    destruct Hne as [Hl Hr]. rewrite parse_backtrace_cons in H.
    destruct line as [|c line']; [discriminate Hl|].
    cbn [filter frame_line].
    destruct (c =? "#")%char eqn:Ec; cbn [negb] in H.
    + step_bind H.
      destruct (add_frame_at_thread _ _ _ _ _ _ Hi E)
        as [(th1 & Hi1 & Hf1) [Hn1 Ho1]].
      destruct (IH _ _ Hr Hi1 H) as [(th2 & Hi2 & Hf2) [Hn2 Ho2]].
      split; [|split].
      * exists th2. split; [exact Hi2|]. rewrite Hf2, Hf1, <- app_assoc.
        reflexivity.
      * rewrite Hn2. exact Hn1.
      * intros j Hj. rewrite (Ho2 j Hj). apply Ho1. exact Hj.
    + rewrite result_print in H. exact (IH _ _ Hr Hi H).
Qed.

Lemma frames_are_the_marked_lines_witness :
  let lines := ["#0  0x00007f40 in nanosleep () from /lib/libc.so.6";
                "[New LWP 102]";
                "#1  0x00000041 in first (arg=0x0) at dl.c:10"] in
  let g := before_find_deadlock [running_thread 1 "101"] in
  exists th',
    nth_error (GDB.threads (after_lines idle lines g 0)) 0 = Some th'
    /\ map Frame.raw (Thread.frames th')
       = ["#0  0x00007f40 in nanosleep () from /lib/libc.so.6";
          "#1  0x00000041 in first (arg=0x0) at dl.c:10"].
Proof.
  intros lines g.
  assert (result (GDB.parse_backtrace idle lines g (Some 0%nat))
          = Returns (after_lines idle lines g 0)) as H
    by (vm_compute; reflexivity).
  apply (proj1 (frames_are_the_marked_lines idle lines g
                  (after_lines idle lines g 0) 0 (running_thread 1 "101")
                  eq_refl eq_refl H)).
Defined.
